(** * eco_ae: the callback-driven event loop of CxxFiber (src/eco_ae.c)

    A shallow embedding of the descriptor table, the timer list, the timer
    sweep and the dispatch pass, followed by the properties proved about
    them.

    Conventions.
    - C [int], [long], [time_t] and [es_int64_t] values are integers of [Z];
      the counters ([maxfd], [timeEventNextId], [processed]) stay far inside
      their C ranges in every run considered, signed overflow being
      undefined in C anyway.  Bit operations are [Z.land], [Z.lor] and
      [Z.lnot], which agree with the two's complement operations of C.
    - Pointers (callbacks, client data) are addresses in [Z]; [NULL] is 0.
    - A C behaviour that is undefined (indexing the descriptor table outside
      its bounds, calling through a NULL function pointer) is the result
      [None] of the function that models it. *)

From stdpp Require Import list.
From Stdlib Require Import ZArith Lia.

Local Open Scope Z_scope.

(** ** Constants of eco_ae.h *)

(** Modelled from the spec: the header eco_ae.h is not part of the sources.
    The spec describes an interest mask as the bitwise OR of NONE, READABLE
    and WRITABLE, a reserved sentinel id for timers pending deletion and a
    "no more" return value of timer callbacks; the values are those of the
    ae.h this file derives from. *)
Definition NULL : Z := 0.
Definition ECO_POLL_NONE : Z := 0.
Definition ECO_POLL_READABLE : Z := 1.
Definition ECO_POLL_WRITABLE : Z := 2.
Definition ECO_POLL_FILE_EVENTS : Z := 1.
Definition ECO_POLL_TIME_EVENTS : Z := 2.
Definition ECO_POLL_NOMORE : Z := -1.
Definition ECO_POLL_DELETED_EVENT_ID : Z := -1.

(** The two result codes of [es_status_t]; their numeric values are defined
    in the absent header and are never inspected by eco_ae.c. *)
Inductive es_status_t := ES_SUCCESS | ES_FAILURE.

(** ** Data model *)

(** [coFileEvent]: one slot of the descriptor table. *)
Record coFileEvent := mkFileEvent {
  fe_mask : Z;
  fe_rfileProc : Z;
  fe_wfileProc : Z;
  fe_clientData : Z
}.

(** [coTimeEvent]: one node of the timer list; the [next] pointer is the
    position in the list that starts at [timeEventHead]. *)
Record coTimeEvent := mkTimeEvent {
  te_id : Z;
  te_when_sec : Z;
  te_when_ms : Z;
  te_timeProc : Z;
  te_finalizerProc : Z;
  te_clientData : Z
}.

(** [co_poll_t].  The [fired] scratch buffer is filled by the backend at every
    poll and is an argument of the dispatch pass; the backend's private
    [apidata] is not modelled: the adapter is outside eco_ae.c and only its
    results enter the functions below. *)
Record co_poll_t := mkPoll {
  maxfd : Z;
  setsize : Z;
  timeEventNextId : Z;
  lastTime : Z;
  events : list coFileEvent;
  timeEventHead : list coTimeEvent
}.

Definition set_fe_mask (m : Z) (fe : coFileEvent) : coFileEvent :=
  mkFileEvent m (fe_rfileProc fe) (fe_wfileProc fe) (fe_clientData fe).
Definition set_fe_rfileProc (f : Z) (fe : coFileEvent) : coFileEvent :=
  mkFileEvent (fe_mask fe) f (fe_wfileProc fe) (fe_clientData fe).
Definition set_fe_wfileProc (f : Z) (fe : coFileEvent) : coFileEvent :=
  mkFileEvent (fe_mask fe) (fe_rfileProc fe) f (fe_clientData fe).
Definition set_fe_clientData (d : Z) (fe : coFileEvent) : coFileEvent :=
  mkFileEvent (fe_mask fe) (fe_rfileProc fe) (fe_wfileProc fe) d.

Definition set_te_id (i : Z) (te : coTimeEvent) : coTimeEvent :=
  mkTimeEvent i (te_when_sec te) (te_when_ms te) (te_timeProc te)
              (te_finalizerProc te) (te_clientData te).
Definition set_te_when_sec (s : Z) (te : coTimeEvent) : coTimeEvent :=
  mkTimeEvent (te_id te) s (te_when_ms te) (te_timeProc te)
              (te_finalizerProc te) (te_clientData te).
Definition set_te_when (s ms : Z) (te : coTimeEvent) : coTimeEvent :=
  mkTimeEvent (te_id te) s ms (te_timeProc te)
              (te_finalizerProc te) (te_clientData te).

Definition set_maxfd (m : Z) (p : co_poll_t) : co_poll_t :=
  mkPoll m (setsize p) (timeEventNextId p) (lastTime p) (events p)
         (timeEventHead p).
Definition set_events (ev : list coFileEvent) (p : co_poll_t) : co_poll_t :=
  mkPoll (maxfd p) (setsize p) (timeEventNextId p) (lastTime p) ev
         (timeEventHead p).
Definition set_timeEventNextId (n : Z) (p : co_poll_t) : co_poll_t :=
  mkPoll (maxfd p) (setsize p) n (lastTime p) (events p) (timeEventHead p).
Definition set_lastTime (t : Z) (p : co_poll_t) : co_poll_t :=
  mkPoll (maxfd p) (setsize p) (timeEventNextId p) t (events p)
         (timeEventHead p).
Definition set_timeEventHead (l : list coTimeEvent) (p : co_poll_t)
  : co_poll_t :=
  mkPoll (maxfd p) (setsize p) (timeEventNextId p) (lastTime p) (events p) l.

(** ** Descriptor table *)

(** [&poll->events[fd]]: the slot of descriptor [fd].  [None] when [fd] lies
    outside the allocated table, where the C access is undefined. *)
Definition slot (p : co_poll_t) (fd : Z) : option coFileEvent :=
  if fd <? 0 then None else events p !! Z.to_nat fd.

Definition set_slot (fd : Z) (fe : coFileEvent) (p : co_poll_t) : co_poll_t :=
  set_events (<[Z.to_nat fd := fe]> (events p)) p.

(** [eco_poll_create].  [raw i] is the indeterminate content [malloc] left in
    slot [i]: only the mask of each slot is initialised.  [now] is the value
    of [time(NULL)]; [alloc_ok] and [api_ok] tell whether the allocations and
    [aeApiCreate] succeeded.  [None] is the NULL result. *)
Definition eco_poll_create (size : Z) (raw : nat -> coFileEvent) (now : Z)
    (alloc_ok api_ok : bool) : option co_poll_t :=
  if negb alloc_ok then None
  else if negb api_ok then None
  else Some (mkPoll (-1) size 0 now
               (map (fun i => set_fe_mask ECO_POLL_NONE (raw i))
                    (seq 0 (Z.to_nat size)))
               []).

(** The body shared by the two registration entry points after the backend
    call succeeded (lines 144-150 and 166-174 are the same statements). *)
Definition install_file_event (p : co_poll_t) (fd mask proc clientData : Z)
    (fe : coFileEvent) : co_poll_t :=
  let fe1 := set_fe_mask (Z.lor (fe_mask fe) mask) fe in
  let fe2 := if Z.land mask ECO_POLL_READABLE =? 0 then fe1
             else set_fe_rfileProc proc fe1 in
  let fe3 := if Z.land mask ECO_POLL_WRITABLE =? 0 then fe2
             else set_fe_wfileProc proc fe2 in
  let fe4 := set_fe_clientData clientData fe3 in
  let p1 := set_slot fd fe4 p in
  if fd >? maxfd p1 then set_maxfd fd p1 else p1.

(** [eco_poll_file_event_create]; [api_ok] is the outcome of
    [aeApiAddEvent]. *)
Definition eco_poll_file_event_create (p : co_poll_t)
    (fd mask proc clientData : Z) (api_ok : bool)
  : option (co_poll_t * es_status_t) :=
  if fd >=? setsize p then Some (p, ES_FAILURE)
  else
    fe ← slot p fd;
    if negb api_ok then Some (p, ES_FAILURE)
    else Some (install_file_event p fd mask proc clientData fe, ES_SUCCESS).

(** [eco_poll_file_event_update]; [api_ok] is the outcome of
    [aeApiUpdEvent]. *)
Definition eco_poll_file_event_update (p : co_poll_t)
    (fd mask proc clientData : Z) (api_ok : bool)
  : option (co_poll_t * es_status_t) :=
  if fd >=? setsize p then Some (p, ES_FAILURE)
  else
    fe ← slot p fd;
    if negb api_ok then Some (p, ES_FAILURE)
    else Some (install_file_event p fd mask proc clientData fe, ES_SUCCESS).

(** The backward scan of [eco_poll_file_event_delete]:
    [for (j = n-1; j >= 0; j--) if (events[j].mask != NONE) break;]
    returns the final [j]. *)
Fixpoint scan_maxfd (ev : list coFileEvent) (n : nat) : option Z :=
  match n with
  | O => Some (-1)
  | S j =>
      fe ← ev !! j;
      if fe_mask fe =? ECO_POLL_NONE then scan_maxfd ev j
      else Some (Z.of_nat j)
  end.

(** [eco_poll_file_event_delete]. *)
Definition eco_poll_file_event_delete (p : co_poll_t) (fd mask : Z)
  : option co_poll_t :=
  if fd >=? setsize p then Some p
  else
    fe ← slot p fd;
    if fe_mask fe =? ECO_POLL_NONE then Some p
    else
      let m := Z.land (fe_mask fe) (Z.lnot mask) in
      let p1 := set_slot fd (set_fe_mask m fe) p in
      if (fd =? maxfd p1) && (m =? ECO_POLL_NONE) then
        j ← scan_maxfd (events p1) (Z.to_nat (maxfd p1));
        Some (set_maxfd j p1)
      else Some p1.

(** [eco_poll_get_file_events]. *)
Definition eco_poll_get_file_events (p : co_poll_t) (fd : Z) : option Z :=
  if fd >=? setsize p then Some 0
  else fe ← slot p fd; Some (fe_mask fe).

(** [eco_poll_get_size]. *)
Definition eco_poll_get_size (p : co_poll_t) : Z := setsize p.

(** The table [realloc] returns for [size] slots: the old slots up to the
    smaller of the two sizes, then the indeterminate content [raw i] of the
    slots that are new. *)
Definition realloc_events (ev : list coFileEvent) (size : Z)
    (raw : nat -> coFileEvent) : list coFileEvent :=
  map (fun i => match ev !! i with Some fe => fe | None => raw i end)
      (seq 0 (Z.to_nat size)).

(** [for (i = from; i < setsize; i++) events[i].mask = ECO_POLL_NONE;] on a
    table of [setsize] slots, for [0 <= from]. *)
Definition clear_masks_from (from : Z) (ev : list coFileEvent)
  : list coFileEvent :=
  imap (fun i fe => if Z.of_nat i <? from then fe
                    else set_fe_mask ECO_POLL_NONE fe) ev.

(** [eco_poll_resize].  [api_ok] is the outcome of [aeApiResize];
    [realloc_ok] tells whether the two [realloc] calls succeeded (their
    results are not checked by the code: after a failure the table pointer
    is NULL, which is the result [None] here, as is a [maxfd] below -1,
    with which the loop would index before the table).  The result is the
    loop and the returned [int]. *)
Definition eco_poll_resize (p : co_poll_t) (size : Z)
    (raw : nat -> coFileEvent) (api_ok realloc_ok : bool)
  : option (co_poll_t * Z) :=
  if size =? setsize p then Some (p, 0)
  else if maxfd p >=? size then Some (p, -1)
  else if negb api_ok then Some (p, -1)
  else if negb realloc_ok then None
  else if maxfd p <? -1 then None
  else
    Some (mkPoll (maxfd p) size (timeEventNextId p) (lastTime p)
            (clear_masks_from (maxfd p + 1)
               (realloc_events (events p) size raw))
            (timeEventHead p), 0).

(** ** Timer list *)

(** [aeGetTime] applied to a reading [(tv_sec, tv_usec)] of [gettimeofday]. *)
Definition aeGetTime (tv : Z * Z) : Z * Z :=
  (fst tv, Z.quot (snd tv) 1000).

(** [aeAddMillisecondsToNow], [tv] being the reading of the clock it takes. *)
Definition aeAddMillisecondsToNow (tv : Z * Z) (milliseconds : Z) : Z * Z :=
  let '(cur_sec, cur_ms) := aeGetTime tv in
  let when_sec := cur_sec + Z.quot milliseconds 1000 in
  let when_ms := cur_ms + Z.rem milliseconds 1000 in
  if when_ms >=? 1000 then (when_sec + 1, when_ms - 1000)
  else (when_sec, when_ms).

(** [eco_poll_time_event_create].  [malloc_ok] tells whether the node could
    be allocated; [tv] is the clock reading taken by
    [aeAddMillisecondsToNow] (not taken when the allocation fails).  The
    result is the new id, or the constant [ES_FAILURE]. *)
Definition eco_poll_time_event_create (p : co_poll_t) (tv : Z * Z)
    (milliseconds proc clientData finalizerProc : Z) (malloc_ok : bool)
  : co_poll_t * (Z + es_status_t) :=
  let id := timeEventNextId p in
  let p1 := set_timeEventNextId (timeEventNextId p + 1) p in
  if negb malloc_ok then (p1, inr ES_FAILURE)
  else
    let '(when_sec, when_ms) := aeAddMillisecondsToNow tv milliseconds in
    let te := mkTimeEvent id when_sec when_ms proc finalizerProc clientData in
    (set_timeEventHead (te :: timeEventHead p1) p1, inl id).

(** The search loop of [eco_poll_time_event_delete]: the first node whose id
    is [id] gets the sentinel id; [None] when no node has that id. *)
Fixpoint mark_deleted (l : list coTimeEvent) (id : Z)
  : option (list coTimeEvent) :=
  match l with
  | [] => None
  | te :: rest =>
      if te_id te =? id
      then Some (set_te_id ECO_POLL_DELETED_EVENT_ID te :: rest)
      else rest' ← mark_deleted rest id; Some (te :: rest')
  end.

(** [eco_poll_time_event_delete]. *)
Definition eco_poll_time_event_delete (p : co_poll_t) (id : Z)
  : co_poll_t * es_status_t :=
  match mark_deleted (timeEventHead p) id with
  | Some l => (set_timeEventHead l p, ES_SUCCESS)
  | None => (p, ES_FAILURE)
  end.

(** [eco_poll_time_fire_all], [tv] being the clock reading it takes. *)
Definition eco_poll_time_fire_all (p : co_poll_t) (tv : Z * Z) : co_poll_t :=
  let '(cur_sec, cur_ms) := aeGetTime tv in
  set_timeEventHead
    (map (fun te => if te_id te =? ECO_POLL_DELETED_EVENT_ID then te
                    else set_te_when cur_sec cur_ms te)
         (timeEventHead p)) p.

(** [aeSearchNearestTimer]: the loop, with the current [nearest]. *)
Fixpoint search_nearest (l : list coTimeEvent) (nearest : option coTimeEvent)
  : option coTimeEvent :=
  match l with
  | [] => nearest
  | te :: rest =>
      search_nearest rest
        (match nearest with
         | None => Some te
         | Some n =>
             if (te_when_sec te <? te_when_sec n)
                || ((te_when_sec te =? te_when_sec n)
                    && (te_when_ms te <? te_when_ms n))
             then Some te else Some n
         end)
  end.

Definition aeSearchNearestTimer (p : co_poll_t) : option coTimeEvent :=
  search_nearest (timeEventHead p) None.

(** ** The loop with its callbacks *)

(** What a run records: every call made through a callback pointer, in the
    order of the calls. *)
Inductive invocation :=
| CallFile (proc fd clientData mask : Z)
| CallTime (proc id clientData : Z)
| CallFinalizer (proc clientData : Z).

(** The calls a callback makes on the loop it is handed.  Callbacks register
    and unregister descriptors and create and cancel timers (spec, section
    5); a callback that re-enters [eco_poll_process_events] is not
    modelled.  Each call carries the outcome of the backend or of [malloc]
    it meets. *)
Inductive action :=
| file_event_create (fd mask proc clientData : Z) (api_ok : bool)
| file_event_update (fd mask proc clientData : Z) (api_ok : bool)
| file_event_delete (fd mask : Z)
| time_event_create (milliseconds proc clientData finalizerProc : Z)
                    (malloc_ok : bool)
| time_event_delete (id : Z)
| time_fire_all.

(** The loop, the number of clock readings taken so far and the calls made
    through callback pointers so far. *)
Record world := mkWorld {
  w_poll : co_poll_t;
  w_tick : nat;
  w_trace : list invocation
}.

Definition set_w_poll (p : co_poll_t) (w : world) : world :=
  mkWorld p (w_tick w) (w_trace w).
Definition tick (w : world) : world :=
  mkWorld (w_poll w) (S (w_tick w)) (w_trace w).
Definition record_call (c : invocation) (w : world) : world :=
  mkWorld (w_poll w) (w_tick w) (w_trace w ++ [c]).
Definition set_w_timers (l : list coTimeEvent) (w : world) : world :=
  set_w_poll (set_timeEventHead l (w_poll w)) w.

(** Everything outside eco_ae.c: the clock ([gettimeofday n] and [time_null
    n] are the results of the [n]-th clock reading of the run), the backend
    poll (the list of (fd, mask) pairs it leaves in [fired], given the
    timeout [tvp]) and, for every callback address, the calls the callback
    makes on the loop and, for timer callbacks, the value it returns. *)
Record environment := mkEnvironment {
  gettimeofday : nat -> Z * Z;
  time_null : nat -> Z;
  aeApiPoll : nat -> co_poll_t -> option (Z * Z) -> list (Z * Z);
  fileProc_body : Z -> co_poll_t -> Z -> Z -> Z -> list action;
  timeProc_body : Z -> co_poll_t -> Z -> Z -> list action * Z;
  finalizerProc_body : Z -> co_poll_t -> Z -> list action
}.

Section Loop.

Variable E : environment.

(** One call of the public interface, made from a callback or from the
    embedding program. *)
Definition do_action (a : action) (w : world) : option world :=
  match a with
  | file_event_create fd mask proc cd ok =>
      r ← eco_poll_file_event_create (w_poll w) fd mask proc cd ok;
      Some (set_w_poll (fst r) w)
  | file_event_update fd mask proc cd ok =>
      r ← eco_poll_file_event_update (w_poll w) fd mask proc cd ok;
      Some (set_w_poll (fst r) w)
  | file_event_delete fd mask =>
      p ← eco_poll_file_event_delete (w_poll w) fd mask;
      Some (set_w_poll p w)
  | time_event_create ms proc cd fin ok =>
      let r := eco_poll_time_event_create (w_poll w)
                 (gettimeofday E (w_tick w)) ms proc cd fin ok in
      Some (set_w_poll (fst r) (if ok then tick w else w))
  | time_event_delete id =>
      Some (set_w_poll (fst (eco_poll_time_event_delete (w_poll w) id)) w)
  | time_fire_all =>
      Some (set_w_poll
              (eco_poll_time_fire_all (w_poll w) (gettimeofday E (w_tick w)))
              (tick w))
  end.

Fixpoint run_actions (s : list action) (w : world) : option world :=
  match s with
  | [] => Some w
  | a :: s' => w1 ← do_action a w; run_actions s' w1
  end.

(** [proc(poll, fd, clientData, mask)] for a file callback. *)
Definition call_file (w : world) (proc fd clientData mask : Z)
  : option world :=
  run_actions (fileProc_body E proc (w_poll w) fd clientData mask)
              (record_call (CallFile proc fd clientData mask) w).

(** [proc(poll, id, clientData)] for a timer callback, with its result. *)
Definition call_time (w : world) (proc id clientData : Z)
  : option (world * Z) :=
  let '(s, retval) := timeProc_body E proc (w_poll w) id clientData in
  w1 ← run_actions s (record_call (CallTime proc id clientData) w);
  Some (w1, retval).

(** [proc(poll, clientData)] for a finalizer. *)
Definition call_finalizer (w : world) (proc clientData : Z) : option world :=
  run_actions (finalizerProc_body E proc (w_poll w) clientData)
              (record_call (CallFinalizer proc clientData) w).

(** *** Dispatch of the fired descriptors *)

(** The body of the loop over [fired] (lines 433-449) for the entry
    [(fd, mask)].  [fe] is a pointer into the table: its fields are read
    again after the readable callback has run. *)
Definition dispatch_entry (w : world) (fd mask : Z) : option world :=
  fe ← slot (w_poll w) fd;
  r ← (if Z.land (Z.land (fe_mask fe) mask) ECO_POLL_READABLE =? 0
       then Some (w, false)
       else if fe_rfileProc fe =? NULL then Some (w, true)
       else w1 ← call_file w (fe_rfileProc fe) fd (fe_clientData fe) mask;
            Some (w1, true));
  let '(w1, rfired) := r in
  fe1 ← slot (w_poll w1) fd;
  if Z.land (Z.land (fe_mask fe1) mask) ECO_POLL_WRITABLE =? 0 then Some w1
  else if negb (fe_wfileProc fe1 =? NULL)
          && (negb rfired || negb (fe_wfileProc fe1 =? fe_rfileProc fe1))
  then call_file w1 (fe_wfileProc fe1) fd (fe_clientData fe1) mask
  else Some w1.

(** [for (j = 0; j < numevents; j++) { ...; processed++; }] *)
Fixpoint dispatch (fired : list (Z * Z)) (w : world) (processed : Z)
  : option (world * Z) :=
  match fired with
  | [] => Some (w, processed)
  | (fd, mask) :: rest =>
      w1 ← dispatch_entry w fd mask;
      dispatch rest w1 (processed + 1)
  end.

(** *** The timer sweep *)

(** The node that has [k - 1] nodes after it, with the nodes before and
    after it: the calls of the interface only add nodes at the head of the
    list or update nodes in place, so the node a pointer of the sweep refers
    to is found again by its distance to the end of the list. *)
Definition split_tail {A} (k : nat) (l : list A)
  : option (list A * A * list A) :=
  if (k <=? length l)%nat then
    match drop (length l - k)%nat l with
    | te :: suf => Some (take (length l - k)%nat l, te, suf)
    | [] => None
    end
  else None.

(** An assignment through the pointer [te] of the sweep. *)
Definition update_current (k : nat) (f : coTimeEvent -> coTimeEvent)
    (w : world) : option world :=
  '(pre, te, suf) ← split_tail k (timeEventHead (w_poll w));
  Some (set_w_timers (pre ++ f te :: suf) w).

(** The unlinking of [te]: [poll->timeEventHead = te->next] when [prev] is
    NULL, [prev->next = te->next] otherwise.  [pre] and [suf] are the nodes
    before and after [te]; [prev = Some g] is a node that lies [g + 1]
    places before [te]. *)
Definition unlink (prev : option nat) (pre suf : list coTimeEvent)
  : list coTimeEvent :=
  match prev with
  | None => suf
  | Some g => take (length pre - g)%nat pre ++ suf
  end.

(** The test of line 359: [now_sec > te->when_sec || (now_sec ==
    te->when_sec && now_ms >= te->when_ms)]. *)
Definition is_due (now : Z * Z) (te : coTimeEvent) : bool :=
  (fst now >? te_when_sec te)
  || ((fst now =? te_when_sec te) && (snd now >=? te_when_ms te)).

(** The call of the finalizer of an unlinked node, when it has one. *)
Definition finalize (te : coTimeEvent) (w : world) : option world :=
  if te_finalizerProc te =? NULL then Some w
  else call_finalizer w (te_finalizerProc te) (te_clientData te).

(** The rescheduling or the marking of the timer that fired (lines
    367-371), [retval] being what its callback returned. *)
Definition after_fire (k : nat) (retval : Z) (w : world) : option world :=
  if retval =? ECO_POLL_NOMORE
  then update_current k (set_te_id ECO_POLL_DELETED_EVENT_ID) w
  else
    let '(s, ms) :=
      aeAddMillisecondsToNow (gettimeofday E (w_tick w)) retval in
    update_current k (set_te_when s ms) (tick w).

(** The loop [while(te)] of [processTimeEvents] (lines 331-375).  [k] is the
    number of nodes from [te] to the end of the list ([0] when [te] is
    NULL); [prev] is [None] for NULL; [processed] is the counter. *)
Fixpoint sweep_loop (maxId : Z) (k : nat) (prev : option nat) (w : world)
    (processed : Z) : option (world * Z) :=
  match k with
  | O => Some (w, processed)
  | S k' =>
      '(pre, te, suf) ← split_tail (S k') (timeEventHead (w_poll w));
      if te_id te =? ECO_POLL_DELETED_EVENT_ID then
        w2 ← finalize te (set_w_timers (unlink prev pre suf) w);
        sweep_loop maxId k' (match prev with
                             | None => None
                             | Some _ => Some 0%nat
                             end) w2 processed
      else if te_id te >? maxId then
        sweep_loop maxId k' (match prev with
                             | None => None
                             | Some g => Some (S g)
                             end) w processed
      else
        let now := aeGetTime (gettimeofday E (w_tick w)) in
        let w0 := tick w in
        if is_due now te then
          if te_timeProc te =? NULL then None
          else
            r ← call_time w0 (te_timeProc te) (te_id te) (te_clientData te);
            w2 ← after_fire (S k') (snd r) (fst r);
            sweep_loop maxId k' (Some 0%nat) w2 (processed + 1)
        else sweep_loop maxId k' (Some 0%nat) w0 processed
  end.

(** The clock-regression guard of [processTimeEvents] (lines 319-326), [now]
    being the value of [time(NULL)]. *)
Definition clock_skew_guard (now : Z) (p : co_poll_t) : co_poll_t :=
  set_lastTime now
    (if now <? lastTime p
     then set_timeEventHead (map (set_te_when_sec 0) (timeEventHead p)) p
     else p).

(** [processTimeEvents]. *)
Definition processTimeEvents (w : world) : option (world * Z) :=
  let now := time_null E (w_tick w) in
  let p := clock_skew_guard now (w_poll w) in
  sweep_loop (timeEventNextId p - 1) (length (timeEventHead p)) None
             (set_w_poll p (tick w)) 0.

(** *** One iteration *)

(** The timeout handed to [aeApiPoll] (lines 396-429): [None] is the NULL
    [tvp] (wait forever), [Some (tv_sec, tv_usec)] otherwise.  [tv] is the
    clock reading taken when a nearest timer exists. *)
Definition poll_timeout (shortest : option coTimeEvent) (tv : Z * Z)
    (timeout : Z) : option (Z * Z) :=
  match shortest with
  | Some te =>
      let '(now_sec, now_ms) := aeGetTime tv in
      let sec := te_when_sec te - now_sec in
      let '(sec1, usec) :=
        if te_when_ms te <? now_ms
        then (sec - 1, ((te_when_ms te + 1000) - now_ms) * 1000)
        else (sec, (te_when_ms te - now_ms) * 1000) in
      Some (if sec1 <? 0 then 0 else sec1, if usec <? 0 then 0 else usec)
  | None =>
      if timeout >? 0
      then Some (Z.quot timeout 1000, Z.rem timeout 1000 * 1000)
      else if timeout =? 0 then Some (0, 0)
      else None
  end.

(** [eco_poll_process_events]. *)
Definition eco_poll_process_events (w : world) (flags timeout : Z)
  : option (world * Z) :=
  let want_time := negb (Z.land flags ECO_POLL_TIME_EVENTS =? 0) in
  let want_file := negb (Z.land flags ECO_POLL_FILE_EVENTS =? 0) in
  if negb want_time && negb want_file then Some (w, 0)
  else
    r ← (if negb (maxfd (w_poll w) =? -1)
            || (want_time && negb (timeout =? 0))
         then
           let shortest :=
             if want_time && negb (timeout =? 0)
             then aeSearchNearestTimer (w_poll w) else None in
           let tvp := poll_timeout shortest (gettimeofday E (w_tick w))
                                   timeout in
           let w0 := match shortest with Some _ => tick w | None => w end in
           dispatch (aeApiPoll E (w_tick w0) (w_poll w0) tvp) w0 0
         else Some (w, 0));
    let '(w1, processed) := r in
    if want_time then
      r2 ← processTimeEvents w1;
      Some (fst r2, processed + snd r2)
    else Some (w1, processed).

(** A call made by the embedding program: one call of the interface, or one
    iteration of the loop. *)
Inductive call :=
| Api (a : action)
| ProcessEvents (flags timeout : Z).

Definition do_call (c : call) (w : world) : option world :=
  match c with
  | Api a => do_action a w
  | ProcessEvents flags timeout =>
      r ← eco_poll_process_events w flags timeout; Some (fst r)
  end.

Fixpoint run_calls (cs : list call) (w : world) : option world :=
  match cs with
  | [] => Some w
  | c :: cs' => w1 ← do_call c w; run_calls cs' w1
  end.

End Loop.

(** ** The blocking wait on one descriptor *)

(** The event bits of <poll.h> that [eco_poll_wait] uses; their values
    belong to the system. *)
Record poll_bits := mkPollBits {
  POLLIN : Z;
  POLLOUT : Z;
  POLLERR : Z;
  POLLHUP : Z
}.

(** The [events] field [eco_poll_wait] hands to [poll] (lines 464-467). *)
Definition eco_poll_wait_events (B : poll_bits) (mask : Z) : Z :=
  let e1 := if Z.land mask ECO_POLL_READABLE =? 0 then 0
            else Z.lor 0 (POLLIN B) in
  if Z.land mask ECO_POLL_WRITABLE =? 0 then e1 else Z.lor e1 (POLLOUT B).

(** [eco_poll_wait] (the HAVE_POLL branch), [retval] and [revents] being
    what the call of [poll] returned and stored. *)
Definition eco_poll_wait (B : poll_bits) (retval revents : Z) : Z :=
  if retval =? 1 then
    let m1 := if Z.land revents (POLLIN B) =? 0 then 0
              else Z.lor 0 ECO_POLL_READABLE in
    let m2 := if Z.land revents (POLLOUT B) =? 0 then m1
              else Z.lor m1 ECO_POLL_WRITABLE in
    let m3 := if Z.land revents (POLLERR B) =? 0 then m2
              else Z.lor m2 ECO_POLL_WRITABLE in
    if Z.land revents (POLLHUP B) =? 0 then m3
    else Z.lor m3 ECO_POLL_WRITABLE
  else retval.

(** * Vocabulary of the statements *)

(** The two registration entry points. *)
Inductive entry_point := Create | Update.

Definition register (e : entry_point) :=
  match e with
  | Create => eco_poll_file_event_create
  | Update => eco_poll_file_event_update
  end.

(** [a] is due no later than [b]: the (seconds, milliseconds) deadline of
    [a] is lexicographically at most that of [b]. *)
Definition deadline_le (a b : coTimeEvent) : Prop :=
  te_when_sec a < te_when_sec b
  \/ (te_when_sec a = te_when_sec b /\ te_when_ms a <= te_when_ms b).

(** A timer with the given id and deadline. *)
Definition timer_at (id sec ms : Z) : coTimeEvent :=
  mkTimeEvent id sec ms 100 0 0.

(** The operations on the descriptor table, with the outcome of the backend
    call for a registration. *)
Inductive fd_op :=
| Register (e : entry_point) (fd mask proc clientData : Z) (api_ok : bool)
| Unregister (fd mask : Z).

Definition do_fd_op (o : fd_op) (p : co_poll_t) : option co_poll_t :=
  match o with
  | Register e fd mask proc cd ok =>
      r ← register e p fd mask proc cd ok; Some (fst r)
  | Unregister fd mask => eco_poll_file_event_delete p fd mask
  end.

Fixpoint run_fd_ops (ops : list fd_op) (p : co_poll_t) : option co_poll_t :=
  match ops with
  | [] => Some p
  | o :: ops' => p1 ← do_fd_op o p; run_fd_ops ops' p1
  end.

(** The linear-scan oracle for [maxfd]: the largest index of [ev], counted
    from [i], whose mask is not [ECO_POLL_NONE]; [best] when there is
    none. *)
Fixpoint max_watched_from (i : Z) (ev : list coFileEvent) (best : Z) : Z :=
  match ev with
  | [] => best
  | fe :: rest =>
      max_watched_from (i + 1) rest
        (if fe_mask fe =? ECO_POLL_NONE then best else i)
  end.

Definition max_watched (p : co_poll_t) : Z :=
  max_watched_from 0 (events p) (-1).

(** A registration that asks for some interest. *)
Definition asks_interest (o : fd_op) : Prop :=
  match o with
  | Register _ _ mask _ _ _ => mask <> ECO_POLL_NONE
  | Unregister _ _ => True
  end.

(** [maxfd] is the largest descriptor with a mask other than
    [ECO_POLL_NONE], or -1 when there is none. *)
Definition maxfd_exact (p : co_poll_t) : Prop :=
  (forall fd fe, slot p fd = Some fe -> fe_mask fe <> ECO_POLL_NONE ->
                 fd <= maxfd p)
  /\ (maxfd p = -1
      \/ exists fe, slot p (maxfd p) = Some fe
                    /\ fe_mask fe <> ECO_POLL_NONE).

(** What the table operations keep: the table has [setsize] slots and
    [maxfd] is exact. *)
Definition table_ok (p : co_poll_t) : Prop :=
  length (events p) = Z.to_nat (setsize p)
  /\ -1 <= maxfd p /\ maxfd_exact p.

(** ** Sample loops and environments *)

(** Freshly allocated memory that happens to be zero. *)
Definition zeroed (i : nat) : coFileEvent := mkFileEvent 0 0 0 0.

(** A loop of four slots that watches descriptors 1 and 2 for reading, with
    the callbacks 10 and 20. *)
Definition two_readers : co_poll_t :=
  mkPoll 2 4 0 0
    [mkFileEvent 0 0 0 0; mkFileEvent 1 10 0 0; mkFileEvent 1 20 0 0;
     mkFileEvent 0 0 0 0]
    [].

(** An environment whose backend reports descriptors 1 and 2 readable and
    in which the file callback 10 unregisters descriptor 2; the other
    callbacks do nothing, timer callbacks return [ECO_POLL_NOMORE]. *)
Definition unregistering_env : environment :=
  mkEnvironment
    (fun _ => (1, 0)) (fun _ => 1)
    (fun _ _ _ => [(1, ECO_POLL_READABLE); (2, ECO_POLL_READABLE)])
    (fun proc _ _ _ _ =>
       if proc =? 10 then [file_event_delete 2 ECO_POLL_READABLE] else [])
    (fun _ _ _ _ => ([], ECO_POLL_NOMORE))
    (fun _ _ _ => []).

(** ** Counting calls *)

Definition is_time_call (c : invocation) : bool :=
  match c with CallTime _ _ _ => true | _ => false end.

(** The number of timer callbacks called in a trace. *)
Definition timer_callbacks (t : list invocation) : Z :=
  Z.of_nat (length (List.filter is_time_call t)).

(** The number of all callbacks called in a trace. *)
Definition callbacks (t : list invocation) : Z := Z.of_nat (length t).

(** The entries the backend poll reports in a call of
    [eco_poll_process_events]: none when the call does not poll. *)
Definition reported_entries (E : environment) (w : world) (flags timeout : Z)
  : list (Z * Z) :=
  let want_time := negb (Z.land flags ECO_POLL_TIME_EVENTS =? 0) in
  let want_file := negb (Z.land flags ECO_POLL_FILE_EVENTS =? 0) in
  if negb want_time && negb want_file then []
  else if negb (maxfd (w_poll w) =? -1) || (want_time && negb (timeout =? 0))
  then
    let shortest :=
      if want_time && negb (timeout =? 0)
      then aeSearchNearestTimer (w_poll w) else None in
    let w0 := match shortest with Some _ => tick w | None => w end in
    aeApiPoll E (w_tick w0) (w_poll w0)
      (poll_timeout shortest (gettimeofday E (w_tick w)) timeout)
  else [].

(** A loop of four slots that watches descriptor 1 in both directions, with
    the readable callback 10 and the writable callback 11, and holds the
    timers of the list [l]. *)
Definition both_directions (l : list coTimeEvent) : co_poll_t :=
  mkPoll 1 4 (Z.of_nat (length l)) 0
    [mkFileEvent 0 0 0 0; mkFileEvent 3 10 11 0; mkFileEvent 0 0 0 0;
     mkFileEvent 0 0 0 0]
    l.

(** An environment whose clock stands at one second, whose backend reports
    descriptor 1 readable and writable and whose callbacks call nothing;
    timer callbacks return [ECO_POLL_NOMORE]. *)
Definition quiet_env : environment :=
  mkEnvironment
    (fun _ => (1, 0)) (fun _ => 1)
    (fun _ _ _ => [(1, Z.lor ECO_POLL_READABLE ECO_POLL_WRITABLE)])
    (fun _ _ _ _ _ => [])
    (fun _ _ _ _ => ([], ECO_POLL_NOMORE))
    (fun _ _ _ => []).

(** ** Timers that fire *)

(** A node that is not marked deleted. *)
Definition is_live (te : coTimeEvent) : bool :=
  negb (te_id te =? ECO_POLL_DELETED_EVENT_ID).

(** The call the sweep makes when the timer [te] fires. *)
Definition fire_call (te : coTimeEvent) : invocation :=
  CallTime (te_timeProc te) (te_id te) (te_clientData te).

(** The calls of timer callbacks in a trace, in order. *)
Definition time_calls (t : list invocation) : list invocation :=
  List.filter is_time_call t.

(** A call of the interface that leaves the timers already in the list as
    they are: it neither cancels a timer nor forces the deadlines. *)
Definition keeps_timers (a : action) : Prop :=
  match a with
  | time_event_delete _ | time_fire_all => False
  | _ => True
  end.

(** The timer callbacks and the finalizers of [E] leave the timers already
    in the list as they are. *)
Definition timers_passive (E : environment) : Prop :=
  (forall proc p id cd,
      Forall keeps_timers (fst (timeProc_body E proc p id cd)))
  /\ (forall proc p cd, Forall keeps_timers (finalizerProc_body E proc p cd)).

(** The state of a sweep over the list [L0] that started with the timer
    calls [T0] in the trace, when [k] nodes are still to be visited: the
    nodes to visit are the last [k] of [L0], untouched, and every live node
    before them has fired, in order. *)
Definition sweep_progress (L0 : list coTimeEvent) (T0 : list invocation)
    (k : nat) (x : world) (m : Z) : Prop :=
  exists pre done todo,
    L0 = done ++ todo /\ length todo = k
    /\ timeEventHead (w_poll x) = pre ++ todo
    /\ time_calls (w_trace x)
       = T0 ++ map fire_call (List.filter is_live done)
    /\ m = Z.of_nat (length (List.filter is_live done)).

(** An environment like [quiet_env] whose clock went back: the last sweep
    saw the second 5, the clock now shows the second 1. *)
Definition late_timers : co_poll_t :=
  mkPoll (-1) 4 3 5
    [mkFileEvent 0 0 0 0; mkFileEvent 0 0 0 0; mkFileEvent 0 0 0 0;
     mkFileEvent 0 0 0 0]
    [timer_at 2 900 0; mkTimeEvent ECO_POLL_DELETED_EVENT_ID 7 0 100 0 0;
     timer_at 0 800 500].

(** ** Cancelled timers *)

(** The node carries the finalizer [f] and the client data [c]. *)
Definition has_pair (f c : Z) (te : coTimeEvent) : bool :=
  (te_finalizerProc te =? f) && (te_clientData te =? c).

(** The call is the timer callback of the timer [i]. *)
Definition is_fire_of (i : Z) (c : invocation) : bool :=
  match c with CallTime _ id _ => id =? i | _ => false end.

(** The call is the finalizer [f] on the client data [c]. *)
Definition is_finalize_of (f c : Z) (x : invocation) : bool :=
  match x with CallFinalizer p d => (p =? f) && (d =? c) | _ => false end.

(** How often the timer [i] fired in a trace. *)
Definition fired_count (i : Z) (t : list invocation) : Z :=
  Z.of_nat (length (List.filter (is_fire_of i) t)).

(** How often the finalizer [f] ran on the client data [c] in a trace. *)
Definition finalized_count (f c : Z) (t : list invocation) : Z :=
  Z.of_nat (length (List.filter (is_finalize_of f c) t)).

(** The call creates a timer with the finalizer [f] and the client data
    [c]. *)
Definition creates_pair (f c : Z) (a : action) : Prop :=
  match a with
  | time_event_create _ _ cd fin _ => fin = f /\ cd = c
  | _ => False
  end.

(** No callback of [E] creates a timer with the finalizer [f] and the
    client data [c]. *)
Definition env_avoids (f c : Z) (E : environment) : Prop :=
  (forall proc p fd cd m,
      Forall (fun a => ~ creates_pair f c a) (fileProc_body E proc p fd cd m))
  /\ (forall proc p id cd,
        Forall (fun a => ~ creates_pair f c a)
               (fst (timeProc_body E proc p id cd)))
  /\ (forall proc p cd,
        Forall (fun a => ~ creates_pair f c a)
               (finalizerProc_body E proc p cd)).

(** Nor does the embedding program, in the calls [cs]. *)
Definition calls_avoid (f c : Z) (cs : list call) : Prop :=
  Forall (fun x => match x with
                   | Api a => ~ creates_pair f c a
                   | ProcessEvents _ _ => True
                   end) cs.

(** The call runs a timer sweep. *)
Definition sweeps (x : call) : bool :=
  match x with
  | Api _ => false
  | ProcessEvents flags _ => negb (Z.land flags ECO_POLL_TIME_EVENTS =? 0)
  end.

(** The ids of the nodes that are not marked deleted lie in [0, bound) and
    decrease strictly along the list: ids are issued in increasing order and
    nodes are added at the head. *)
Fixpoint ids_below (bound : Z) (l : list coTimeEvent) : Prop :=
  match l with
  | [] => True
  | te :: rest =>
      if te_id te =? ECO_POLL_DELETED_EVENT_ID then ids_below bound rest
      else 0 <= te_id te < bound /\ ids_below (te_id te) rest
  end.

(** What a call of the interface, or an assignment of the sweep, may do to a
    node: the callbacks and the client data stay, the id stays or becomes
    the sentinel. *)
Definition node_update (a b : coTimeEvent) : Prop :=
  te_timeProc b = te_timeProc a
  /\ te_finalizerProc b = te_finalizerProc a
  /\ te_clientData b = te_clientData a
  /\ (te_id b = te_id a \/ te_id b = ECO_POLL_DELETED_EVENT_ID).

(** Exactly one node of [l] carries the pair [(f, c)]; it is marked deleted
    and is among the last [k] nodes. *)
Definition pending (f c : Z) (k : nat) (l : list coTimeEvent) : Prop :=
  exists l1 d l2,
    l = l1 ++ d :: l2 /\ (length l2 < k)%nat
    /\ has_pair f c d = true /\ te_id d = ECO_POLL_DELETED_EVENT_ID
    /\ Forall (fun te => has_pair f c te = false) l1
    /\ Forall (fun te => has_pair f c te = false) l2.

(** No node of [l] carries the pair [(f, c)]. *)
Definition swept (f c : Z) (l : list coTimeEvent) : Prop :=
  Forall (fun te => has_pair f c te = false) l.

(** No node has the id [i], which was issued, and the timer [i] fired [t0]
    times so far. *)
Definition cancelled (i t0 : Z) (w : world) : Prop :=
  0 <= i < timeEventNextId (w_poll w)
  /\ Forall (fun te => te_id te <> i) (timeEventHead (w_poll w))
  /\ fired_count i (w_trace w) = t0.

(** The two phases after the cancellation of the timer [i] that carries the
    pair [(f, c)]: its node waits for the sweep, the finalizer having run
    [c0] times so far; or the node is gone and the finalizer, when there is
    one, has run once more. *)
Definition cancel_pending (f c i t0 c0 : Z) (k : nat) (w : world) : Prop :=
  cancelled i t0 w
  /\ pending f c k (timeEventHead (w_poll w))
  /\ finalized_count f c (w_trace w) = c0.

Definition cancel_swept (f c i t0 c0 : Z) (w : world) : Prop :=
  cancelled i t0 w
  /\ swept f c (timeEventHead (w_poll w))
  /\ finalized_count f c (w_trace w)
     = c0 + (if f =? NULL then 0 else 1).

(** One of the two phases, [k] nodes of the sweep being still to visit. *)
Definition cancel_phase (f c i t0 c0 : Z) (k : nat) (w : world) : Prop :=
  cancel_pending f c i t0 c0 k w \/ cancel_swept f c i t0 c0 w.

(** Some call of [cs] runs a timer sweep. *)
Definition has_sweep (cs : list call) : bool := existsb sweeps cs.

(** A loop with three timers, of which the timer 1 has the finalizer 200
    and the client data 7. *)
Definition three_timers : co_poll_t :=
  mkPoll (-1) 4 3 0
    [mkFileEvent 0 0 0 0; mkFileEvent 0 0 0 0; mkFileEvent 0 0 0 0;
     mkFileEvent 0 0 0 0]
    [timer_at 2 900 0; mkTimeEvent 1 0 0 100 200 7; timer_at 0 800 500].

(** A registration followed by two iterations that sweep the timers. *)
Definition two_sweeps : list call :=
  [Api (file_event_create 1 ECO_POLL_READABLE 10 0 true);
   ProcessEvents ECO_POLL_TIME_EVENTS 0;
   ProcessEvents ECO_POLL_TIME_EVENTS 0].

(** The ids in the timer list are as the creations issue them. *)
Definition ids_issued (w : world) : Prop :=
  0 <= timeEventNextId (w_poll w)
  /\ ids_below (timeEventNextId (w_poll w)) (timeEventHead (w_poll w)).

(** ** The descriptor table along a run *)

(** The table has [setsize] slots, [maxfd] is -1 or the index of a slot,
    and no slot above [maxfd] is watched. *)
Definition table_bounded (p : co_poll_t) : Prop :=
  length (events p) = Z.to_nat (setsize p)
  /\ (maxfd p = -1 \/ 0 <= maxfd p < setsize p)
  /\ (forall fd fe, slot p fd = Some fe -> fe_mask fe <> ECO_POLL_NONE ->
                    fd <= maxfd p).

(** The operation names a descriptor outside the table. *)
Definition out_of_range (p : co_poll_t) (o : fd_op) : Prop :=
  match o with
  | Register _ fd _ _ _ _ | Unregister fd _ => setsize p <= fd
  end.

(** ** Readings of the clock *)

(** The reading [a] of [aeGetTime] is not later than the reading [b]. *)
Definition reading_le (a b : Z * Z) : Prop :=
  fst a < fst b \/ (fst a = fst b /\ snd a <= snd b).

(** The ids of the timer calls in a trace. *)
Definition fired_ids (t : list invocation) : list Z :=
  omap (fun c => match c with CallTime _ id _ => Some id | _ => None end) t.

(** The state of a sweep that started with the trace [T0] over a list of [N]
    nodes, the counter of ids being [next]: the timers fired so far carry
    ids issued before the sweep, and there are no more of them than nodes
    visited. *)
Definition sweep_bounded (T0 : list invocation) (N : nat) (next : Z)
    (k : nat) (x : world) (m : Z) : Prop :=
  exists added,
    w_trace x = T0 ++ added
    /\ Forall (fun id => id < next /\ id <> ECO_POLL_DELETED_EVENT_ID)
              (fired_ids added)
    /\ m = Z.of_nat (length (fired_ids added))
    /\ m + Z.of_nat k <= Z.of_nat N.

(** An environment like [quiet_env] in which the finalizer 60 creates a
    timer. *)
Definition creating_env : environment :=
  mkEnvironment
    (fun _ => (1, 0)) (fun _ => 1)
    (fun _ _ _ => [])
    (fun _ _ _ _ _ => [])
    (fun _ _ _ _ => ([], ECO_POLL_NOMORE))
    (fun proc _ _ =>
       if proc =? 60 then [time_event_create 0 51 7 61 true] else []).

(** A loop whose first two timers are marked deleted, the first with the
    finalizer 60, the second with the finalizer 62. *)
Definition two_deleted : co_poll_t :=
  mkPoll (-1) 4 3 0
    [mkFileEvent 0 0 0 0; mkFileEvent 0 0 0 0; mkFileEvent 0 0 0 0;
     mkFileEvent 0 0 0 0]
    [mkTimeEvent ECO_POLL_DELETED_EVENT_ID 50 0 51 60 1;
     mkTimeEvent ECO_POLL_DELETED_EVENT_ID 50 0 51 62 1;
     timer_at 0 800 500].

(** An environment like [quiet_env] whose timer callbacks ask to be called
    again after 250 milliseconds. *)
Definition rearming_env : environment :=
  mkEnvironment
    (fun _ => (1, 0)) (fun _ => 1)
    (fun _ _ _ => [])
    (fun _ _ _ _ _ => [])
    (fun _ _ _ _ => ([], 250))
    (fun _ _ _ => []).

(** Three timers created on a loop, five seconds ahead: timer 0 without a
    finalizer, timer 1 with the finalizer 62 and timer 2, the head of the
    list, with the finalizer 60; then the timers 2 and 1 are cancelled. *)
Definition cancel_two_of_three : list call :=
  [Api (time_event_create 5000 51 0 0 true);
   Api (time_event_create 5000 51 1 62 true);
   Api (time_event_create 5000 51 1 60 true);
   Api (time_event_delete 2);
   Api (time_event_delete 1)].

(** * Properties *)

(** ** Registration of descriptors *)

Lemma slot_Some_range (p : co_poll_t) fd fe :
  slot p fd = Some fe -> 0 <= fd /\ (Z.to_nat fd < length (events p))%nat.
Proof.
  unfold slot. destruct (Z.ltb_spec fd 0); [discriminate|].
  intros H'. split; [assumption|]. eapply lookup_lt_Some; eassumption.
Qed.

Lemma slot_set_slot_eq (p : co_poll_t) fd fe fe' :
  slot p fd = Some fe -> slot (set_slot fd fe' p) fd = Some fe'.
Proof.
  intros H. destruct (slot_Some_range _ _ _ H) as [H0 Hlt].
  unfold slot, set_slot in *; simpl.
  destruct (Z.ltb_spec fd 0); [lia|].
  by apply list_lookup_insert_eq.
Qed.

Lemma slot_set_slot_ne (p : co_poll_t) fd fd' fe' :
  0 <= fd -> fd <> fd' -> slot (set_slot fd fe' p) fd' = slot p fd'.
Proof.
  intros H0 Hne. unfold slot, set_slot; simpl.
  destruct (Z.ltb_spec fd' 0); [reflexivity|].
  apply list_lookup_insert_ne. lia.
Qed.

Lemma slot_set_maxfd (p : co_poll_t) m fd :
  slot (set_maxfd m p) fd = slot p fd.
Proof. reflexivity. Qed.

Lemma register_failure (e : entry_point) (p : co_poll_t) fd mask proc cd fe :
  slot p fd = Some fe ->
  register e p fd mask proc cd false = Some (p, ES_FAILURE).
Proof.
  intros H. destruct e; simpl;
    unfold eco_poll_file_event_create, eco_poll_file_event_update;
    destruct (fd >=? setsize p); try reflexivity; rewrite H; reflexivity.
Qed.

Lemma register_success (e : entry_point) (p : co_poll_t) fd mask proc cd fe :
  fd < setsize p -> slot p fd = Some fe ->
  register e p fd mask proc cd true
  = Some (install_file_event p fd mask proc cd fe, ES_SUCCESS).
Proof.
  intros Hlt H. destruct e; simpl;
    unfold eco_poll_file_event_create, eco_poll_file_event_update;
    (destruct (Z.geb_spec fd (setsize p)); [lia|]); rewrite H; reflexivity.
Qed.

Lemma install_file_event_slot (p : co_poll_t) fd mask proc cd fe :
  slot p fd = Some fe ->
  exists fe', slot (install_file_event p fd mask proc cd fe) fd = Some fe'
              /\ fe_mask fe' = Z.lor (fe_mask fe) mask.
Proof.
  intros H. unfold install_file_event.
  eexists. split.
  - match goal with |- context [if ?b then _ else _] =>
      destruct b end; rewrite ?slot_set_maxfd;
      eapply slot_set_slot_eq; eassumption.
  - simpl. destruct (Z.land mask ECO_POLL_READABLE =? 0),
      (Z.land mask ECO_POLL_WRITABLE =? 0); reflexivity.
Qed.

Lemma install_file_event_setsize (p : co_poll_t) fd mask proc cd fe :
  setsize (install_file_event p fd mask proc cd fe) = setsize p.
Proof.
  unfold install_file_event.
  match goal with |- context [if ?b then _ else _] => destruct b end;
    reflexivity.
Qed.

(** C5.  When the backend rejects the add or modify request, both
    [eco_poll_file_event_create] and [eco_poll_file_event_update] return
    [ES_FAILURE] and hand back the loop they were given: the slot of [fd]
    (mask, both callbacks, client data) and [maxfd] are as before the
    call. *)
Theorem backend_failure_leaves_loop (e : entry_point) (p : co_poll_t)
    (fd mask proc clientData : Z) (fe : coFileEvent) :
  slot p fd = Some fe ->
  exists p',
    register e p fd mask proc clientData false = Some (p', ES_FAILURE)
    /\ slot p' fd = Some fe /\ maxfd p' = maxfd p /\ p' = p.
Proof.
  intros H. exists p. rewrite (register_failure e p fd mask proc clientData fe H).
  auto.
Qed.

(** On the loop that watches descriptors 1 and 2, a rejected request to
    watch descriptor 1 for writing leaves the loop as it is. *)
Lemma backend_failure_leaves_loop_witness :
  exists p',
    register Create two_readers 1 ECO_POLL_WRITABLE 30 5 false
    = Some (p', ES_FAILURE)
    /\ slot p' 1 = Some (mkFileEvent 1 10 0 0)
    /\ maxfd p' = maxfd two_readers /\ p' = two_readers.
Proof.
  apply (backend_failure_leaves_loop Create two_readers 1 ECO_POLL_WRITABLE
           30 5 (mkFileEvent 1 10 0 0)).
  reflexivity.
Defined.

(** C9.  Two successful registrations on [fd], through either entry point,
    with masks [R1] then [R2], leave the slot's mask equal to the previous
    mask ORed with [R1] and [R2]; for a slot without prior interest that is
    [R1 | R2]. *)
Theorem registration_accumulates (e1 e2 : entry_point) (p : co_poll_t)
    (fd R1 R2 proc1 cd1 proc2 cd2 : Z) (fe : coFileEvent) :
  fd < setsize p -> slot p fd = Some fe ->
  exists p1 p2 fe2,
    register e1 p fd R1 proc1 cd1 true = Some (p1, ES_SUCCESS)
    /\ register e2 p1 fd R2 proc2 cd2 true = Some (p2, ES_SUCCESS)
    /\ slot p2 fd = Some fe2
    /\ fe_mask fe2 = Z.lor (Z.lor (fe_mask fe) R1) R2
    /\ (fe_mask fe = ECO_POLL_NONE -> fe_mask fe2 = Z.lor R1 R2).
Proof.
  intros Hlt H.
  destruct (install_file_event_slot p fd R1 proc1 cd1 fe H) as (fe1 & H1 & M1).
  set (p1 := install_file_event p fd R1 proc1 cd1 fe) in *.
  destruct (install_file_event_slot p1 fd R2 proc2 cd2 fe1 H1) as (fe2 & H2 & M2).
  exists p1, (install_file_event p1 fd R2 proc2 cd2 fe1), fe2.
  split; [by apply register_success|].
  split.
  { apply register_success; [|assumption].
    subst p1. by rewrite install_file_event_setsize. }
  split; [assumption|].
  rewrite M2, M1. split; [reflexivity|].
  intros ->. reflexivity.
Qed.

(** Descriptor 3 of the loop that watches descriptors 1 and 2, registered
    for reading and then updated for writing, ends with both bits. *)
Lemma registration_accumulates_witness :
  exists p1 p2 fe2,
    register Create two_readers 3 ECO_POLL_READABLE 30 5 true
    = Some (p1, ES_SUCCESS)
    /\ register Update p1 3 ECO_POLL_WRITABLE 31 6 true
       = Some (p2, ES_SUCCESS)
    /\ slot p2 3 = Some fe2
    /\ fe_mask fe2
       = Z.lor (Z.lor (fe_mask (mkFileEvent 0 0 0 0)) ECO_POLL_READABLE)
               ECO_POLL_WRITABLE
    /\ (fe_mask (mkFileEvent 0 0 0 0) = ECO_POLL_NONE ->
        fe_mask fe2 = Z.lor ECO_POLL_READABLE ECO_POLL_WRITABLE).
Proof.
  apply (registration_accumulates Create Update two_readers 3
           ECO_POLL_READABLE ECO_POLL_WRITABLE 30 5 31 6
           (mkFileEvent 0 0 0 0)); reflexivity.
Defined.

(** ** The nearest deadline *)

Lemma deadline_le_refl a : deadline_le a a.
Proof. unfold deadline_le. lia. Qed.

Lemma deadline_le_trans a b c :
  deadline_le a b -> deadline_le b c -> deadline_le a c.
Proof. unfold deadline_le. lia. Qed.

Lemma search_nearest_spec (l : list coTimeEvent) (n : coTimeEvent) :
  exists r, search_nearest l (Some n) = Some r
            /\ In r (n :: l)
            /\ deadline_le r n
            /\ (forall t, In t l -> deadline_le r t).
Proof.
  revert n. induction l as [|te l IH]; intros n.
  - exists n. simpl. repeat split; auto using deadline_le_refl.
    intros t [].
  - simpl.
    destruct ((te_when_sec te <? te_when_sec n)
              || ((te_when_sec te =? te_when_sec n)
                  && (te_when_ms te <? te_when_ms n))) eqn:Hc.
    + destruct (IH te) as (r & Hr & Hin & Hle & Hall).
      assert (Hten : deadline_le te n).
      { unfold deadline_le.
        apply orb_true_iff in Hc as [Hc|Hc]; [lia|].
        apply andb_true_iff in Hc as [Hc1 Hc2]. lia. }
      exists r. split; [assumption|].
      split; [simpl in *; tauto|].
      split; [eauto using deadline_le_trans|].
      intros t [<-|Ht]; auto.
    + destruct (IH n) as (r & Hr & Hin & Hle & Hall).
      assert (Hnte : deadline_le n te).
      { unfold deadline_le.
        apply orb_false_iff in Hc as [Hc1 Hc2].
        apply andb_false_iff in Hc2. lia. }
      exists r. split; [assumption|].
      split; [simpl in *; tauto|].
      split; [assumption|].
      intros t [<-|Ht]; eauto using deadline_le_trans.
Qed.

(** C8.  On a non-empty timer list [aeSearchNearestTimer] returns a node of
    the list whose (seconds, milliseconds) deadline is lexicographically
    minimal over all nodes, whatever their ids (nodes marked deleted
    included); it returns none exactly when the list is empty; and over
    timers with deadlines (2,500), (1,100), (3,0) it returns the (1,100)
    one. *)
Theorem nearest_timer_minimal (p : co_poll_t) :
  timeEventHead p <> [] ->
  (exists r, aeSearchNearestTimer p = Some r
             /\ In r (timeEventHead p)
             /\ forall t, In t (timeEventHead p) -> deadline_le r t)
  /\ (forall q, aeSearchNearestTimer q = None <-> timeEventHead q = [])
  /\ (forall q i1 i2 i3,
        timeEventHead q
        = [timer_at i1 2 500; timer_at i2 1 100; timer_at i3 3 0] ->
        aeSearchNearestTimer q = Some (timer_at i2 1 100)).
Proof.
  intros Hne. split; [|split].
  - unfold aeSearchNearestTimer.
    destruct (timeEventHead p) as [|te l]; [congruence|]. simpl.
    destruct (search_nearest_spec l te) as (r & Hr & Hin & Hle & Hall).
    exists r. split; [assumption|]. split; [assumption|].
    intros t [<-|Ht]; auto.
  - intros q. unfold aeSearchNearestTimer.
    destruct (timeEventHead q) as [|te l]; simpl; [tauto|].
    destruct (search_nearest_spec l te) as (r & Hr & _).
    rewrite Hr. split; discriminate.
  - intros q i1 i2 i3 Hq. unfold aeSearchNearestTimer. rewrite Hq.
    reflexivity.
Qed.

(** The three timers (2,500), (1,100), (3,0), held by a loop. *)
Lemma nearest_timer_minimal_witness :
  (exists r,
      aeSearchNearestTimer
        (both_directions [timer_at 0 2 500; timer_at 1 1 100; timer_at 2 3 0])
      = Some r
      /\ In r [timer_at 0 2 500; timer_at 1 1 100; timer_at 2 3 0]
      /\ forall t, In t [timer_at 0 2 500; timer_at 1 1 100; timer_at 2 3 0] ->
                   deadline_le r t)
  /\ (forall q, aeSearchNearestTimer q = None <-> timeEventHead q = [])
  /\ (forall q i1 i2 i3,
        timeEventHead q
        = [timer_at i1 2 500; timer_at i2 1 100; timer_at i3 3 0] ->
        aeSearchNearestTimer q = Some (timer_at i2 1 100)).
Proof.
  apply (nearest_timer_minimal
           (both_directions
              [timer_at 0 2 500; timer_at 1 1 100; timer_at 2 3 0])).
  simpl. discriminate.
Defined.

(** ** The highest watched descriptor *)

Lemma max_watched_from_spec (ev : list coFileEvent) (i best : Z) :
  let m := max_watched_from i ev best in
  (m = best /\ forall k fe, ev !! k = Some fe -> fe_mask fe = ECO_POLL_NONE)
  \/ (exists k fe, m = i + Z.of_nat k /\ ev !! k = Some fe
                   /\ fe_mask fe <> ECO_POLL_NONE
                   /\ forall k' fe', (k < k')%nat -> ev !! k' = Some fe' ->
                                     fe_mask fe' = ECO_POLL_NONE).
Proof.
  revert i best. induction ev as [|fe ev IH]; intros i best; simpl.
  - left. split; [reflexivity|]. intros k fe H. by destruct k.
  - destruct (IH (i + 1)
                 (if fe_mask fe =? ECO_POLL_NONE then best else i))
      as [[Hm Hall]|(k & fe0 & Hm & Hk & Hne & Hlater)].
    + rewrite Hm. destruct (Z.eqb_spec (fe_mask fe) ECO_POLL_NONE) as [He|He].
      * left. split; [reflexivity|].
        intros [|k] fe' H; simpl in H; [congruence|eauto].
      * right. exists 0%nat, fe. split; [lia|]. split; [reflexivity|].
        split; [assumption|].
        intros [|k'] fe' Hlt H; [lia|]. simpl in H. eauto.
    + right. exists (S k), fe0. split; [lia|]. split; [assumption|].
      split; [assumption|].
      intros [|k'] fe' Hlt H; [lia|]. simpl in H.
      eapply Hlater; [|eassumption]. lia.
Qed.

Lemma maxfd_exact_max_watched (p : co_poll_t) :
  -1 <= maxfd p -> maxfd_exact p -> maxfd p = max_watched p.
Proof.
  intros Hge [Hub Hwit]. unfold max_watched.
  destruct (max_watched_from_spec (events p) 0 (-1))
    as [[Hm Hall]|(k & fe & Hm & Hk & Hne & Hlater)].
  - rewrite Hm. destruct Hwit as [|(fe & Hs & Hne)]; [assumption|].
    exfalso. apply Hne. unfold slot in Hs.
    destruct (maxfd p <? 0); [discriminate|]. eauto.
  - rewrite Hm. simpl.
    assert (Hsk : slot p (Z.of_nat k) = Some fe).
    { unfold slot. destruct (Z.ltb_spec (Z.of_nat k) 0); [lia|].
      by rewrite Nat2Z.id. }
    pose proof (Hub _ _ Hsk Hne) as Hle.
    destruct Hwit as [Hm1|(fe' & Hs & Hne')]; [lia|].
    destruct (Z.eq_dec (maxfd p) (Z.of_nat k)) as [|Hd]; [assumption|].
    exfalso. apply Hne'. unfold slot in Hs.
    destruct (Z.ltb_spec (maxfd p) 0); [discriminate|].
    eapply (Hlater (Z.to_nat (maxfd p))); [lia|eassumption].
Qed.

Lemma scan_maxfd_spec (ev : list coFileEvent) (n : nat) :
  (n <= length ev)%nat ->
  exists j, scan_maxfd ev n = Some j /\ -1 <= j < Z.of_nat n
    /\ (j = -1 \/ 0 <= j /\ exists fe, ev !! Z.to_nat j = Some fe
                                        /\ fe_mask fe <> ECO_POLL_NONE)
    /\ (forall i fe, j < Z.of_nat i < Z.of_nat n -> ev !! i = Some fe ->
                     fe_mask fe = ECO_POLL_NONE).
Proof.
  induction n as [|n IH]; intros Hn; simpl.
  - exists (-1). split; [reflexivity|]. split; [lia|]. split; [by left|].
    intros; lia.
  - destruct (lookup_lt_is_Some_2 ev n) as [fe Hfe]; [lia|]. rewrite Hfe.
    simpl. destruct (Z.eqb_spec (fe_mask fe) ECO_POLL_NONE) as [He|He].
    + destruct IH as (j & Hj & Hr & Hw & Hall); [lia|].
      exists j. split; [assumption|]. split; [lia|]. split; [assumption|].
      intros i fe' Hi Hl.
      destruct (Nat.eq_dec i n) as [->|]; [congruence|].
      eapply Hall; [|eassumption]. lia.
    + exists (Z.of_nat n). split; [reflexivity|]. split; [lia|].
      split; [right; split; [lia|]; exists fe; by rewrite Nat2Z.id|].
      intros; lia.
Qed.

Lemma install_file_event_table_ok (p : co_poll_t) fd mask proc cd fe :
  mask <> ECO_POLL_NONE -> slot p fd = Some fe -> table_ok p ->
  table_ok (install_file_event p fd mask proc cd fe).
Proof.
  intros Hmask Hs (Hlen & Hge & Hub & Hwit).
  destruct (slot_Some_range _ _ _ Hs) as [H0 Hlt].
  destruct (install_file_event_slot p fd mask proc cd fe Hs) as (fe' & Hs' & Hm').
  assert (Hne' : fe_mask fe' <> ECO_POLL_NONE).
  { rewrite Hm'. unfold ECO_POLL_NONE in *. intros Hz.
    apply Z.lor_eq_0_iff in Hz. tauto. }
  assert (Hother : forall fd', fd' <> fd ->
            slot (install_file_event p fd mask proc cd fe) fd' = slot p fd').
  { intros fd' Hd. unfold install_file_event.
    match goal with |- context [if ?b then _ else _] => destruct b end;
      rewrite ?slot_set_maxfd; apply slot_set_slot_ne; auto. }
  assert (Hmax : maxfd (install_file_event p fd mask proc cd fe)
                 = Z.max fd (maxfd p)).
  { unfold install_file_event. simpl.
    destruct (Z.gtb_spec fd (maxfd p)); simpl; lia. }
  split; [|split; [|split]].
  - unfold install_file_event.
    match goal with |- context [if ?b then _ else _] => destruct b end;
      simpl; by rewrite length_insert.
  - lia.
  - intros fd' fe0 Hs0 Hne0. rewrite Hmax.
    destruct (Z.eq_dec fd' fd) as [->|Hd]; [lia|].
    rewrite Hother in Hs0 by assumption.
    pose proof (Hub _ _ Hs0 Hne0). lia.
  - right. rewrite Hmax.
    destruct (Z.max_spec fd (maxfd p)) as [[Hlt' ->]|[Hle ->]].
    + destruct Hwit as [Hm1|(fe0 & Hs0 & Hne0)]; [lia|].
      exists fe0. rewrite Hother by lia. auto.
    + exists fe'. auto.
Qed.

Lemma file_event_delete_table_ok (p p' : co_poll_t) fd mask :
  table_ok p -> eco_poll_file_event_delete p fd mask = Some p' ->
  table_ok p'.
Proof.
  intros (Hlen & Hge & Hub & Hwit) Hd. unfold eco_poll_file_event_delete in Hd.
  destruct (Z.geb_spec fd (setsize p)) as [Hbig|Hlt];
    [injection Hd as <-; by repeat split|].
  destruct (slot p fd) as [fe|] eqn:Hs; [simpl in Hd|discriminate].
  destruct (Z.eqb_spec (fe_mask fe) ECO_POLL_NONE) as [Hnone|Hsome];
    [injection Hd as <-; by repeat split|].
  destruct (slot_Some_range _ _ _ Hs) as [H0 Hin].
  set (m := Z.land (fe_mask fe) (Z.lnot mask)) in *.
  set (p1 := set_slot fd (set_fe_mask m fe) p) in *.
  assert (Hs1 : slot p1 fd = Some (set_fe_mask m fe))
    by (eapply slot_set_slot_eq; eassumption).
  assert (Hother : forall fd', fd' <> fd -> slot p1 fd' = slot p fd')
    by (intros; apply slot_set_slot_ne; auto).
  assert (Hlen1 : length (events p1) = Z.to_nat (setsize p))
    by (subst p1; simpl; by rewrite length_insert).
  assert (Hfdle : fd <= maxfd p) by eauto.
  destruct ((fd =? maxfd p) && (m =? ECO_POLL_NONE)) eqn:Hc.
  - apply andb_true_iff in Hc as [Hc1 Hc2].
    apply Z.eqb_eq in Hc1, Hc2.
    destruct (scan_maxfd_spec (events p1) (Z.to_nat (maxfd p)))
      as (j & Hj & Hr & Hw & Hall); [lia|].
    change (events p1) with (<[Z.to_nat fd:=set_fe_mask m fe]> (events p))
      in Hj.
    rewrite Hj in Hd. simpl in Hd. injection Hd as <-.
    split; [assumption|]. split; [simpl; lia|].
    split; change (maxfd (set_maxfd j p1)) with j.
    + intros fd' fe' Hs' Hne'. rewrite slot_set_maxfd in Hs'.
      destruct (Z.eq_dec fd' fd) as [->|Hdiff].
      { rewrite Hs1 in Hs'. injection Hs' as <-. simpl in Hne'. congruence. }
      pose proof Hs' as Hs''. rewrite Hother in Hs'' by assumption.
      pose proof (Hub _ _ Hs'' Hne') as Hle.
      destruct (Z_le_gt_dec fd' j) as [|Hgt]; [assumption|]. exfalso.
      apply Hne'. destruct (slot_Some_range _ _ _ Hs') as [Hfd0 _].
      apply (Hall (Z.to_nat fd') fe'); [lia|].
      unfold slot in Hs'. destruct (Z.ltb_spec fd' 0); [lia|assumption].
    + destruct Hw as [->|(Hj0 & fe' & Hl & Hne')]; [by left|]. right.
      exists fe'. split; [|assumption]. rewrite slot_set_maxfd.
      unfold slot. destruct (Z.ltb_spec j 0); [lia|assumption].
  - injection Hd as <-.
    split; [assumption|]. split; [assumption|]. split.
    + intros fd' fe' Hs' Hne'. change (maxfd p1) with (maxfd p).
      destruct (Z.eq_dec fd' fd) as [->|Hdiff]; [assumption|].
      rewrite Hother in Hs' by assumption. eauto.
    + change (maxfd p1) with (maxfd p).
      destruct Hwit as [|(fe' & Hs' & Hne')]; [by left|]. right.
      destruct (Z.eq_dec (maxfd p) fd) as [Heq|Hdiff].
      * exists (set_fe_mask m fe). rewrite Heq. split; [assumption|].
        simpl. apply andb_false_iff in Hc as [Hc|Hc].
        -- apply Z.eqb_neq in Hc. congruence.
        -- by apply Z.eqb_neq in Hc.
      * exists fe'. rewrite Hother by assumption. auto.
Qed.

Lemma eco_poll_create_table_ok size raw now p :
  eco_poll_create size raw now true true = Some p -> table_ok p.
Proof.
  unfold eco_poll_create. simpl. intros [= <-].
  split; [simpl; by rewrite length_map, length_seq|].
  split; [simpl; lia|]. split; [|by left].
  intros fd fe Hs Hne. exfalso. apply Hne. unfold slot in Hs. simpl in Hs.
  destruct (fd <? 0); [discriminate|].
  rewrite list_lookup_fmap in Hs.
  destruct (seq 0 (Z.to_nat size) !! Z.to_nat fd); [|discriminate].
  simpl in Hs. injection Hs as <-. reflexivity.
Qed.

Lemma do_fd_op_table_ok (o : fd_op) (p p' : co_poll_t) :
  asks_interest o -> table_ok p -> do_fd_op o p = Some p' -> table_ok p'.
Proof.
  intros Hask Hok Hdo. destruct o as [e fd mask proc cd ok|fd mask]; simpl in *.
  - assert (Hreg : forall p0, register e p fd mask proc cd ok = Some p0 ->
                              table_ok (fst p0)).
    { intros p0. destruct e; simpl;
      unfold eco_poll_file_event_create, eco_poll_file_event_update;
      (destruct (fd >=? setsize p); [by intros [= <-]|]);
      (destruct (slot p fd) as [fe|] eqn:Hs; [simpl|discriminate]);
      (destruct ok; simpl; [|by intros [= <-]]);
      intros [= <-]; simpl; by apply install_file_event_table_ok. }
    destruct (register e p fd mask proc cd ok) as [p0|]; [|discriminate].
    simpl in Hdo. injection Hdo as <-. by apply Hreg.
  - eapply file_event_delete_table_ok; eassumption.
Qed.

(** The invariant of [maxfd] for registrations that ask for some interest:
    after any sequence of such registrations and of unregistrations on a
    freshly created loop, [maxfd] is what the linear scan returns. *)
Lemma maxfd_tracks_watched size raw now (ops : list fd_op) (p0 p : co_poll_t) :
  eco_poll_create size raw now true true = Some p0 ->
  Forall asks_interest ops ->
  run_fd_ops ops p0 = Some p ->
  maxfd p = max_watched p /\ maxfd_exact p.
Proof.
  intros Hc Hall Hrun.
  assert (Hok : table_ok p).
  { apply eco_poll_create_table_ok in Hc. clear size raw now.
    revert p0 Hc Hrun. induction Hall as [|o ops Ho Hall IH]; intros p0 Hc Hrun.
    - simpl in Hrun. by injection Hrun as <-.
    - simpl in Hrun. destruct (do_fd_op o p0) as [p1|] eqn:Hdo; [|discriminate].
      simpl in Hrun. eapply IH; [|eassumption].
      eapply do_fd_op_table_ok; eassumption. }
  destruct Hok as (_ & Hge & Hex). split; [|assumption].
  by apply maxfd_exact_max_watched.
Qed.

(** C1.  A registration with the mask [ECO_POLL_NONE] on a fresh loop of
    eight slots succeeds and raises [maxfd] to the descriptor, here 3,
    although every slot still has the mask [ECO_POLL_NONE]: the linear scan
    returns -1 and [maxfd] is not exact. *)
Theorem maxfd_raised_by_empty_registration (raw : nat -> coFileEvent)
    (now : Z) :
  exists p0 p,
    eco_poll_create 8 raw now true true = Some p0
    /\ eco_poll_file_event_create p0 3 ECO_POLL_NONE 7 0 true
       = Some (p, ES_SUCCESS)
    /\ maxfd p = 3
    /\ max_watched p = -1
    /\ ~ maxfd_exact p.
Proof.
  eexists. eexists. split; [reflexivity|]. split; [reflexivity|].
  split; [reflexivity|]. split; [reflexivity|].
  intros [_ [Hm|(fe & Hs & Hne)]]; [discriminate Hm|].
  apply Hne. vm_compute in Hs. injection Hs as <-. reflexivity.
Qed.

(** ** Slots without interest *)

(** C6, as stated, fails: on a loop of four zeroed slots, registering
    descriptor 1 for reading with the callback 7 and unregistering it leaves
    the slot with the mask [ECO_POLL_NONE] and the readable callback 7 still
    installed. *)
Lemma unregistered_slot_keeps_callback :
  ((eco_poll_create 4 zeroed 0 true true
      ≫= run_fd_ops [Register Create 1 ECO_POLL_READABLE 7 9 true;
                     Unregister 1 ECO_POLL_READABLE])
     ≫= (fun p => slot p 1))
  = Some (mkFileEvent ECO_POLL_NONE 7 NULL 9)
  /\ 7 <> NULL.
Proof. split; [reflexivity|discriminate]. Qed.

Lemma file_event_delete_keeps_callbacks (p p' : co_poll_t) fd mask :
  eco_poll_file_event_delete p fd mask = Some p' ->
  forall fd' fe, slot p fd' = Some fe ->
    exists fe', slot p' fd' = Some fe'
                /\ fe_rfileProc fe' = fe_rfileProc fe
                /\ fe_wfileProc fe' = fe_wfileProc fe
                /\ fe_clientData fe' = fe_clientData fe.
Proof.
  intros Hd fd' fe' Hs'. unfold eco_poll_file_event_delete in Hd.
  destruct (fd >=? setsize p); [injection Hd as <-; eauto|].
  destruct (slot p fd) as [fe|] eqn:Hs; [simpl in Hd|discriminate].
  destruct (fe_mask fe =? ECO_POLL_NONE); [injection Hd as <-; eauto|].
  destruct (slot_Some_range _ _ _ Hs) as [H0 _].
  set (m := Z.land (fe_mask fe) (Z.lnot mask)) in *.
  assert (Hp1 : exists fe1,
             slot (set_slot fd (set_fe_mask m fe) p) fd' = Some fe1
             /\ fe_rfileProc fe1 = fe_rfileProc fe'
             /\ fe_wfileProc fe1 = fe_wfileProc fe'
             /\ fe_clientData fe1 = fe_clientData fe').
  { destruct (Z.eq_dec fd fd') as [<-|Hne].
    - rewrite (slot_set_slot_eq _ _ _ _ Hs).
      rewrite Hs in Hs'. injection Hs' as <-. eauto.
    - rewrite slot_set_slot_ne by assumption. eauto. }
  destruct ((fd =? maxfd p) && (m =? ECO_POLL_NONE)).
  - destruct (scan_maxfd _ _); [simpl in Hd|discriminate].
    injection Hd as <-. assumption.
  - injection Hd as <-. assumption.
Qed.

(** C6, amended.  A slot whose mask is [ECO_POLL_NONE] is not set: the
    dispatch pass calls no callback for it and leaves the loop as it is,
    whatever its callback fields hold; and unregistering changes no callback
    field and no client data of any slot. *)
Theorem none_slot_is_not_dispatched :
  (forall (E : environment) (w : world) (fd mask : Z) (fe : coFileEvent),
      slot (w_poll w) fd = Some fe -> fe_mask fe = ECO_POLL_NONE ->
      dispatch_entry E w fd mask = Some w)
  /\ (forall (p p' : co_poll_t) (fd mask fd' : Z) (fe : coFileEvent),
        eco_poll_file_event_delete p fd mask = Some p' ->
        slot p fd' = Some fe ->
        exists fe', slot p' fd' = Some fe'
                    /\ fe_rfileProc fe' = fe_rfileProc fe
                    /\ fe_wfileProc fe' = fe_wfileProc fe
                    /\ fe_clientData fe' = fe_clientData fe).
Proof.
  split.
  - intros E w fd mask fe Hs Hm. unfold dispatch_entry.
    rewrite Hs. simpl. rewrite Hm. simpl. rewrite Hs. simpl. rewrite Hm.
    reflexivity.
  - intros p p' fd mask fd' fe Hd Hs.
    eapply file_event_delete_keeps_callbacks; eassumption.
Qed.

(** ** The dispatch pass *)

Lemma dispatch_app (E : environment) (pre post : list (Z * Z)) (w : world)
    (n : Z) :
  dispatch E (pre ++ post) w n
  = dispatch E pre w n ≫= (fun r => dispatch E post (fst r) (snd r)).
Proof.
  revert w n. induction pre as [|[fd m] pre IH]; intros w n; simpl.
  - reflexivity.
  - destruct (dispatch_entry E w fd m) as [w1|]; simpl; [apply IH|reflexivity].
Qed.

Lemma land_bits_clear (x : Z) :
  Z.land x (Z.lor ECO_POLL_READABLE ECO_POLL_WRITABLE) = 0 ->
  Z.land x ECO_POLL_READABLE = 0 /\ Z.land x ECO_POLL_WRITABLE = 0.
Proof.
  intros H. split.
  - change ECO_POLL_READABLE
      with (Z.land (Z.lor ECO_POLL_READABLE ECO_POLL_WRITABLE) 1).
    rewrite Z.land_assoc, H. reflexivity.
  - change ECO_POLL_WRITABLE
      with (Z.land (Z.lor ECO_POLL_READABLE ECO_POLL_WRITABLE) 2).
    rewrite Z.land_assoc, H. reflexivity.
Qed.

(** C3.  Each fired entry is checked against the mask the slot has when the
    entry is reached: when the entries before [(fdB, m)] have been
    dispatched and the current mask of [fdB], ANDed with the ready mask
    [m], holds neither the readable nor the writable bit (a callback run
    earlier in the pass cleared the interest), the entry calls no callback
    and changes nothing; the pass goes on with the next entry, only the
    counter being advanced. *)
Theorem stale_entry_is_skipped (E : environment) (w w1 : world)
    (pre post : list (Z * Z)) (fdB m n1 : Z) (feB : coFileEvent) :
  dispatch E pre w 0 = Some (w1, n1) ->
  slot (w_poll w1) fdB = Some feB ->
  Z.land (Z.land (fe_mask feB) m)
         (Z.lor ECO_POLL_READABLE ECO_POLL_WRITABLE) = 0 ->
  dispatch_entry E w1 fdB m = Some w1
  /\ dispatch E (pre ++ (fdB, m) :: post) w 0 = dispatch E post w1 (n1 + 1).
Proof.
  intros Hpre Hs Hbits. apply land_bits_clear in Hbits as [Hr Hw].
  assert (He : dispatch_entry E w1 fdB m = Some w1).
  { unfold dispatch_entry. rewrite Hs. simpl. rewrite Hr. simpl.
    rewrite Hs. simpl. rewrite Hw. reflexivity. }
  split; [assumption|].
  rewrite dispatch_app, Hpre. simpl. rewrite He. reflexivity.
Qed.

(** In the pass over descriptors 1 and 2, the callback of descriptor 1
    unregisters descriptor 2, whose callback 20 is then not called. *)
Lemma stale_entry_is_skipped_witness :
  dispatch unregistering_env
    ([(1, ECO_POLL_READABLE)] ++ [(2, ECO_POLL_READABLE)])
    (mkWorld two_readers 0 []) 0
  = Some (mkWorld
            (mkPoll 1 4 0 0
               [mkFileEvent 0 0 0 0; mkFileEvent 1 10 0 0;
                mkFileEvent 0 20 0 0; mkFileEvent 0 0 0 0] [])
            0 [CallFile 10 1 0 ECO_POLL_READABLE], 2).
Proof.
  exact (proj2 (stale_entry_is_skipped unregistering_env
                  (mkWorld two_readers 0 [])
                  (mkWorld
                     (mkPoll 1 4 0 0
                        [mkFileEvent 0 0 0 0; mkFileEvent 1 10 0 0;
                         mkFileEvent 0 20 0 0; mkFileEvent 0 0 0 0] [])
                     0 [CallFile 10 1 0 ECO_POLL_READABLE])
                  [(1, ECO_POLL_READABLE)] [] 2 ECO_POLL_READABLE 1
                  (mkFileEvent 0 20 0 0)
                  eq_refl eq_refl eq_refl)).
Defined.

(** ** Invariants of runs *)

(** What a sequence of calls of the interface keeps. *)
Section RunActions.

Variable E : environment.
Variable allowed : action -> Prop.
Variable J : world -> Prop.

Hypothesis J_action : forall a w w',
  allowed a -> J w -> do_action E a w = Some w' -> J w'.

Lemma run_actions_inv (s : list action) (w w' : world) :
  Forall allowed s -> J w -> run_actions E s w = Some w' -> J w'.
Proof.
  intros Hs. revert w. induction Hs as [|a s Ha Hs IH]; intros w HJ Hrun.
  - simpl in Hrun. by injection Hrun as <-.
  - simpl in Hrun. destruct (do_action E a w) as [w1|] eqn:Ha1; [|discriminate].
    simpl in Hrun. eauto.
Qed.

End RunActions.

(** What the dispatch pass keeps, given what the calls made by the file
    callbacks keep. *)
Section DispatchInvariant.

Variable E : environment.
Variable allowed : action -> Prop.
Variable J : world -> Prop.

Hypothesis file_allowed : forall proc p fd cd m,
  Forall allowed (fileProc_body E proc p fd cd m).
Hypothesis J_action : forall a w w',
  allowed a -> J w -> do_action E a w = Some w' -> J w'.
Hypothesis J_call_file : forall proc fd cd m w,
  J w -> J (record_call (CallFile proc fd cd m) w).

Lemma call_file_inv (w w' : world) proc fd cd m :
  J w -> call_file E w proc fd cd m = Some w' -> J w'.
Proof.
  intros HJ Hc. unfold call_file in Hc.
  eapply (run_actions_inv E allowed J J_action); [apply file_allowed| |exact Hc].
  by apply J_call_file.
Qed.

Lemma dispatch_entry_inv (w w' : world) fd m :
  J w -> dispatch_entry E w fd m = Some w' -> J w'.
Proof.
  intros HJ Hd. unfold dispatch_entry in Hd.
  destruct (slot (w_poll w) fd) as [fe|]; [simpl in Hd|discriminate].
  assert (Hfirst : forall r,
    (if Z.land (Z.land (fe_mask fe) m) ECO_POLL_READABLE =? 0
     then Some (w, false)
     else if fe_rfileProc fe =? NULL then Some (w, true)
     else w1 ← call_file E w (fe_rfileProc fe) fd (fe_clientData fe) m;
          Some (w1, true)) = Some r -> J (fst r)).
  { intros r Hr.
    destruct (Z.land (Z.land (fe_mask fe) m) ECO_POLL_READABLE =? 0);
      [by injection Hr as <-|].
    destruct (fe_rfileProc fe =? NULL); [by injection Hr as <-|].
    destruct (call_file E w _ _ _ _) as [w1|] eqn:Hc; [|discriminate].
    simpl in Hr. injection Hr as <-. simpl. eapply call_file_inv; eassumption. }
  match type of Hd with (?x ≫= _) = _ => destruct x as [[w1 rf]|] end;
    [simpl in Hd|discriminate].
  specialize (Hfirst _ eq_refl). simpl in Hfirst.
  destruct (slot (w_poll w1) fd) as [fe1|]; [simpl in Hd|discriminate].
  destruct (Z.land (Z.land (fe_mask fe1) m) ECO_POLL_WRITABLE =? 0);
    [by injection Hd as <-|].
  match type of Hd with (if ?b then _ else _) = _ => destruct b end.
  - eapply call_file_inv; eassumption.
  - by injection Hd as <-.
Qed.

Lemma dispatch_inv (fired : list (Z * Z)) (w w' : world) (n n' : Z) :
  J w -> dispatch E fired w n = Some (w', n') -> J w'.
Proof.
  revert w n. induction fired as [|[fd m] fired IH]; intros w n HJ Hd.
  - simpl in Hd. by injection Hd as <- _.
  - simpl in Hd. destruct (dispatch_entry E w fd m) as [w1|] eqn:He;
      [simpl in Hd|discriminate].
    eapply IH; [|exact Hd]. eapply dispatch_entry_inv; eassumption.
Qed.

End DispatchInvariant.

Lemma dispatch_processed (E : environment) (fired : list (Z * Z))
    (w w' : world) (n n' : Z) :
  dispatch E fired w n = Some (w', n') -> n' = n + Z.of_nat (length fired).
Proof.
  revert w n. induction fired as [|[fd m] fired IH]; intros w n Hd.
  - simpl in Hd. injection Hd as _ <-. simpl. lia.
  - simpl in Hd. destruct (dispatch_entry E w fd m) as [w1|];
      [simpl in Hd|discriminate].
    apply IH in Hd. rewrite Hd. simpl length. lia.
Qed.

Lemma split_tail_Some {A} (k : nat) (l pre suf : list A) (te : A) :
  split_tail k l = Some (pre, te, suf) ->
  l = pre ++ te :: suf /\ k = S (length suf).
Proof.
  unfold split_tail. destruct (Nat.leb_spec k (length l)) as [Hle|]; [|discriminate].
  destruct (drop (length l - k) l) as [|x r] eqn:Hd; [discriminate|].
  intros [= <- <- <-]. split.
  - rewrite <- Hd. by rewrite take_drop.
  - pose proof (length_drop l (length l - k)) as Hl. rewrite Hd in Hl.
    simpl in Hl. lia.
Qed.

Lemma split_tail_app {A} (pre suf : list A) (te : A) :
  split_tail (S (length suf)) (pre ++ te :: suf) = Some (pre, te, suf).
Proof.
  unfold split_tail.
  assert (Hlen : (length (pre ++ te :: suf) - S (length suf))%nat = length pre).
  { rewrite length_app. simpl. lia. }
  rewrite Hlen.
  destruct (Nat.leb_spec (S (length suf)) (length (pre ++ te :: suf)))
    as [_|Hgt]; [|rewrite length_app in Hgt; simpl in Hgt; lia].
  rewrite drop_app_length, take_app_length. reflexivity.
Qed.

Lemma sweep_loop_S (E : environment) maxId k prev w n :
  sweep_loop E maxId (S k) prev w n
  = '(pre, te, suf) ← split_tail (S k) (timeEventHead (w_poll w));
    if te_id te =? ECO_POLL_DELETED_EVENT_ID then
      w2 ← finalize E te (set_w_timers (unlink prev pre suf) w);
      sweep_loop E maxId k (match prev with
                            | None => None
                            | Some _ => Some 0%nat
                            end) w2 n
    else if te_id te >? maxId then
      sweep_loop E maxId k (match prev with
                            | None => None
                            | Some g => Some (S g)
                            end) w n
    else
      if is_due (aeGetTime (gettimeofday E (w_tick w))) te then
        if te_timeProc te =? NULL then None
        else
          r ← call_time E (tick w) (te_timeProc te) (te_id te)
                (te_clientData te);
          w2 ← after_fire E (S k) (snd r) (fst r);
          sweep_loop E maxId k (Some 0%nat) w2 (n + 1)
      else sweep_loop E maxId k (Some 0%nat) (tick w) n.
Proof. reflexivity. Qed.

(** What the timer sweep keeps.  [J k w n] is stated for the world [w] and
    the counter [n] when [k] nodes are still to be visited; each hypothesis
    is one step of the loop. *)
Section SweepInvariant.

Variable E : environment.
Variable allowed : action -> Prop.
Variable maxId : Z.
Variable J : nat -> world -> Z -> Prop.

Hypothesis time_allowed : forall proc p id cd,
  Forall allowed (fst (timeProc_body E proc p id cd)).
Hypothesis finalizer_allowed : forall proc p cd,
  Forall allowed (finalizerProc_body E proc p cd).
Hypothesis J_action : forall k n a w w',
  allowed a -> J k w n -> do_action E a w = Some w' -> J k w' n.
Hypothesis J_deleted : forall k prev w n pre te suf,
  J (S k) w n ->
  split_tail (S k) (timeEventHead (w_poll w)) = Some (pre, te, suf) ->
  te_id te = ECO_POLL_DELETED_EVENT_ID ->
  J k (let w1 := set_w_timers (unlink prev pre suf) w in
       if te_finalizerProc te =? NULL then w1
       else record_call
              (CallFinalizer (te_finalizerProc te) (te_clientData te)) w1) n.
Hypothesis J_fenced : forall k w n pre te suf,
  J (S k) w n ->
  split_tail (S k) (timeEventHead (w_poll w)) = Some (pre, te, suf) ->
  te_id te <> ECO_POLL_DELETED_EVENT_ID -> te_id te > maxId ->
  J k w n.
Hypothesis J_not_due : forall k w n pre te suf,
  J (S k) w n ->
  split_tail (S k) (timeEventHead (w_poll w)) = Some (pre, te, suf) ->
  te_id te <> ECO_POLL_DELETED_EVENT_ID -> te_id te <= maxId ->
  is_due (aeGetTime (gettimeofday E (w_tick w))) te = false ->
  J k (tick w) n.
Hypothesis J_fire : forall k w n pre te suf,
  J (S k) w n ->
  split_tail (S k) (timeEventHead (w_poll w)) = Some (pre, te, suf) ->
  te_id te <> ECO_POLL_DELETED_EVENT_ID -> te_id te <= maxId ->
  is_due (aeGetTime (gettimeofday E (w_tick w))) te = true ->
  J k (record_call (CallTime (te_timeProc te) (te_id te) (te_clientData te))
         (tick w)) (n + 1).
Hypothesis J_nomore : forall k w n pre te suf,
  J k w n ->
  split_tail (S k) (timeEventHead (w_poll w)) = Some (pre, te, suf) ->
  J k (set_w_timers (pre ++ set_te_id ECO_POLL_DELETED_EVENT_ID te :: suf) w)
    n.
Hypothesis J_rescheduled : forall k w n pre te suf s ms,
  J k w n ->
  split_tail (S k) (timeEventHead (w_poll w)) = Some (pre, te, suf) ->
  J k (set_w_timers (pre ++ set_te_when s ms te :: suf) (tick w)) n.

Lemma finalize_inv k prev w n pre te suf w' :
  J (S k) w n ->
  split_tail (S k) (timeEventHead (w_poll w)) = Some (pre, te, suf) ->
  te_id te = ECO_POLL_DELETED_EVENT_ID ->
  finalize E te (set_w_timers (unlink prev pre suf) w) = Some w' ->
  J k w' n.
Proof.
  intros HJ Hsp Hid Hf. pose proof (J_deleted k prev w n pre te suf HJ Hsp Hid) as H.
  unfold finalize in Hf. simpl in H.
  destruct (te_finalizerProc te =? NULL); [by injection Hf as <-|].
  unfold call_finalizer in Hf.
  eapply (run_actions_inv E allowed (fun w => J k w n));
    [intros; eapply J_action; eassumption|apply finalizer_allowed|exact H|exact Hf].
Qed.

Lemma after_fire_inv k w n retval w' :
  J k w n -> after_fire E (S k) retval w = Some w' -> J k w' n.
Proof.
  intros HJ Ha. unfold after_fire, update_current in Ha.
  destruct (retval =? ECO_POLL_NOMORE).
  - destruct (split_tail (S k) (timeEventHead (w_poll w)))
      as [[[pre te] suf]|] eqn:Hsp; [simpl in Ha|discriminate].
    injection Ha as <-. eapply J_nomore; eassumption.
  - destruct (aeAddMillisecondsToNow _ _) as [s ms].
    change (timeEventHead (w_poll (tick w))) with (timeEventHead (w_poll w))
      in Ha.
    destruct (split_tail (S k) (timeEventHead (w_poll w)))
      as [[[pre te] suf]|] eqn:Hsp; [simpl in Ha|discriminate].
    injection Ha as <-. eapply J_rescheduled; eassumption.
Qed.

Theorem sweep_loop_inv (k : nat) (prev : option nat) (w w' : world)
    (n n' : Z) :
  J k w n -> sweep_loop E maxId k prev w n = Some (w', n') -> J 0 w' n'.
Proof.
  revert prev w n. induction k as [|k IH]; intros prev w n HJ Hs.
  - simpl in Hs. by injection Hs as <- <-.
  - rewrite sweep_loop_S in Hs.
    destruct (split_tail (S k) (timeEventHead (w_poll w)))
      as [[[pre te] suf]|] eqn:Hsp; [simpl in Hs|discriminate].
    destruct (Z.eqb_spec (te_id te) ECO_POLL_DELETED_EVENT_ID) as [Hdel|Hlive].
    { destruct (finalize E te _) as [w2|] eqn:Hf; [simpl in Hs|discriminate].
      eapply IH; [|exact Hs]. eapply finalize_inv; eassumption. }
    destruct (Z.gtb_spec (te_id te) maxId) as [Hgt|Hle].
    { eapply IH; [|exact Hs]. eapply J_fenced; try eassumption. lia. }
    destruct (is_due _ te) eqn:Hdue.
    + destruct (te_timeProc te =? NULL); [discriminate|].
      destruct (call_time E (tick w) _ _ _) as [[w1 retval]|] eqn:Hc;
        [simpl in Hs|discriminate].
      destruct (after_fire E (S k) retval w1) as [w2|] eqn:Ha;
        [simpl in Hs|discriminate].
      eapply IH; [|exact Hs]. eapply after_fire_inv; [|exact Ha].
      unfold call_time in Hc.
      pose proof (time_allowed (te_timeProc te) (w_poll (tick w)) (te_id te)
                    (te_clientData te)) as Hal.
      destruct (timeProc_body E _ _ _ _) as [s r]. simpl in Hal.
      destruct (run_actions E s _) as [w1'|] eqn:Hr; [simpl in Hc|discriminate].
      injection Hc as <- <-.
      eapply (run_actions_inv E allowed (fun w => J k w (n + 1)));
        [intros; eapply J_action; eassumption|exact Hal| |exact Hr].
      eapply J_fire; eassumption.
    + eapply IH; [|exact Hs]. eapply J_not_due; eassumption.
Qed.

End SweepInvariant.

(** ** The value returned by one iteration *)

Lemma do_action_trace (E : environment) a w w' :
  do_action E a w = Some w' -> w_trace w' = w_trace w.
Proof.
  destruct a; simpl; intros H.
  - destruct (eco_poll_file_event_create _ _ _ _ _ _); [|discriminate].
    by injection H as <-.
  - destruct (eco_poll_file_event_update _ _ _ _ _ _); [|discriminate].
    by injection H as <-.
  - destruct (eco_poll_file_event_delete _ _ _); [|discriminate].
    by injection H as <-.
  - injection H as <-. by destruct malloc_ok.
  - by injection H as <-.
  - by injection H as <-.
Qed.

Lemma timer_callbacks_snoc t c :
  timer_callbacks (t ++ [c])
  = timer_callbacks t + (if is_time_call c then 1 else 0).
Proof.
  unfold timer_callbacks. rewrite List.filter_app, length_app. simpl.
  destruct (is_time_call c); simpl; lia.
Qed.

Lemma dispatch_timer_callbacks (E : environment) fired w w' n n' :
  dispatch E fired w n = Some (w', n') ->
  timer_callbacks (w_trace w') = timer_callbacks (w_trace w).
Proof.
  intros Hd.
  apply (dispatch_inv E (fun _ => True)
           (fun x => timer_callbacks (w_trace x) = timer_callbacks (w_trace w)))
    with (fired := fired) (w := w) (n := n) (n' := n'); auto.
  - intros. apply Forall_forall. auto.
  - intros a x x' _ Hx Ha. by rewrite (do_action_trace _ _ _ _ Ha).
  - intros proc fd cd m x Hx. simpl. rewrite timer_callbacks_snoc. simpl. lia.
Qed.

Lemma sweep_loop_counts (E : environment) maxId k prev w w' n n' :
  sweep_loop E maxId k prev w n = Some (w', n') ->
  n' - timer_callbacks (w_trace w') = n - timer_callbacks (w_trace w).
Proof.
  intros Hs.
  apply (sweep_loop_inv E (fun _ => True) maxId
           (fun _ x m => m - timer_callbacks (w_trace x)
                         = n - timer_callbacks (w_trace w)))
    with (k := k) (prev := prev) (w := w) (n := n); auto.
  - intros. apply Forall_forall. auto.
  - intros. apply Forall_forall. auto.
  - intros _ m a x x' _ Hx Ha. by rewrite (do_action_trace _ _ _ _ Ha).
  - intros _ pv x m pre te suf Hx _ _. simpl.
    destruct (te_finalizerProc te =? NULL); simpl; [assumption|].
    rewrite timer_callbacks_snoc. simpl. lia.
  - intros _ x m pre te suf Hx _ _ _ _. simpl.
    rewrite timer_callbacks_snoc. simpl. lia.
Qed.

Lemma processTimeEvents_counts (E : environment) w w' n :
  processTimeEvents E w = Some (w', n) ->
  n = timer_callbacks (w_trace w') - timer_callbacks (w_trace w).
Proof.
  unfold processTimeEvents. intros Hs. apply sweep_loop_counts in Hs.
  simpl in Hs. lia.
Qed.

(** C2, as stated, fails: with descriptor 1 watched in both directions by
    two different callbacks and reported readable and writable, one
    iteration calls two callbacks and returns 1. *)
Lemma two_callbacks_count_once :
  eco_poll_process_events quiet_env (mkWorld (both_directions []) 0 [])
    ECO_POLL_FILE_EVENTS 0
  = Some (mkWorld (both_directions []) 0
            [CallFile 10 1 0 3; CallFile 11 1 0 3], 1)
  /\ callbacks [CallFile 10 1 0 3; CallFile 11 1 0 3] = 2
  /\ 1 <> 2.
Proof. split; [reflexivity|]. split; [reflexivity|discriminate]. Qed.

(** C2, amended.  The value returned by [eco_poll_process_events] is the
    number of entries reported by the backend poll of that call, each entry
    counted once whether it led to no, one or two callbacks, plus the number
    of timer callbacks called by the sweep (finalizers are not counted). *)
Theorem process_events_counts_entries (E : environment) (w w' : world)
    (flags timeout n : Z) :
  eco_poll_process_events E w flags timeout = Some (w', n) ->
  n = Z.of_nat (length (reported_entries E w flags timeout))
      + (timer_callbacks (w_trace w') - timer_callbacks (w_trace w)).
Proof.
  unfold eco_poll_process_events, reported_entries.
  set (want_time := negb (Z.land flags ECO_POLL_TIME_EVENTS =? 0)).
  set (want_file := negb (Z.land flags ECO_POLL_FILE_EVENTS =? 0)).
  destruct (negb want_time && negb want_file) eqn:Hnone.
  { intros [= <- <-]. simpl. lia. }
  set (polls := negb (maxfd (w_poll w) =? -1)
                || (want_time && negb (timeout =? 0))).
  set (shortest := if want_time && negb (timeout =? 0)
                   then aeSearchNearestTimer (w_poll w) else None).
  set (w0 := match shortest with Some _ => tick w | None => w end).
  set (fired := aeApiPoll E (w_tick w0) (w_poll w0)
                  (poll_timeout shortest (gettimeofday E (w_tick w)) timeout)).
  intros H.
  assert (Hphase : exists w1 n1,
            (if polls then dispatch E fired w0 0 else Some (w, 0))
            = Some (w1, n1)
            /\ n1 = Z.of_nat (length (if polls then fired else []))
            /\ timer_callbacks (w_trace w1) = timer_callbacks (w_trace w)).
  { destruct polls.
    - destruct (dispatch E fired w0 0) as [[w1 n1]|] eqn:Hd; [|discriminate].
      exists w1, n1. split; [reflexivity|].
      split; [apply dispatch_processed in Hd; lia|].
      rewrite (dispatch_timer_callbacks _ _ _ _ _ _ Hd).
      subst w0. by destruct shortest.
    - exists w, 0. auto. }
  destruct Hphase as (w1 & n1 & Heq & Hn1 & Ht1). rewrite Heq in H.
  simpl in H. destruct want_time.
  - destruct (processTimeEvents E w1) as [[w2 n2]|] eqn:Hp; [|discriminate].
    simpl in H. injection H as <- <-.
    apply processTimeEvents_counts in Hp. lia.
  - injection H as <- <-. lia.
Qed.

(** One iteration over descriptor 1, ready in both directions, and one due
    timer: three callbacks are called, the value returned is 2. *)
Lemma process_events_counts_entries_witness :
  exists w' n,
    eco_poll_process_events quiet_env
      (mkWorld (both_directions [timer_at 0 0 0]) 0 [])
      (Z.lor ECO_POLL_FILE_EVENTS ECO_POLL_TIME_EVENTS) 0 = Some (w', n)
    /\ callbacks (w_trace w') = 3
    /\ n = 2
    /\ n = Z.of_nat
             (length (reported_entries quiet_env
                        (mkWorld (both_directions [timer_at 0 0 0]) 0 [])
                        (Z.lor ECO_POLL_FILE_EVENTS ECO_POLL_TIME_EVENTS) 0))
           + (timer_callbacks (w_trace w') - timer_callbacks []).
Proof.
  eexists. eexists. split; [vm_compute; reflexivity|].
  split; [reflexivity|]. split; [reflexivity|].
  apply (process_events_counts_entries quiet_env
           (mkWorld (both_directions [timer_at 0 0 0]) 0 [])).
  vm_compute. reflexivity.
Defined.

(** ** The clock-regression guard *)

Lemma install_file_event_timers p fd mask proc cd fe :
  timeEventHead (install_file_event p fd mask proc cd fe) = timeEventHead p
  /\ timeEventNextId (install_file_event p fd mask proc cd fe)
     = timeEventNextId p.
Proof.
  unfold install_file_event.
  by match goal with |- context [if ?b then _ else _] => destruct b end.
Qed.

Lemma register_timers e p fd mask proc cd ok r :
  register e p fd mask proc cd ok = Some r ->
  timeEventHead (fst r) = timeEventHead p
  /\ timeEventNextId (fst r) = timeEventNextId p.
Proof.
  destruct e; simpl;
    unfold eco_poll_file_event_create, eco_poll_file_event_update;
    (destruct (fd >=? setsize p); [by intros [= <-]|]);
    (destruct (slot p fd); [simpl|discriminate]);
    (destruct ok; simpl; [|by intros [= <-]]);
    intros [= <-]; apply install_file_event_timers.
Qed.

Lemma file_event_delete_timers p fd mask p' :
  eco_poll_file_event_delete p fd mask = Some p' ->
  timeEventHead p' = timeEventHead p
  /\ timeEventNextId p' = timeEventNextId p.
Proof.
  unfold eco_poll_file_event_delete.
  destruct (fd >=? setsize p); [by intros [= <-]|].
  destruct (slot p fd) as [fe|]; [simpl|discriminate].
  destruct (fe_mask fe =? ECO_POLL_NONE); [by intros [= <-]|].
  match goal with |- context [if ?b then _ else _] => destruct b end.
  - destruct (scan_maxfd _ _); [simpl|discriminate]. by intros [= <-].
  - by intros [= <-].
Qed.

(** The calls on the descriptor table leave the timers alone. *)
Lemma file_action_timers (E : environment) a w w' :
  match a with
  | file_event_create _ _ _ _ _ | file_event_update _ _ _ _ _
  | file_event_delete _ _ => True
  | _ => False
  end ->
  do_action E a w = Some w' ->
  timeEventHead (w_poll w') = timeEventHead (w_poll w)
  /\ timeEventNextId (w_poll w') = timeEventNextId (w_poll w).
Proof.
  intros Hk Ha. destruct a; simpl in *; try contradiction.
  - destruct (eco_poll_file_event_create _ _ _ _ _ _) as [r|] eqn:Hr;
      [simpl in Ha|discriminate].
    injection Ha as <-. apply (register_timers Create _ _ _ _ _ _ _ Hr).
  - destruct (eco_poll_file_event_update _ _ _ _ _ _) as [r|] eqn:Hr;
      [simpl in Ha|discriminate].
    injection Ha as <-. apply (register_timers Update _ _ _ _ _ _ _ Hr).
  - destruct (eco_poll_file_event_delete _ _ _) as [r|] eqn:Hr;
      [simpl in Ha|discriminate].
    injection Ha as <-. apply (file_event_delete_timers _ _ _ _ Hr).
Qed.

Lemma keeps_timers_prepends (E : environment) a w w' :
  keeps_timers a -> do_action E a w = Some w' ->
  exists new, timeEventHead (w_poll w') = new ++ timeEventHead (w_poll w).
Proof.
  intros Hk Ha.
  destruct a; simpl in Hk; try contradiction;
    try (match type of Ha with do_action _ ?a _ = _ =>
           exists []; exact (proj1 (file_action_timers E a w w' I Ha)) end).
  simpl in Ha. injection Ha as <-. unfold eco_poll_time_event_create.
  destruct malloc_ok; simpl.
  - destruct (aeAddMillisecondsToNow _ _) as [s ms]. simpl. by eexists [_].
  - by exists [].
Qed.

Lemma time_calls_snoc t c :
  time_calls (t ++ [c]) = time_calls t ++ (if is_time_call c then [c] else []).
Proof.
  unfold time_calls. rewrite List.filter_app. simpl.
  by destruct (is_time_call c).
Qed.

Lemma filter_live_guard (l : list coTimeEvent) :
  map fire_call (List.filter is_live (map (set_te_when_sec 0) l))
  = map fire_call (List.filter is_live l).
Proof.
  induction l as [|te l IH]; [reflexivity|]. simpl.
  change (is_live (set_te_when_sec 0 te)) with (is_live te).
  destruct (is_live te); simpl; by rewrite IH.
Qed.

Lemma sweep_progress_current L0 T0 k x m pre te suf :
  sweep_progress L0 T0 (S k) x m ->
  split_tail (S k) (timeEventHead (w_poll x)) = Some (pre, te, suf) ->
  exists done,
    L0 = done ++ te :: suf /\ length suf = k
    /\ timeEventHead (w_poll x) = pre ++ te :: suf
    /\ time_calls (w_trace x) = T0 ++ map fire_call (List.filter is_live done)
    /\ m = Z.of_nat (length (List.filter is_live done)).
Proof.
  intros (pre0 & done & todo & HL & Hlen & Ht & Hc & Hm) Hsp.
  apply split_tail_Some in Hsp as [Hl Hk].
  destruct todo as [|te0 todo]; [discriminate|]. simpl in Hlen.
  rewrite Hl in Ht.
  apply app_inj_2 in Ht as [-> [= -> ->]]; [|simpl; lia].
  exists done. repeat split; try assumption. lia.
Qed.

Lemma sweep_progress_visited L0 T0 k x m pre te suf (f : coTimeEvent -> coTimeEvent) :
  sweep_progress L0 T0 k x m ->
  split_tail (S k) (timeEventHead (w_poll x)) = Some (pre, te, suf) ->
  forall x',
    timeEventHead (w_poll x') = pre ++ f te :: suf ->
    w_trace x' = w_trace x ->
    sweep_progress L0 T0 k x' m.
Proof.
  intros (pre0 & done & todo & HL & Hlen & Ht & Hc & Hm) Hsp x' Ht' Htr.
  apply split_tail_Some in Hsp as [Hl Hk].
  assert (Hsuf : suf = todo).
  { rewrite Hl in Ht.
    change (pre ++ te :: suf) with (pre ++ [te] ++ suf) in Ht.
    rewrite app_assoc in Ht.
    apply app_inj_2 in Ht as [_ ->]; [reflexivity|lia]. }
  subst suf. exists (pre ++ [f te]), done, todo.
  repeat split; try assumption.
  - rewrite Ht'. by rewrite <- app_assoc.
  - by rewrite Htr.
Qed.

Lemma sweep_fires_all (E : environment) (L0 : list coTimeEvent)
    (T0 : list invocation) (maxId : Z) (k : nat) prev w w' n n' :
  (forall t, 0 < fst (gettimeofday E t)) ->
  timers_passive E ->
  Forall (fun te => te_when_sec te = 0 /\ te_id te <= maxId) L0 ->
  sweep_progress L0 T0 k w n ->
  sweep_loop E maxId k prev w n = Some (w', n') ->
  sweep_progress L0 T0 0 w' n'.
Proof.
  intros Hclock [Hpt Hpf] HL0 HJ Hs.
  apply (sweep_loop_inv E keeps_timers maxId (sweep_progress L0 T0))
    with (k := k) (prev := prev) (w := w) (n := n); auto.
  - intros j m a x x' Hk (pre0 & done & todo & HL & Hlen & Ht & Hc & Hm) Ha.
    destruct (keeps_timers_prepends E a x x' Hk Ha) as [new Hnew].
    exists (new ++ pre0), done, todo. repeat split; try assumption.
    + rewrite Hnew, Ht. by rewrite app_assoc.
    + by rewrite (do_action_trace _ _ _ _ Ha).
  - intros j pv x m pre te suf HJ' Hsp Hid.
    destruct (sweep_progress_current _ _ _ _ _ _ _ _ HJ' Hsp)
      as (done & HL & Hlen & Ht & Hc & Hm).
    assert (Hdead : is_live te = false)
      by (unfold is_live; rewrite Hid; reflexivity).
    exists (match pv with
            | None => []
            | Some g => take (length pre - g)%nat pre
            end), (done ++ [te]), suf.
    rewrite List.filter_app. simpl. rewrite Hdead, !app_nil_r.
    split; [by rewrite <- app_assoc|]. split; [assumption|].
    split.
    { destruct (te_finalizerProc te =? NULL); simpl; destruct pv; reflexivity. }
    split; [|assumption].
    destruct (te_finalizerProc te =? NULL); simpl; [assumption|].
    rewrite time_calls_snoc. simpl. by rewrite app_nil_r.
  - intros j x m pre te suf HJ' Hsp Hlive Hgt. exfalso.
    destruct (sweep_progress_current _ _ _ _ _ _ _ _ HJ' Hsp)
      as (done & HL & _).
    rewrite HL in HL0. apply Forall_app in HL0 as [_ HL0].
    apply Forall_cons in HL0 as [[_ Hle] _]. lia.
  - intros j x m pre te suf HJ' Hsp Hlive Hle Hdue. exfalso.
    destruct (sweep_progress_current _ _ _ _ _ _ _ _ HJ' Hsp)
      as (done & HL & _).
    rewrite HL in HL0. apply Forall_app in HL0 as [_ HL0].
    apply Forall_cons in HL0 as [[Hz _] _].
    unfold is_due, aeGetTime in Hdue. simpl in Hdue. rewrite Hz in Hdue.
    pose proof (Hclock (w_tick x)) as Hpos.
    apply orb_false_iff in Hdue as [Hdue _]. lia.
  - intros j x m pre te suf HJ' Hsp Hlive Hle Hdue.
    destruct (sweep_progress_current _ _ _ _ _ _ _ _ HJ' Hsp)
      as (done & HL & Hlen & Ht & Hc & Hm).
    assert (Halive : is_live te = true).
    { unfold is_live. by destruct (Z.eqb_spec (te_id te) ECO_POLL_DELETED_EVENT_ID). }
    exists (pre ++ [te]), (done ++ [te]), suf.
    rewrite List.filter_app. simpl. rewrite Halive.
    split; [by rewrite <- app_assoc|]. split; [assumption|].
    split; [simpl; rewrite Ht; by rewrite <- app_assoc|].
    split.
    + simpl. rewrite time_calls_snoc. simpl. rewrite Hc.
      by rewrite map_app, app_assoc.
    + rewrite length_app. simpl. lia.
  - intros j x m pre te suf HJ' Hsp.
    eapply (sweep_progress_visited _ _ _ _ _ _ _ _
              (set_te_id ECO_POLL_DELETED_EVENT_ID)); eauto.
  - intros j x m pre te suf s ms HJ' Hsp.
    eapply (sweep_progress_visited _ _ _ _ _ _ _ _ (set_te_when s ms)); eauto.
Qed.

(** ** Cancellation of timers *)

Lemma node_update_refl te : node_update te te.
Proof. unfold node_update. auto. Qed.

Lemma Forall2_node_update_refl l : Forall2 node_update l l.
Proof. induction l; constructor; auto using node_update_refl. Qed.

Lemma mark_deleted_update l id l' :
  mark_deleted l id = Some l' -> Forall2 node_update l l'.
Proof.
  revert l'. induction l as [|te l IH]; intros l' H; simpl in H; [discriminate|].
  destruct (te_id te =? id).
  - injection H as <-. constructor; [|apply Forall2_node_update_refl].
    unfold node_update. simpl. auto.
  - destruct (mark_deleted l id) as [r|]; [simpl in H|discriminate].
    injection H as <-. constructor; auto using node_update_refl.
Qed.

Lemma fire_all_update l s ms :
  Forall2 node_update l
    (map (fun te => if te_id te =? ECO_POLL_DELETED_EVENT_ID then te
                    else set_te_when s ms te) l).
Proof.
  induction l as [|te l IH]; simpl; constructor; [|assumption].
  destruct (te_id te =? ECO_POLL_DELETED_EVENT_ID);
    unfold node_update; simpl; auto.
Qed.

(** A call of the interface updates the nodes of the list in place, or adds
    one node with the next id at the head. *)
Lemma do_action_evolves (E : environment) a w w' :
  do_action E a w = Some w' ->
  (Forall2 node_update (timeEventHead (w_poll w)) (timeEventHead (w_poll w'))
   /\ timeEventNextId (w_poll w) <= timeEventNextId (w_poll w'))
  \/ (exists te,
        timeEventHead (w_poll w') = te :: timeEventHead (w_poll w)
        /\ te_id te = timeEventNextId (w_poll w)
        /\ timeEventNextId (w_poll w') = timeEventNextId (w_poll w) + 1
        /\ creates_pair (te_finalizerProc te) (te_clientData te) a).
Proof.
  intros Ha.
  destruct a;
    try (match type of Ha with do_action _ ?a _ = _ =>
           destruct (file_action_timers E a w w' I Ha) as [-> ->] end;
         left; split; [apply Forall2_node_update_refl|lia]).
  - simpl in Ha. injection Ha as <-. unfold eco_poll_time_event_create.
    destruct malloc_ok; simpl.
    + destruct (aeAddMillisecondsToNow _ _) as [s ms]. simpl.
      right. eexists. repeat split; reflexivity.
    + left. split; [apply Forall2_node_update_refl|lia].
  - simpl in Ha. injection Ha as <-. left. unfold eco_poll_time_event_delete.
    destruct (mark_deleted _ _) as [l|] eqn:Hm; simpl.
    + split; [by apply mark_deleted_update in Hm|lia].
    + split; [apply Forall2_node_update_refl|lia].
  - simpl in Ha. injection Ha as <-. left. unfold eco_poll_time_fire_all.
    destruct (aeGetTime _) as [s ms]. simpl.
    split; [apply fire_all_update|lia].
Qed.

Lemma unlink_shape (pv : option nat) (pre suf : list coTimeEvent) :
  exists pre', unlink pv pre suf = pre' ++ suf
               /\ forall P : coTimeEvent -> Prop, Forall P pre -> Forall P pre'.
Proof.
  destruct pv as [g|]; simpl.
  - exists (take (length pre - g) pre). split; [reflexivity|].
    intros P HP. by apply Forall_take.
  - exists []. split; [reflexivity|]. intros. constructor.
Qed.

(** *** The pending node *)

Lemma has_pair_update f c a b :
  node_update a b -> has_pair f c b = has_pair f c a.
Proof. intros (_ & Hf & Hc & _). unfold has_pair. by rewrite Hf, Hc. Qed.

Lemma swept_update f c l l' :
  Forall2 node_update l l' -> swept f c l -> swept f c l'.
Proof.
  unfold swept. induction 1 as [|a b l l' Hab Hl IH]; intros Hs; [constructor|].
  apply Forall_cons in Hs as [Ha Hs]. constructor; [|auto].
  by rewrite (has_pair_update _ _ _ _ Hab).
Qed.

Lemma pending_update f c k l l' :
  Forall2 node_update l l' -> pending f c k l -> pending f c k l'.
Proof.
  intros HF (l1 & d & l2 & -> & Hlen & Hd & Hid & H1 & H2).
  apply Forall2_app_inv_l in HF as (l1' & r & HF1 & HF2 & ->).
  apply Forall2_cons_inv_l in HF2 as (d' & l2' & Hdd & HF2 & ->).
  exists l1', d', l2'. split; [reflexivity|].
  split; [by rewrite <- (Forall2_length _ _ _ HF2)|].
  split; [by rewrite (has_pair_update _ _ _ _ Hdd)|].
  split; [destruct Hdd as (_ & _ & _ & [->|]); assumption|].
  split; [exact (swept_update _ _ _ _ HF1 H1)|exact (swept_update _ _ _ _ HF2 H2)].
Qed.

Lemma pending_cons f c k te l :
  has_pair f c te = false -> pending f c k l -> pending f c k (te :: l).
Proof.
  intros Hte (l1 & d & l2 & -> & Hlen & Hd & Hid & H1 & H2).
  exists (te :: l1), d, l2. repeat split; try assumption.
  by constructor.
Qed.

Lemma pending_full f c k l :
  pending f c k l -> pending f c (length l) l.
Proof.
  intros (l1 & d & l2 & -> & Hlen & Hd & Hid & H1 & H2).
  exists l1, d, l2. repeat split; try assumption.
  rewrite length_app. simpl. lia.
Qed.

Lemma pending_mono f c k k' l :
  (k <= k')%nat -> pending f c k l -> pending f c k' l.
Proof.
  intros Hk (l1 & d & l2 & -> & Hlen & Hd & Hid & H1 & H2).
  exists l1, d, l2. repeat split; try assumption. lia.
Qed.

(** The node the sweep is at is the pending node, or the pending node lies
    further down the list. *)
Lemma pending_current f c k pre te suf :
  pending f c (S k) (pre ++ te :: suf) -> length suf = k ->
  (has_pair f c te = true /\ te_id te = ECO_POLL_DELETED_EVENT_ID
   /\ swept f c pre /\ swept f c suf)
  \/ (has_pair f c te = false /\ swept f c pre
      /\ pending f c k suf).
Proof.
  intros (l1 & d & l2 & Heq & Hlen & Hd & Hid & H1 & H2) Hk.
  destruct (Nat.eq_dec (length l2) k) as [He|Hne].
  - left. apply app_inj_2 in Heq as [-> [= -> ->]]; [|simpl; lia]. auto.
  - right.
    assert (Hsplit : exists mid, suf = mid ++ d :: l2
                                 /\ l1 = pre ++ te :: mid).
    { assert (Hl : (length l2 < length suf)%nat) by lia.
      exists (take (length suf - S (length l2)) suf).
      assert (Hs : suf = take (length suf - S (length l2)) suf
                         ++ drop (length suf - S (length l2)) suf)
        by (by rewrite take_drop).
      assert (Hd2 : length (drop (length suf - S (length l2)) suf)
                    = S (length l2)) by (rewrite length_drop; lia).
      rewrite Hs in Heq.
      change (pre ++ te :: ?a ++ ?b) with (pre ++ (te :: a) ++ b) in Heq.
      rewrite app_assoc in Heq.
      apply app_inj_2 in Heq as [Ha Hb]; [|simpl; lia].
      split; [rewrite Hs at 1; by rewrite Hb|exact (eq_sym Ha)]. }
    destruct Hsplit as (mid & -> & ->).
    apply Forall_app in H1 as [Hpre H1]. apply Forall_cons in H1 as [Hte Hmid].
    split; [assumption|]. split; [assumption|].
    exists mid, d, l2. repeat split; try assumption. lia.
Qed.

Lemma pending_app f c k pre suf :
  swept f c pre -> pending f c k suf -> pending f c k (pre ++ suf).
Proof.
  intros Hpre (l1 & d & l2 & -> & Hlen & Hd & Hid & H1 & H2).
  exists (pre ++ l1), d, l2. rewrite <- app_assoc.
  repeat split; try assumption. by apply Forall_app.
Qed.

Lemma pending_skip f c k pre te suf :
  pending f c (S k) (pre ++ te :: suf) -> length suf = k ->
  te_id te <> ECO_POLL_DELETED_EVENT_ID ->
  pending f c k (pre ++ te :: suf).
Proof.
  intros Hp Hk Hlive.
  destruct (pending_current _ _ _ _ _ _ Hp Hk)
    as [(_ & Hid & _)|(Hte & Hpre & Hsuf)]; [contradiction|].
  change (pre ++ te :: suf) with (pre ++ [te] ++ suf). rewrite app_assoc.
  apply pending_app; [|assumption].
  apply Forall_app. split; [assumption|]. by constructor.
Qed.

Lemma node_update_at (g : coTimeEvent -> coTimeEvent) pre te suf :
  node_update te (g te) ->
  Forall2 node_update (pre ++ te :: suf) (pre ++ g te :: suf).
Proof.
  intros Hg. apply Forall2_app; [apply Forall2_node_update_refl|].
  constructor; [assumption|apply Forall2_node_update_refl].
Qed.

Lemma fired_count_snoc i t x :
  fired_count i (t ++ [x])
  = fired_count i t + (if is_fire_of i x then 1 else 0).
Proof.
  unfold fired_count. rewrite List.filter_app, length_app. simpl.
  destruct (is_fire_of i x); simpl; lia.
Qed.

Lemma finalized_count_snoc f c t x :
  finalized_count f c (t ++ [x])
  = finalized_count f c t + (if is_finalize_of f c x then 1 else 0).
Proof.
  unfold finalized_count. rewrite List.filter_app, length_app. simpl.
  destruct (is_finalize_of f c x); simpl; lia.
Qed.

Lemma ids_update i l l' :
  0 <= i -> Forall2 node_update l l' ->
  Forall (fun te => te_id te <> i) l -> Forall (fun te => te_id te <> i) l'.
Proof.
  intros Hi. induction 1 as [|a b l l' Hab Hl IH]; intros Hs; [constructor|].
  apply Forall_cons in Hs as [Ha Hs]. constructor; [|auto].
  destruct Hab as (_ & _ & _ & [->| ->]); [assumption|].
  unfold ECO_POLL_DELETED_EVENT_ID. lia.
Qed.

(** *** What the calls keep *)

Lemma cancelled_action (E : environment) i t0 a w w' :
  cancelled i t0 w -> do_action E a w = Some w' -> cancelled i t0 w'.
Proof.
  intros (Hi & Hids & Hf) Ha.
  rewrite <- (do_action_trace _ _ _ _ Ha) in Hf.
  destruct (do_action_evolves E a w w' Ha)
    as [[Hup Hn]|(te & Ht & Hid & Hn & _)].
  - split; [lia|]. split; [|assumption].
    eapply ids_update; [|eassumption|assumption]. lia.
  - split; [lia|]. split; [|assumption].
    rewrite Ht. constructor; [lia|assumption].
Qed.

Lemma cancelled_timers i t0 w l :
  cancelled i t0 w -> Forall (fun te => te_id te <> i) l ->
  cancelled i t0 (set_w_timers l w).
Proof. intros (Hi & _ & Hf) Hl. by split. Qed.

Lemma cancelled_tick i t0 w : cancelled i t0 w -> cancelled i t0 (tick w).
Proof. intros H. exact H. Qed.

Lemma cancelled_record i t0 w x :
  cancelled i t0 w -> is_fire_of i x = false ->
  cancelled i t0 (record_call x w).
Proof.
  intros (Hi & Hids & Hf) Hx. split; [assumption|]. split; [assumption|].
  simpl. rewrite fired_count_snoc, Hx. lia.
Qed.

Lemma cancel_pending_action (E : environment) f c i t0 c0 k a w w' :
  ~ creates_pair f c a ->
  cancel_pending f c i t0 c0 k w -> do_action E a w = Some w' ->
  cancel_pending f c i t0 c0 k w'.
Proof.
  intros Hav (Hc & Hp & Hfin) Ha.
  split; [eapply cancelled_action; eassumption|].
  rewrite <- (do_action_trace _ _ _ _ Ha) in Hfin. split; [|assumption].
  destruct (do_action_evolves E a w w' Ha)
    as [[Hup Hn]|(te & -> & Hid & Hn & Hcr)].
  - eapply pending_update; eassumption.
  - apply pending_cons; [|assumption].
    unfold has_pair.
    destruct (Z.eqb_spec (te_finalizerProc te) f) as [He1|]; [|reflexivity].
    destruct (Z.eqb_spec (te_clientData te) c) as [He2|]; [|reflexivity].
    exfalso. apply Hav. by rewrite <- He1, <- He2.
Qed.

Lemma cancel_swept_action (E : environment) f c i t0 c0 a w w' :
  ~ creates_pair f c a ->
  cancel_swept f c i t0 c0 w -> do_action E a w = Some w' ->
  cancel_swept f c i t0 c0 w'.
Proof.
  intros Hav (Hc & Hp & Hfin) Ha.
  split; [eapply cancelled_action; eassumption|].
  rewrite <- (do_action_trace _ _ _ _ Ha) in Hfin. split; [|assumption].
  destruct (do_action_evolves E a w w' Ha)
    as [[Hup Hn]|(te & -> & Hid & Hn & Hcr)].
  - eapply swept_update; eassumption.
  - constructor; [|assumption].
    unfold has_pair.
    destruct (Z.eqb_spec (te_finalizerProc te) f) as [He1|]; [|reflexivity].
    destruct (Z.eqb_spec (te_clientData te) c) as [He2|]; [|reflexivity].
    exfalso. apply Hav. by rewrite <- He1, <- He2.
Qed.

Lemma cancel_phase_action (E : environment) f c i t0 c0 k a w w' :
  ~ creates_pair f c a ->
  cancel_phase f c i t0 c0 k w -> do_action E a w = Some w' ->
  cancel_phase f c i t0 c0 k w'.
Proof.
  intros Hav [H|H] Ha; [left|right];
    eauto using cancel_pending_action, cancel_swept_action.
Qed.

(** *** What the sweep does to the pending node *)

Lemma split_ids i (pre suf : list coTimeEvent) te :
  Forall (fun x => te_id x <> i) (pre ++ te :: suf) ->
  Forall (fun x => te_id x <> i) pre /\ te_id te <> i
  /\ Forall (fun x => te_id x <> i) suf.
Proof.
  intros H. apply Forall_app in H as [Hp H].
  apply Forall_cons in H as [Ht Hs]. auto.
Qed.

Lemma cancelled_unlink i t0 w pv pre te suf :
  cancelled i t0 w -> timeEventHead (w_poll w) = pre ++ te :: suf ->
  cancelled i t0 (set_w_timers (unlink pv pre suf) w).
Proof.
  intros Hc Hl. apply cancelled_timers; [assumption|].
  destruct Hc as (_ & Hids & _). rewrite Hl in Hids.
  apply split_ids in Hids as (Hp & _ & Hs).
  destruct (unlink_shape pv pre suf) as (pre' & -> & Hpre').
  apply Forall_app. auto.
Qed.

Lemma cancelled_node_update i t0 w pre te suf (g : coTimeEvent -> coTimeEvent) :
  cancelled i t0 w -> timeEventHead (w_poll w) = pre ++ te :: suf ->
  node_update te (g te) ->
  cancelled i t0 (set_w_timers (pre ++ g te :: suf) w).
Proof.
  intros Hc Hl Hg. apply cancelled_timers; [assumption|].
  destruct Hc as (Hi & Hids & _). rewrite Hl in Hids.
  eapply ids_update; [|apply node_update_at; eassumption|assumption]. lia.
Qed.

Lemma is_finalize_of_pair f c te :
  is_finalize_of f c (CallFinalizer (te_finalizerProc te) (te_clientData te))
  = has_pair f c te.
Proof. reflexivity. Qed.

Lemma sweep_loop_cancel (E : environment) f c i t0 c0 maxId k prev w w' n n' :
  env_avoids f c E ->
  cancel_phase f c i t0 c0 k w ->
  sweep_loop E maxId k prev w n = Some (w', n') ->
  cancel_swept f c i t0 c0 w'.
Proof.
  intros (_ & Hat & Haf) HJ Hs.
  assert (H0 : cancel_phase f c i t0 c0 0 w').
  { apply (sweep_loop_inv E (fun a => ~ creates_pair f c a) maxId
             (fun j x _ => cancel_phase f c i t0 c0 j x))
      with (k := k) (prev := prev) (w := w) (n := n) (n' := n'); auto.
    - intros j _ a x x' Hav Hx Ha. eapply cancel_phase_action; eassumption.
    - (* a node marked deleted is unlinked *)
      intros j pv x _ pre te suf Hx Hsp Hid.
      apply split_tail_Some in Hsp as [Hl Hj]. injection Hj as Hj.
      destruct Hx as [(Hc & Hp & Hfin)|(Hc & Hp & Hfin)].
      + rewrite Hl in Hp.
        destruct (pending_current _ _ _ _ _ _ Hp (eq_sym Hj))
          as [(Hte & _ & Hpre & Hsuf)|(Hte & Hpre & Hsuf)].
        * right.
          assert (Hsw : swept f c (unlink pv pre suf)).
          { destruct (unlink_shape pv pre suf) as (pre' & -> & Hpre').
            apply Forall_app. split; [exact (Hpre' _ Hpre)|assumption]. }
          pose proof Hte as Hte'. unfold has_pair in Hte'.
          apply andb_true_iff in Hte' as [Hf1 Hf2].
          apply Z.eqb_eq in Hf1, Hf2. unfold cancel_swept. simpl.
          rewrite Hf1, Hf2. destruct (f =? NULL).
          -- split; [eapply cancelled_unlink; eassumption|].
             split; [assumption|]. simpl. lia.
          -- split; [apply cancelled_record; [|reflexivity];
                     eapply cancelled_unlink; eassumption|].
             split; [assumption|]. simpl.
             rewrite finalized_count_snoc. simpl.
             rewrite !Z.eqb_refl. simpl. lia.
        * left.
          assert (Hpd : pending f c j (unlink pv pre suf)).
          { destruct (unlink_shape pv pre suf) as (pre' & -> & Hpre').
            apply pending_app; [exact (Hpre' _ Hpre)|assumption]. }
          simpl. destruct (te_finalizerProc te =? NULL).
          -- split; [eapply cancelled_unlink; eassumption|]. by split.
          -- split; [apply cancelled_record; [|reflexivity];
                     eapply cancelled_unlink; eassumption|].
             split; [assumption|]. simpl.
             rewrite finalized_count_snoc, is_finalize_of_pair, Hte. lia.
      + right. rewrite Hl in Hp.
        assert (Hte : has_pair f c te = false).
        { apply Forall_app in Hp as [_ Hp].
          by apply Forall_cons in Hp as [Hp _]. }
        assert (Hsw : swept f c (unlink pv pre suf)).
        { apply Forall_app in Hp as [Hpre Hp].
          apply Forall_cons in Hp as [_ Hsuf].
          destruct (unlink_shape pv pre suf) as (pre' & -> & Hpre').
          apply Forall_app. split; [exact (Hpre' _ Hpre)|assumption]. }
        simpl. destruct (te_finalizerProc te =? NULL).
        * split; [eapply cancelled_unlink; eassumption|]. by split.
        * split; [apply cancelled_record; [|reflexivity];
                  eapply cancelled_unlink; eassumption|].
          split; [assumption|]. simpl.
          rewrite finalized_count_snoc, is_finalize_of_pair, Hte. lia.
    - (* a node behind the fence is skipped *)
      intros j x _ pre te suf Hx Hsp Hlive _.
      apply split_tail_Some in Hsp as [Hl Hj]. injection Hj as Hj.
      destruct Hx as [(Hc & Hp & Hfin)|Hx]; [left|by right].
      split; [assumption|]. split; [|assumption].
      rewrite Hl in *. by apply pending_skip.
    - (* a node that is not due is passed *)
      intros j x _ pre te suf Hx Hsp Hlive _ _.
      apply split_tail_Some in Hsp as [Hl Hj]. injection Hj as Hj.
      destruct Hx as [(Hc & Hp & Hfin)|Hx]; [left|by right].
      split; [assumption|]. split; [|assumption].
      simpl. rewrite Hl in *. by apply pending_skip.
    - (* a due node fires *)
      intros j x _ pre te suf Hx Hsp Hlive _ _.
      apply split_tail_Some in Hsp as [Hl Hj]. injection Hj as Hj.
      assert (Hnot : forall t1, cancelled i t1 x ->
                is_fire_of i (CallTime (te_timeProc te) (te_id te)
                                (te_clientData te)) = false).
      { intros t1 (_ & Hids & _). rewrite Hl in Hids.
        apply split_ids in Hids as (_ & Hte & _). simpl.
        by apply Z.eqb_neq. }
      destruct Hx as [(Hc & Hp & Hfin)|(Hc & Hp & Hfin)]; [left|right].
      + split; [apply cancelled_record; [assumption|by eapply Hnot]|].
        split; [simpl; rewrite Hl in *; by apply pending_skip|].
        simpl. rewrite finalized_count_snoc. simpl. lia.
      + split; [apply cancelled_record; [assumption|by eapply Hnot]|].
        split; [assumption|].
        simpl. rewrite finalized_count_snoc. simpl. lia.
    - (* the node that fired is marked deleted *)
      intros j x _ pre te suf Hx Hsp.
      apply split_tail_Some in Hsp as [Hl Hj].
      assert (Hup : node_update te (set_te_id ECO_POLL_DELETED_EVENT_ID te))
        by (unfold node_update; simpl; auto).
      destruct Hx as [(Hc & Hp & Hfin)|(Hc & Hp & Hfin)]; [left|right].
      + split; [eapply cancelled_node_update; eassumption|].
        split; [|assumption]. simpl. rewrite Hl in Hp.
        eapply pending_update; [apply node_update_at|]; eassumption.
      + split; [eapply cancelled_node_update; eassumption|].
        split; [|assumption]. simpl. rewrite Hl in Hp.
        eapply swept_update; [apply node_update_at|]; eassumption.
    - (* the node that fired is rescheduled *)
      intros j x _ pre te suf s ms Hx Hsp.
      apply split_tail_Some in Hsp as [Hl Hj].
      assert (Hup : node_update te (set_te_when s ms te))
        by (unfold node_update; simpl; auto).
      destruct Hx as [(Hc & Hp & Hfin)|(Hc & Hp & Hfin)]; [left|right].
      + split; [by apply (cancelled_node_update i t0 x pre te suf
                            (set_te_when s ms))|].
        split; [|assumption]. simpl. rewrite Hl in Hp.
        eapply pending_update; [apply node_update_at|]; eassumption.
      + split; [by apply (cancelled_node_update i t0 x pre te suf
                            (set_te_when s ms))|].
        split; [|assumption]. simpl. rewrite Hl in Hp.
        eapply swept_update; [apply node_update_at|]; eassumption. }
  destruct H0 as [(_ & (l1 & d & l2 & _ & Hlen & _) & _)|H0]; [lia|assumption].
Qed.

(** *** The phases along a run *)

Lemma dispatch_cancel_pending (E : environment) f c i t0 c0 k fired w w' n n' :
  env_avoids f c E ->
  cancel_pending f c i t0 c0 k w ->
  dispatch E fired w n = Some (w', n') ->
  cancel_pending f c i t0 c0 k w'.
Proof.
  intros (Hfile & _) HJ Hd.
  apply (dispatch_inv E (fun a => ~ creates_pair f c a)
           (cancel_pending f c i t0 c0 k))
    with (fired := fired) (w := w) (n := n) (n' := n'); auto.
  - intros a x x' Hav Hx Ha. eapply cancel_pending_action; eassumption.
  - intros proc fd cd m x (Hc & Hp & Hfin).
    split; [by apply cancelled_record|]. split; [assumption|].
    simpl. rewrite finalized_count_snoc. simpl. lia.
Qed.

Lemma dispatch_cancel_swept (E : environment) f c i t0 c0 fired w w' n n' :
  env_avoids f c E ->
  cancel_swept f c i t0 c0 w ->
  dispatch E fired w n = Some (w', n') ->
  cancel_swept f c i t0 c0 w'.
Proof.
  intros (Hfile & _) HJ Hd.
  apply (dispatch_inv E (fun a => ~ creates_pair f c a)
           (cancel_swept f c i t0 c0))
    with (fired := fired) (w := w) (n := n) (n' := n'); auto.
  - intros a x x' Hav Hx Ha. eapply cancel_swept_action; eassumption.
  - intros proc fd cd m x (Hc & Hp & Hfin).
    split; [by apply cancelled_record|]. split; [assumption|].
    simpl. rewrite finalized_count_snoc. simpl. lia.
Qed.

Lemma guard_update now p :
  Forall2 node_update (timeEventHead p)
          (timeEventHead (clock_skew_guard now p))
  /\ timeEventNextId (clock_skew_guard now p) = timeEventNextId p.
Proof.
  unfold clock_skew_guard. destruct (now <? lastTime p); simpl.
  - split; [|reflexivity].
    induction (timeEventHead p); constructor; [|assumption].
    unfold node_update. simpl. auto.
  - split; [apply Forall2_node_update_refl|reflexivity].
Qed.

Lemma cancelled_guard i t0 w now :
  cancelled i t0 w ->
  cancelled i t0 (set_w_poll (clock_skew_guard now (w_poll w)) (tick w)).
Proof.
  intros (Hi & Hids & Hf).
  destruct (guard_update now (w_poll w)) as [Hup Hn].
  unfold cancelled. cbn [w_poll set_w_poll tick w_trace]. rewrite Hn.
  split; [assumption|]. split; [|assumption].
  eapply ids_update; [|eassumption|assumption]. lia.
Qed.

Lemma processTimeEvents_cancel (E : environment) f c i t0 c0 k w w' n :
  env_avoids f c E ->
  cancel_phase f c i t0 c0 k w ->
  processTimeEvents E w = Some (w', n) ->
  cancel_swept f c i t0 c0 w'.
Proof.
  intros Henv HJ Hp. unfold processTimeEvents in Hp.
  eapply sweep_loop_cancel; [eassumption| |exact Hp].
  destruct (guard_update (time_null E (w_tick w)) (w_poll w)) as [Hup Hn].
  destruct HJ as [(Hc & Hpd & Hfin)|(Hc & Hsw & Hfin)]; [left|right].
  - split; [by apply cancelled_guard|]. split; [|assumption].
    cbn [w_poll set_w_poll]. eapply pending_full, pending_update; eassumption.
  - split; [by apply cancelled_guard|]. split; [|assumption].
    cbn [w_poll set_w_poll]. eapply swept_update; eassumption.
Qed.

(** The part of [eco_poll_process_events] before the sweep. *)
Lemma process_events_split (E : environment) w flags timeout w' n :
  eco_poll_process_events E w flags timeout = Some (w', n) ->
  exists fired w0 w1 n1,
    w_poll w0 = w_poll w /\ w_trace w0 = w_trace w
    /\ dispatch E fired w0 0 = Some (w1, n1)
    /\ if negb (Z.land flags ECO_POLL_TIME_EVENTS =? 0)
       then exists n2, processTimeEvents E w1 = Some (w', n2)
       else w' = w1.
Proof.
  unfold eco_poll_process_events.
  set (want_time := negb (Z.land flags ECO_POLL_TIME_EVENTS =? 0)).
  set (want_file := negb (Z.land flags ECO_POLL_FILE_EVENTS =? 0)).
  destruct (negb want_time && negb want_file) eqn:Hnone.
  { intros [= <- <-]. exists [], w, w, 0.
    apply andb_true_iff in Hnone as [Hnt _].
    destruct want_time; [discriminate|]. auto. }
  match goal with |- context [if ?b then dispatch E ?fi ?x 0 else _] =>
    set (polls := b); set (fired := fi); set (w0 := x) end.
  intros H.
  assert (Hw0 : w_poll w0 = w_poll w /\ w_trace w0 = w_trace w).
  { subst w0. by destruct (if want_time && negb (timeout =? 0)
                           then aeSearchNearestTimer (w_poll w) else None). }
  destruct polls.
  - destruct (dispatch E fired w0 0) as [[w1 n1]|] eqn:Hd; [|discriminate].
    simpl in H. exists fired, w0, w1, n1.
    split; [tauto|]. split; [tauto|]. split; [assumption|].
    destruct want_time.
    + destruct (processTimeEvents E w1) as [[w2 n2]|]; [|discriminate].
      simpl in H. injection H as <- _. by exists n2.
    + by injection H as <- _.
  - simpl in H. exists [], w, w, 0.
    split; [reflexivity|]. split; [reflexivity|]. split; [reflexivity|].
    destruct want_time.
    + destruct (processTimeEvents E w) as [[w2 n2]|]; [|discriminate].
      simpl in H. injection H as <- _. by exists n2.
    + by injection H as <- _.
Qed.

Lemma same_loop_cancel_pending f c i t0 c0 k w w0 :
  w_poll w0 = w_poll w -> w_trace w0 = w_trace w ->
  cancel_pending f c i t0 c0 k w -> cancel_pending f c i t0 c0 k w0.
Proof.
  unfold cancel_pending, cancelled. intros -> ->. auto.
Qed.

Lemma same_loop_cancel_swept f c i t0 c0 w w0 :
  w_poll w0 = w_poll w -> w_trace w0 = w_trace w ->
  cancel_swept f c i t0 c0 w -> cancel_swept f c i t0 c0 w0.
Proof.
  unfold cancel_swept, cancelled. intros -> ->. auto.
Qed.

Lemma do_call_cancel_pending (E : environment) f c i t0 c0 k x w w' :
  env_avoids f c E ->
  match x with Api a => ~ creates_pair f c a | ProcessEvents _ _ => True end ->
  cancel_pending f c i t0 c0 k w ->
  do_call E x w = Some w' ->
  if sweeps x then cancel_swept f c i t0 c0 w'
  else cancel_pending f c i t0 c0 k w'.
Proof.
  intros Henv Hav HJ Hc. destruct x as [a|flags timeout]; simpl in *.
  - eapply cancel_pending_action; eassumption.
  - destruct (eco_poll_process_events E w flags timeout) as [[w2 n]|] eqn:Hp;
      [simpl in Hc|discriminate].
    injection Hc as <-.
    apply process_events_split in Hp
      as (fired & w0 & w1 & n1 & Hp0 & Ht0 & Hd & Hrest).
    assert (H1 : cancel_pending f c i t0 c0 k w1).
    { eapply dispatch_cancel_pending; [eassumption| |exact Hd].
      eapply same_loop_cancel_pending; eassumption. }
    destruct (negb (Z.land flags ECO_POLL_TIME_EVENTS =? 0)).
    + destruct Hrest as [n2 Hs].
      eapply processTimeEvents_cancel; [eassumption| |exact Hs].
      left. exact H1.
    + by subst w2.
Qed.

Lemma do_call_cancel_swept (E : environment) f c i t0 c0 x w w' :
  env_avoids f c E ->
  match x with Api a => ~ creates_pair f c a | ProcessEvents _ _ => True end ->
  cancel_swept f c i t0 c0 w ->
  do_call E x w = Some w' ->
  cancel_swept f c i t0 c0 w'.
Proof.
  intros Henv Hav HJ Hc. destruct x as [a|flags timeout]; simpl in *.
  - eapply cancel_swept_action; eassumption.
  - destruct (eco_poll_process_events E w flags timeout) as [[w2 n]|] eqn:Hp;
      [simpl in Hc|discriminate].
    injection Hc as <-.
    apply process_events_split in Hp
      as (fired & w0 & w1 & n1 & Hp0 & Ht0 & Hd & Hrest).
    assert (H1 : cancel_swept f c i t0 c0 w1).
    { eapply dispatch_cancel_swept; [eassumption| |exact Hd].
      eapply same_loop_cancel_swept; eassumption. }
    destruct (negb (Z.land flags ECO_POLL_TIME_EVENTS =? 0)).
    + destruct Hrest as [n2 Hs].
      eapply (processTimeEvents_cancel E f c i t0 c0 0);
        [eassumption| |exact Hs].
      right. exact H1.
    + by subst w2.
Qed.

Lemma run_calls_cancel_swept (E : environment) f c i t0 c0 cs w w' :
  env_avoids f c E -> calls_avoid f c cs ->
  cancel_swept f c i t0 c0 w ->
  run_calls E cs w = Some w' ->
  cancel_swept f c i t0 c0 w'.
Proof.
  intros Henv Hcs. revert w.
  induction Hcs as [|x cs Hx Hcs IH]; intros w HJ Hr; simpl in Hr.
  - by injection Hr as <-.
  - destruct (do_call E x w) as [w1|] eqn:Hc; [simpl in Hr|discriminate].
    eapply IH; [|exact Hr]. eapply do_call_cancel_swept; eassumption.
Qed.

Lemma run_calls_cancel_pending (E : environment) f c i t0 c0 k cs w w' :
  env_avoids f c E -> calls_avoid f c cs ->
  cancel_pending f c i t0 c0 k w ->
  run_calls E cs w = Some w' ->
  if has_sweep cs then cancel_swept f c i t0 c0 w'
  else cancel_pending f c i t0 c0 k w'.
Proof.
  intros Henv Hcs. revert w.
  induction Hcs as [|x cs Hx Hcs IH]; intros w HJ Hr; simpl in Hr.
  - by injection Hr as <-.
  - destruct (do_call E x w) as [w1|] eqn:Hc; [simpl in Hr|discriminate].
    pose proof (do_call_cancel_pending E f c i t0 c0 k x w w1 Henv Hx HJ Hc)
      as H1.
    unfold has_sweep. simpl. destruct (sweeps x); simpl.
    + eapply run_calls_cancel_swept; eassumption.
    + eapply IH; eassumption.
Qed.

(** *** Ids *)

Lemma ids_below_mono b b' l : b <= b' -> ids_below b l -> ids_below b' l.
Proof.
  revert b b'. induction l as [|te l IH]; intros b b' Hb H; simpl in *; [exact I|].
  destruct (te_id te =? ECO_POLL_DELETED_EVENT_ID); [eauto|].
  destruct H as [Hr H]. split; [lia|assumption].
Qed.

Lemma ids_below_bound b l :
  ids_below b l ->
  Forall (fun te => te_id te = ECO_POLL_DELETED_EVENT_ID
                    \/ 0 <= te_id te < b) l.
Proof.
  revert b. induction l as [|te l IH]; intros b H; simpl in *; [constructor|].
  destruct (Z.eqb_spec (te_id te) ECO_POLL_DELETED_EVENT_ID) as [Hd|Hl].
  - constructor; [by left|auto].
  - destruct H as [Hr H]. constructor; [by right|].
    apply IH. eapply ids_below_mono; [|eassumption]. lia.
Qed.

(** A live id occurs once in the list. *)
Lemma ids_below_unique b l1 x l2 :
  ids_below b (l1 ++ x :: l2) ->
  te_id x <> ECO_POLL_DELETED_EVENT_ID ->
  0 <= te_id x < b
  /\ Forall (fun te => te_id te <> te_id x) l1
  /\ Forall (fun te => te_id te <> te_id x) l2.
Proof.
  intros H Hlive. revert b H.
  induction l1 as [|a l1 IH]; intros b H; simpl in H.
  - destruct (Z.eqb_spec (te_id x) ECO_POLL_DELETED_EVENT_ID); [contradiction|].
    destruct H as [Hr H]. split; [assumption|]. split; [constructor|].
    apply ids_below_bound in H. eapply Forall_impl; [exact H|].
    intros te [Hd|Hlt]; simpl in *; [congruence|lia].
  - destruct (Z.eqb_spec (te_id a) ECO_POLL_DELETED_EVENT_ID) as [Hd|Hl].
    + destruct (IH b H) as (Hr & H1 & H2).
      split; [assumption|]. split; [|assumption].
      constructor; [congruence|assumption].
    + destruct H as [Hra H]. destruct (IH _ H) as (Hr & H1 & H2).
      split; [lia|]. split; [|assumption].
      constructor; [lia|assumption].
Qed.

Lemma mark_deleted_first i l1 x l2 :
  Forall (fun te => te_id te <> i) l1 -> te_id x = i ->
  mark_deleted (l1 ++ x :: l2) i
  = Some (l1 ++ set_te_id ECO_POLL_DELETED_EVENT_ID x :: l2).
Proof.
  intros H1 Hx. induction H1 as [|a l1 Ha H1 IH]; simpl.
  - rewrite Hx, Z.eqb_refl. reflexivity.
  - destruct (Z.eqb_spec (te_id a) i); [contradiction|]. by rewrite IH.
Qed.

Lemma mark_deleted_absent i l :
  Forall (fun te => te_id te <> i) l -> mark_deleted l i = None.
Proof.
  induction 1 as [|a l Ha H IH]; simpl; [reflexivity|].
  destruct (Z.eqb_spec (te_id a) i); [contradiction|]. by rewrite IH.
Qed.

Lemma ids_below_update b l l' :
  Forall2 node_update l l' -> ids_below b l -> ids_below b l'.
Proof.
  intros HF. revert b. induction HF as [|x y l l' Hxy HF IH]; intros b H;
    [exact I|].
  simpl in *. destruct Hxy as (_ & _ & _ & Hid).
  destruct (Z.eqb_spec (te_id x) ECO_POLL_DELETED_EVENT_ID) as [Hx|Hx].
  - assert (Hy : te_id y = ECO_POLL_DELETED_EVENT_ID)
      by (destruct Hid; congruence).
    rewrite Hy. simpl. auto.
  - destruct H as [Hr H]. destruct Hid as [Hy|Hy]; rewrite Hy.
    + destruct (Z.eqb_spec (te_id x) ECO_POLL_DELETED_EVENT_ID);
        [contradiction|]. auto.
    + simpl. apply IH. eapply ids_below_mono; [|eassumption]. lia.
Qed.

Lemma ids_below_sublist b (l l' : list coTimeEvent) :
  l' `sublist_of` l -> ids_below b l -> ids_below b l'.
Proof.
  intros Hs. revert b. induction Hs as [|x l1 l2 Hs IH|x l1 l2 Hs IH];
    intros b H; simpl in *.
  - exact I.
  - destruct (te_id x =? ECO_POLL_DELETED_EVENT_ID); [auto|].
    destruct H as [Hr H]. auto.
  - destruct (te_id x =? ECO_POLL_DELETED_EVENT_ID); [auto|].
    destruct H as [Hr H]. eapply ids_below_mono; [|apply IH; eassumption].
    lia.
Qed.

Lemma unlink_sublist pv (pre suf : list coTimeEvent) te :
  unlink pv pre suf `sublist_of` pre ++ te :: suf.
Proof.
  destruct pv as [g|]; simpl.
  - apply sublist_app; [apply sublist_take|by apply sublist_cons].
  - by apply sublist_inserts_l, sublist_cons.
Qed.

Lemma ids_issued_action (E : environment) a w w' :
  ids_issued w -> do_action E a w = Some w' -> ids_issued w'.
Proof.
  intros [H0 H] Ha.
  destruct (do_action_evolves E a w w' Ha)
    as [[Hup Hn]|(te & Ht & Hid & Hn & _)]; split; try lia.
  - eapply ids_below_mono; [exact Hn|]. eapply ids_below_update; eassumption.
  - rewrite Ht, Hn. simpl. rewrite Hid.
    destruct (Z.eqb_spec (timeEventNextId (w_poll w))
                ECO_POLL_DELETED_EVENT_ID) as [He|_].
    + unfold ECO_POLL_DELETED_EVENT_ID in He. lia.
    + split; [lia|assumption].
Qed.

Lemma ids_issued_sweep (E : environment) maxId k prev w w' n n' :
  ids_issued w -> sweep_loop E maxId k prev w n = Some (w', n') ->
  ids_issued w'.
Proof.
  intros HJ Hs.
  apply (sweep_loop_inv E (fun _ => True) maxId (fun _ x _ => ids_issued x))
    with (k := k) (prev := prev) (w := w) (n := n) (n' := n'); auto.
  - intros. apply Forall_forall. auto.
  - intros. apply Forall_forall. auto.
  - intros j m a x x' _ Hx Ha. eapply ids_issued_action; eassumption.
  - intros j pv x m pre te suf [H0 H] Hsp _.
    apply split_tail_Some in Hsp as [Hl _].
    assert (Hi : ids_issued (set_w_timers (unlink pv pre suf) x)).
    { split; [assumption|]. simpl.
      eapply ids_below_sublist; [apply (unlink_sublist pv pre suf te)|].
      by rewrite <- Hl. }
    simpl. by destruct (te_finalizerProc te =? NULL).
  - intros j x m pre te suf [H0 H] Hsp.
    apply split_tail_Some in Hsp as [Hl _].
    split; [assumption|]. simpl. rewrite Hl in H.
    eapply ids_below_update; [|exact H].
    apply (node_update_at (set_te_id ECO_POLL_DELETED_EVENT_ID)).
    unfold node_update. simpl. auto.
  - intros j x m pre te suf s ms [H0 H] Hsp.
    apply split_tail_Some in Hsp as [Hl _].
    split; [assumption|]. simpl. rewrite Hl in H.
    eapply ids_below_update; [|exact H].
    apply (node_update_at (set_te_when s ms)).
    unfold node_update. simpl. auto.
Qed.

Lemma ids_issued_call (E : environment) x w w' :
  ids_issued w -> do_call E x w = Some w' -> ids_issued w'.
Proof.
  intros HJ Hc. destruct x as [a|flags timeout]; simpl in Hc.
  - eapply ids_issued_action; eassumption.
  - destruct (eco_poll_process_events E w flags timeout) as [[w2 n]|] eqn:Hp;
      [simpl in Hc|discriminate].
    injection Hc as <-.
    apply process_events_split in Hp
      as (fired & w0 & w1 & n1 & Hp0 & Ht0 & Hd & Hrest).
    assert (H1 : ids_issued w1).
    { apply (dispatch_inv E (fun _ => True) ids_issued)
        with (fired := fired) (w := w0) (n := 0) (n' := n1); auto.
      - intros. apply Forall_forall. auto.
      - intros a y y' _ Hy Ha. eapply ids_issued_action; eassumption.
      - unfold ids_issued. by rewrite Hp0. }
    destruct (negb (Z.land flags ECO_POLL_TIME_EVENTS =? 0)).
    + destruct Hrest as [n2 Hs]. unfold processTimeEvents in Hs.
      eapply ids_issued_sweep; [|exact Hs].
      destruct H1 as [H0 H1].
      destruct (guard_update (time_null E (w_tick w1)) (w_poll w1))
        as [Hup Hn].
      unfold ids_issued. cbn [w_poll set_w_poll]. rewrite Hn.
      split; [assumption|]. eapply ids_below_update; eassumption.
    + by subst w2.
Qed.

(** In every run from a freshly created loop the ids in the timer list are
    as the creations issued them. *)
Lemma ids_issued_reachable (E : environment) size raw now t cs p0 w :
  eco_poll_create size raw now true true = Some p0 ->
  run_calls E cs (mkWorld p0 t []) = Some w ->
  ids_issued w.
Proof.
  intros Hc Hr.
  assert (H0 : ids_issued (mkWorld p0 t [])).
  { unfold eco_poll_create in Hc. simpl in Hc. injection Hc as <-.
    split; simpl; [lia|exact I]. }
  clear Hc. revert H0 Hr. generalize (mkWorld p0 t []) as w0.
  induction cs as [|x cs IH]; intros w0 H0 Hr; simpl in Hr.
  - by injection Hr as <-.
  - destruct (do_call E x w0) as [w1|] eqn:Hc; [simpl in Hr|discriminate].
    eapply IH; [|exact Hr]. eapply ids_issued_call; eassumption.
Qed.

(** A timer [x] that is live in the list when the embedding program
    cancels it, in a state with ids as creations issue them (see
    [ids_issued_reachable]), [x] being the only node with its finalizer and
    client data and no later call creating another: the first cancellation
    succeeds and only marks the node, a second one reports a failure and
    changes nothing; and in every run that follows, no timer callback is
    called with the id, and the finalizer of [x], when it has one, is
    called exactly once, by the first sweep of the run, which removes the
    node; until a sweep runs the node stays in the list, marked.  A marked
    node is called with no id at all, see [sentinel_id_never_fires]. *)
Lemma cancelled_timer_is_finalized_once (E : environment) (w w' : world)
    (l1 l2 : list coTimeEvent) (x : coTimeEvent) (cs : list call) :
  ids_issued w ->
  timeEventHead (w_poll w) = l1 ++ x :: l2 ->
  te_id x <> ECO_POLL_DELETED_EVENT_ID ->
  swept (te_finalizerProc x) (te_clientData x) (l1 ++ l2) ->
  env_avoids (te_finalizerProc x) (te_clientData x) E ->
  calls_avoid (te_finalizerProc x) (te_clientData x) cs ->
  let r1 := eco_poll_time_event_delete (w_poll w) (te_id x) in
  let r2 := eco_poll_time_event_delete (fst r1) (te_id x) in
  snd r1 = ES_SUCCESS
  /\ timeEventHead (fst r1)
     = l1 ++ set_te_id ECO_POLL_DELETED_EVENT_ID x :: l2
  /\ snd r2 = ES_FAILURE /\ fst r2 = fst r1
  /\ (run_calls E cs (set_w_poll (fst r1) w) = Some w' ->
      fired_count (te_id x) (w_trace w') = fired_count (te_id x) (w_trace w)
      /\ finalized_count (te_finalizerProc x) (te_clientData x) (w_trace w')
         = finalized_count (te_finalizerProc x) (te_clientData x) (w_trace w)
           + (if has_sweep cs && negb (te_finalizerProc x =? NULL)
              then 1 else 0)
      /\ if has_sweep cs
         then swept (te_finalizerProc x) (te_clientData x)
                    (timeEventHead (w_poll w'))
         else pending (te_finalizerProc x) (te_clientData x)
                      (S (length l2)) (timeEventHead (w_poll w'))).
Proof.
  intros [_ Hids] Hl Hlive Hsw Henv Hcs r1 r2.
  rewrite Hl in Hids.
  destruct (ids_below_unique _ _ _ _ Hids Hlive) as (Hr & H1 & H2).
  set (x' := set_te_id ECO_POLL_DELETED_EVENT_ID x).
  assert (Hr1 : r1 = (set_timeEventHead (l1 ++ x' :: l2) (w_poll w),
                      ES_SUCCESS)).
  { subst r1. unfold eco_poll_time_event_delete.
    rewrite Hl, (mark_deleted_first (te_id x) l1 x l2 H1 eq_refl).
    reflexivity. }
  assert (Hnone : Forall (fun te => te_id te <> te_id x) (l1 ++ x' :: l2)).
  { apply Forall_app. split; [assumption|].
    constructor; [|assumption]. simpl. congruence. }
  assert (Hr2 : r2 = (fst r1, ES_FAILURE)).
  { subst r2. rewrite Hr1. unfold eco_poll_time_event_delete. simpl.
    by rewrite (mark_deleted_absent _ _ Hnone). }
  rewrite Hr2, Hr1. simpl.
  split; [reflexivity|]. split; [reflexivity|].
  split; [reflexivity|]. split; [reflexivity|].
  intros Hrun.
  assert (Hpair : has_pair (te_finalizerProc x) (te_clientData x) x' = true).
  { unfold has_pair. simpl. by rewrite !Z.eqb_refl. }
  apply Forall_app in Hsw as [Hs1 Hs2].
  assert (HJ : cancel_pending (te_finalizerProc x) (te_clientData x) (te_id x)
                 (fired_count (te_id x) (w_trace w))
                 (finalized_count (te_finalizerProc x) (te_clientData x)
                    (w_trace w))
                 (S (length l2))
                 (set_w_poll (set_timeEventHead (l1 ++ x' :: l2) (w_poll w))
                    w)).
  { split; [by split|]. split; [|reflexivity].
    exists l1, x', l2. repeat split; try assumption. simpl. lia. }
  pose proof (run_calls_cancel_pending E _ _ _ _ _ _ cs _ w' Henv Hcs HJ Hrun)
    as Hend.
  destruct (has_sweep cs); simpl.
  - destruct Hend as ((_ & _ & Hf) & Hswept & Hfin).
    split; [assumption|]. split; [|assumption].
    rewrite Hfin. by destruct (te_finalizerProc x =? NULL).
  - destruct Hend as ((_ & _ & Hf) & Hpend & Hfin).
    split; [assumption|]. split; [|assumption]. lia.
Qed.

(** The timer 1 of [three_timers], cancelled before [two_sweeps]: it never
    fires and its finalizer runs once. *)
Lemma cancelled_timer_is_finalized_once_witness :
  exists w',
    run_calls quiet_env two_sweeps
      (set_w_poll (fst (eco_poll_time_event_delete three_timers 1))
                  (mkWorld three_timers 0 [])) = Some w'
    /\ w_trace w'
       = [CallFile 10 1 0 3; CallFinalizer 200 7; CallFile 10 1 0 3]
    /\ map te_id (timeEventHead (w_poll w')) = [2; 0]
    /\ snd (eco_poll_time_event_delete three_timers 1) = ES_SUCCESS
    /\ snd (eco_poll_time_event_delete
              (fst (eco_poll_time_event_delete three_timers 1)) 1)
       = ES_FAILURE
    /\ fired_count 1 (w_trace w') = fired_count 1 []
    /\ finalized_count 200 7 (w_trace w') = finalized_count 200 7 [] + 1.
Proof.
  eexists. split; [vm_compute; reflexivity|].
  split; [reflexivity|]. split; [reflexivity|].
  match goal with |- context [fired_count 1 (w_trace ?w')] =>
    pose proof (cancelled_timer_is_finalized_once quiet_env
                  (mkWorld three_timers 0 []) w'
                  [timer_at 2 900 0] [timer_at 0 800 500]
                  (mkTimeEvent 1 0 0 100 200 7) two_sweeps) as H
  end.
  simpl in H.
  destruct H as (H1 & _ & H2 & _ & H3).
  - cbv. intuition discriminate.
  - reflexivity.
  - discriminate.
  - repeat constructor.
  - repeat split; intros; constructor.
  - repeat constructor. intros [].
  - split; [exact H1|]. split; [exact H2|].
    destruct (H3 eq_refl) as (Hf & Hfin & _). split; [exact Hf|exact Hfin].
Defined.

(** ** The id counter *)

Lemma next_id_action (E : environment) b a w w' :
  b <= timeEventNextId (w_poll w) -> do_action E a w = Some w' ->
  b <= timeEventNextId (w_poll w').
Proof.
  intros Hb Ha.
  destruct (do_action_evolves E a w w' Ha) as [[_ Hn]|(te & _ & _ & Hn & _)];
    lia.
Qed.

Lemma next_id_call (E : environment) b x w w' :
  b <= timeEventNextId (w_poll w) -> do_call E x w = Some w' ->
  b <= timeEventNextId (w_poll w').
Proof.
  intros Hb Hc. destruct x as [a|flags timeout]; simpl in Hc.
  - eapply next_id_action; eassumption.
  - destruct (eco_poll_process_events E w flags timeout) as [[w2 n]|] eqn:Hp;
      [simpl in Hc|discriminate].
    injection Hc as <-.
    apply process_events_split in Hp
      as (fired & w0 & w1 & n1 & Hp0 & Ht0 & Hd & Hrest).
    assert (H1 : b <= timeEventNextId (w_poll w1)).
    { apply (dispatch_inv E (fun _ => True)
               (fun y => b <= timeEventNextId (w_poll y)))
        with (fired := fired) (w := w0) (n := 0) (n' := n1); auto.
      - intros. apply Forall_forall. auto.
      - intros a y y' _ Hy Ha. eapply next_id_action; eassumption.
      - by rewrite Hp0. }
    destruct (negb (Z.land flags ECO_POLL_TIME_EVENTS =? 0)).
    + destruct Hrest as [n2 Hs]. unfold processTimeEvents in Hs.
      apply (sweep_loop_inv E (fun _ => True) _
               (fun _ y _ => b <= timeEventNextId (w_poll y))) in Hs; auto.
      * intros. apply Forall_forall. auto.
      * intros. apply Forall_forall. auto.
      * intros j m a y y' _ Hy Ha. eapply next_id_action; eassumption.
      * intros j pv y m pre te suf Hy _ _. simpl.
        by destruct (te_finalizerProc te =? NULL).
      * cbn [w_poll set_w_poll].
        by rewrite (proj2 (guard_update _ _)).
    + by subst w2.
Qed.

Lemma next_id_never_decreases (E : environment) cs w w' :
  run_calls E cs w = Some w' ->
  timeEventNextId (w_poll w) <= timeEventNextId (w_poll w').
Proof.
  assert (H : forall b, b <= timeEventNextId (w_poll w) ->
                        run_calls E cs w = Some w' ->
                        b <= timeEventNextId (w_poll w')).
  { revert w. induction cs as [|x cs IH]; intros w b Hb Hr; simpl in Hr.
    - by injection Hr as <-.
    - destruct (do_call E x w) as [w1|] eqn:Hc; [simpl in Hr|discriminate].
      eapply IH; [|exact Hr]. eapply next_id_call; eassumption. }
  intros Hr. apply (H _ (Z.le_refl _) Hr).
Qed.

(** C10.  [eco_poll_time_event_create] advances [timeEventNextId] by exactly
    one whether or not the node can be allocated.  When the allocation fails
    the call returns [ES_FAILURE] and the timer list is unchanged, the
    counter staying advanced: a creation that succeeds, one that fails and
    one that succeeds return the ids [n] and [n + 2]; and no run ever
    lowers the counter. *)
Theorem time_event_create_consumes_id (p : co_poll_t) (tv tv' : Z * Z)
    (ms proc cd fin ms' proc' cd' fin' : Z) :
  (forall ok,
      timeEventNextId
        (fst (eco_poll_time_event_create p tv ms proc cd fin ok))
      = timeEventNextId p + 1)
  /\ eco_poll_time_event_create p tv ms proc cd fin false
     = (set_timeEventNextId (timeEventNextId p + 1) p, inr ES_FAILURE)
  /\ timeEventHead
       (fst (eco_poll_time_event_create p tv ms proc cd fin false))
     = timeEventHead p
  /\ (let r1 := eco_poll_time_event_create p tv ms proc cd fin true in
      let r2 := eco_poll_time_event_create (fst r1) tv ms proc cd fin false in
      let r3 :=
        eco_poll_time_event_create (fst r2) tv' ms' proc' cd' fin' true in
      snd r1 = inl (timeEventNextId p)
      /\ snd r2 = inr ES_FAILURE
      /\ snd r3 = inl (timeEventNextId p + 2)
      /\ map te_id (timeEventHead (fst r3))
         = timeEventNextId p + 2 :: timeEventNextId p
           :: map te_id (timeEventHead p))
  /\ (forall (E : environment) (cs : list call) (w w' : world),
        run_calls E cs w = Some w' ->
        timeEventNextId (w_poll w) <= timeEventNextId (w_poll w')).
Proof.
  split; [|split; [|split; [|split]]]; [| | | |apply next_id_never_decreases].
  all: unfold eco_poll_time_event_create.
  all: destruct (aeAddMillisecondsToNow tv ms) as [s1 m1] eqn:E1.
  all: destruct (aeAddMillisecondsToNow tv' ms') as [s2 m2] eqn:E2.
  - intros [|]; simpl; rewrite ?E1; reflexivity.
  - reflexivity.
  - reflexivity.
  - simpl. rewrite ?E1, ?E2. simpl. repeat split; f_equal; lia.
Qed.

(** ** The sweep after a clock regression *)

Lemma guard_resets_deadlines now p :
  now < lastTime p ->
  timeEventHead (clock_skew_guard now p)
  = map (set_te_when_sec 0) (timeEventHead p).
Proof.
  intros H. unfold clock_skew_guard.
  destruct (Z.ltb_spec now (lastTime p)); [reflexivity|lia].
Qed.

(** C7.  When the sweep reads a time earlier than [lastTime], the guard sets
    the seconds of every deadline to zero before the loop starts, so that
    every timer is due at any reading of the clock with positive seconds;
    and in that same sweep every timer that is not marked deleted fires,
    once and in list order, the callbacks of the sweep cancelling no timer
    and not forcing deadlines.  ([ids_issued] holds in every run from a
    fresh loop, see [ids_issued_reachable].) *)
Theorem clock_regression_fires_all (E : environment) (w w' : world) (n : Z) :
  time_null E (w_tick w) < lastTime (w_poll w) ->
  (forall t, 0 < fst (gettimeofday E t)) ->
  timers_passive E ->
  ids_issued w ->
  processTimeEvents E w = Some (w', n) ->
  let guarded :=
    timeEventHead (clock_skew_guard (time_null E (w_tick w)) (w_poll w)) in
  Forall (fun te => te_when_sec te = 0) guarded
  /\ (forall te t, In te guarded ->
                   is_due (aeGetTime (gettimeofday E t)) te = true)
  /\ time_calls (w_trace w')
     = time_calls (w_trace w)
       ++ map fire_call (List.filter is_live (timeEventHead (w_poll w)))
  /\ n = Z.of_nat (length (List.filter is_live (timeEventHead (w_poll w)))).
Proof.
  intros Hnow Hclock Hpass [Hn0 Hbelow] Hp guarded.
  assert (Hids : Forall (fun te => te_id te < timeEventNextId (w_poll w))
                        (timeEventHead (w_poll w))).
  { apply ids_below_bound in Hbelow. eapply Forall_impl; [exact Hbelow|].
    intros te [->|Hr]; simpl; [unfold ECO_POLL_DELETED_EVENT_ID|]; lia. }
  assert (Hg : guarded = map (set_te_when_sec 0) (timeEventHead (w_poll w)))
    by (apply guard_resets_deadlines; assumption).
  assert (Hzero : Forall (fun te => te_when_sec te = 0) guarded).
  { rewrite Hg. apply Forall_forall. intros te Hin.
    apply list_elem_of_fmap in Hin as (te0 & -> & _). reflexivity. }
  split; [assumption|]. split.
  { intros te t Hin. apply list_elem_of_In in Hin.
    rewrite Forall_forall in Hzero. specialize (Hzero _ Hin).
    unfold is_due, aeGetTime. simpl. rewrite Hzero.
    pose proof (Hclock t). apply orb_true_iff. left. lia. }
  unfold processTimeEvents in Hp. fold guarded in Hp.
  apply (sweep_fires_all E guarded (time_calls (w_trace w))) in Hp;
    [|assumption|assumption| |].
  - destruct Hp as (pre & done & todo & HL & Hlen & _ & Hc & Hm).
    destruct todo; [|discriminate]. rewrite app_nil_r in HL. subst done.
    rewrite Hg in Hc, Hm. rewrite filter_live_guard in Hc.
    split; [assumption|].
    rewrite Hm. rewrite <- (length_map fire_call), filter_live_guard.
    by rewrite length_map.
  - rewrite Hg. apply Forall_forall. intros te Hin.
    apply list_elem_of_fmap in Hin as (te0 & -> & Hin0).
    split; [reflexivity|].
    rewrite Forall_forall in Hids. specialize (Hids _ Hin0).
    unfold clock_skew_guard. simpl.
    destruct (time_null E (w_tick w) <? lastTime (w_poll w)); simpl; lia.
  - exists [], [], guarded. simpl. rewrite app_nil_r. auto.
Qed.

(** A sweep that finds the clock four seconds behind, over three timers of
    which the middle one is marked deleted: the two others fire. *)
Lemma clock_regression_fires_all_witness :
  exists w' n,
    processTimeEvents quiet_env (mkWorld late_timers 0 []) = Some (w', n)
    /\ time_calls (w_trace w') = [CallTime 100 2 0; CallTime 100 0 0]
    /\ n = 2
    /\ let guarded :=
         timeEventHead
           (clock_skew_guard (time_null quiet_env 0) late_timers) in
       Forall (fun te => te_when_sec te = 0) guarded
       /\ (forall te t, In te guarded ->
                        is_due (aeGetTime (gettimeofday quiet_env t)) te
                        = true)
       /\ time_calls (w_trace w')
          = time_calls []
            ++ map fire_call
                 (List.filter is_live (timeEventHead late_timers))
       /\ n = Z.of_nat
                (length (List.filter is_live (timeEventHead late_timers))).
Proof.
  eexists. eexists. split; [vm_compute; reflexivity|].
  split; [reflexivity|]. split; [reflexivity|].
  apply (clock_regression_fires_all quiet_env (mkWorld late_timers 0 [])).
  - reflexivity.
  - intros t. reflexivity.
  - split; intros; constructor.
  - cbv. intuition discriminate.
  - vm_compute. reflexivity.
Defined.

(** * Further properties of the code *)

(** ** The descriptor table along a run *)

Lemma install_file_event_bounded (p : co_poll_t) fd mask proc cd fe :
  fd < setsize p -> slot p fd = Some fe -> table_bounded p ->
  table_bounded (install_file_event p fd mask proc cd fe).
Proof.
  intros Hlt Hs (Hlen & Hm & Hub).
  destruct (slot_Some_range _ _ _ Hs) as [H0 Hin].
  assert (Hother : forall fd', fd' <> fd ->
            slot (install_file_event p fd mask proc cd fe) fd' = slot p fd').
  { intros fd' Hd. unfold install_file_event.
    match goal with |- context [if ?b then _ else _] => destruct b end;
      rewrite ?slot_set_maxfd; apply slot_set_slot_ne; auto. }
  assert (Hmax : maxfd (install_file_event p fd mask proc cd fe)
                 = Z.max fd (maxfd p)).
  { unfold install_file_event. simpl.
    destruct (Z.gtb_spec fd (maxfd p)); simpl; lia. }
  rewrite <- (install_file_event_setsize p fd mask proc cd fe) in Hlt.
  split; [|split].
  - rewrite install_file_event_setsize. unfold install_file_event.
    match goal with |- context [if ?b then _ else _] => destruct b end;
      simpl; by rewrite length_insert.
  - rewrite Hmax. right. rewrite install_file_event_setsize in *. lia.
  - intros fd' fe' Hs' Hne'. rewrite Hmax.
    destruct (Z.eq_dec fd' fd) as [->|Hd]; [lia|].
    rewrite Hother in Hs' by assumption.
    pose proof (Hub _ _ Hs' Hne'). lia.
Qed.

Lemma file_event_delete_bounded (p p' : co_poll_t) fd mask :
  table_bounded p -> eco_poll_file_event_delete p fd mask = Some p' ->
  table_bounded p'.
Proof.
  intros (Hlen & Hm & Hub) Hd. unfold eco_poll_file_event_delete in Hd.
  destruct (Z.geb_spec fd (setsize p)) as [Hbig|Hlt];
    [injection Hd as <-; by repeat split|].
  destruct (slot p fd) as [fe|] eqn:Hs; [simpl in Hd|discriminate].
  destruct (Z.eqb_spec (fe_mask fe) ECO_POLL_NONE) as [Hnone|Hsome];
    [injection Hd as <-; by repeat split|].
  destruct (slot_Some_range _ _ _ Hs) as [H0 Hin].
  set (m := Z.land (fe_mask fe) (Z.lnot mask)) in *.
  set (p1 := set_slot fd (set_fe_mask m fe) p) in *.
  assert (Hs1 : slot p1 fd = Some (set_fe_mask m fe))
    by (eapply slot_set_slot_eq; eassumption).
  assert (Hother : forall fd', fd' <> fd -> slot p1 fd' = slot p fd')
    by (intros; apply slot_set_slot_ne; auto).
  assert (Hlen1 : length (events p1) = Z.to_nat (setsize p))
    by (subst p1; simpl; by rewrite length_insert).
  assert (Hfdle : fd <= maxfd p) by eauto.
  destruct ((fd =? maxfd p) && (m =? ECO_POLL_NONE)) eqn:Hc.
  - apply andb_true_iff in Hc as [Hc1 Hc2].
    apply Z.eqb_eq in Hc1, Hc2.
    destruct (scan_maxfd_spec (events p1) (Z.to_nat (maxfd p)))
      as (j & Hj & Hr & Hw & Hall); [lia|].
    change (events p1) with (<[Z.to_nat fd:=set_fe_mask m fe]> (events p))
      in Hj.
    rewrite Hj in Hd. simpl in Hd. injection Hd as <-.
    split; [assumption|].
    split; change (maxfd (set_maxfd j p1)) with j;
      change (setsize (set_maxfd j p1)) with (setsize p).
    + destruct (Z.eq_dec j (-1)); [by left|right; lia].
    + intros fd' fe' Hs' Hne'. rewrite slot_set_maxfd in Hs'.
      destruct (Z.eq_dec fd' fd) as [->|Hdiff].
      { rewrite Hs1 in Hs'. injection Hs' as <-. simpl in Hne'. congruence. }
      pose proof Hs' as Hs''. rewrite Hother in Hs'' by assumption.
      pose proof (Hub _ _ Hs'' Hne') as Hle.
      destruct (Z_le_gt_dec fd' j) as [|Hgt]; [assumption|]. exfalso.
      apply Hne'. destruct (slot_Some_range _ _ _ Hs') as [Hfd0 _].
      apply (Hall (Z.to_nat fd') fe'); [lia|].
      unfold slot in Hs'. destruct (Z.ltb_spec fd' 0); [lia|assumption].
  - injection Hd as <-.
    split; [assumption|]. split; [assumption|].
    intros fd' fe' Hs' Hne'. change (maxfd p1) with (maxfd p).
    destruct (Z.eq_dec fd' fd) as [->|Hdiff]; [assumption|].
    rewrite Hother in Hs' by assumption. eauto.
Qed.

Lemma register_bounded e p fd mask proc cd ok r :
  table_bounded p -> register e p fd mask proc cd ok = Some r ->
  table_bounded (fst r).
Proof.
  intros Hb. destruct e; simpl;
    unfold eco_poll_file_event_create, eco_poll_file_event_update;
    (destruct (Z.geb_spec fd (setsize p)); [by intros [= <-]|]);
    (destruct (slot p fd) as [fe|] eqn:Hs; [simpl|discriminate]);
    (destruct ok; simpl; [|by intros [= <-]]);
    intros [= <-]; simpl; apply install_file_event_bounded; auto; lia.
Qed.

(** The calls on timers leave the descriptor table alone. *)
Lemma timer_action_table (E : environment) a w w' :
  match a with
  | time_event_create _ _ _ _ _ | time_event_delete _ | time_fire_all => True
  | _ => False
  end ->
  do_action E a w = Some w' ->
  events (w_poll w') = events (w_poll w)
  /\ maxfd (w_poll w') = maxfd (w_poll w)
  /\ setsize (w_poll w') = setsize (w_poll w).
Proof.
  intros Hk Ha. destruct a; simpl in *; try contradiction;
    injection Ha as <-.
  - unfold eco_poll_time_event_create. destruct malloc_ok; simpl; [|auto].
    by destruct (aeAddMillisecondsToNow _ _).
  - unfold eco_poll_time_event_delete. by destruct (mark_deleted _ _).
  - unfold eco_poll_time_fire_all. by destruct (aeGetTime _).
Qed.

Lemma table_bounded_same_table (p q : co_poll_t) :
  events q = events p -> maxfd q = maxfd p -> setsize q = setsize p ->
  table_bounded p -> table_bounded q.
Proof.
  unfold table_bounded, slot. intros -> -> ->. auto.
Qed.

Lemma table_bounded_action (E : environment) a w w' :
  table_bounded (w_poll w) -> do_action E a w = Some w' ->
  table_bounded (w_poll w').
Proof.
  intros Hb Ha. destruct a.
  - simpl in Ha.
    destruct (eco_poll_file_event_create _ _ _ _ _ _) as [r|] eqn:Hr;
      [simpl in Ha|discriminate].
    injection Ha as <-. exact (register_bounded Create _ _ _ _ _ _ _ Hb Hr).
  - simpl in Ha.
    destruct (eco_poll_file_event_update _ _ _ _ _ _) as [r|] eqn:Hr;
      [simpl in Ha|discriminate].
    injection Ha as <-. exact (register_bounded Update _ _ _ _ _ _ _ Hb Hr).
  - simpl in Ha.
    destruct (eco_poll_file_event_delete _ _ _) as [r|] eqn:Hr;
      [simpl in Ha|discriminate].
    injection Ha as <-. eapply file_event_delete_bounded; eassumption.
  - destruct (timer_action_table E (time_event_create _ _ _ _ _) w w' I Ha)
      as (He & Hm & Hs).
    eapply table_bounded_same_table; eassumption.
  - destruct (timer_action_table E (time_event_delete _) w w' I Ha)
      as (He & Hm & Hs).
    eapply table_bounded_same_table; eassumption.
  - destruct (timer_action_table E time_fire_all w w' I Ha)
      as (He & Hm & Hs).
    eapply table_bounded_same_table; eassumption.
Qed.

Lemma table_bounded_call (E : environment) x w w' :
  table_bounded (w_poll w) -> do_call E x w = Some w' ->
  table_bounded (w_poll w').
Proof.
  intros HJ Hc. destruct x as [a|flags timeout]; simpl in Hc.
  - eapply table_bounded_action; eassumption.
  - destruct (eco_poll_process_events E w flags timeout) as [[w2 n]|] eqn:Hp;
      [simpl in Hc|discriminate].
    injection Hc as <-.
    apply process_events_split in Hp
      as (fired & w0 & w1 & n1 & Hp0 & Ht0 & Hd & Hrest).
    assert (H1 : table_bounded (w_poll w1)).
    { apply (dispatch_inv E (fun _ => True)
               (fun y => table_bounded (w_poll y)))
        with (fired := fired) (w := w0) (n := 0) (n' := n1); auto.
      - intros. apply Forall_forall. auto.
      - intros a y y' _ Hy Ha. eapply table_bounded_action; eassumption.
      - by rewrite Hp0. }
    destruct (negb (Z.land flags ECO_POLL_TIME_EVENTS =? 0)).
    + destruct Hrest as [n2 Hs]. unfold processTimeEvents in Hs.
      apply (sweep_loop_inv E (fun _ => True) _
               (fun _ y _ => table_bounded (w_poll y))) in Hs; auto.
      * intros. apply Forall_forall. auto.
      * intros. apply Forall_forall. auto.
      * intros j m a y y' _ Hy Ha. eapply table_bounded_action; eassumption.
      * intros j pv y m pre te suf Hy _ _. simpl.
        by destruct (te_finalizerProc te =? NULL).
      * cbn [w_poll set_w_poll]. unfold clock_skew_guard.
        by destruct (_ <? _).
    + by subst w2.
Qed.

(** X1.  In every run from a freshly created loop, whatever masks the
    registrations pass and whatever the callbacks do, the table keeps its
    [setsize] slots, [maxfd] is -1 or the index of a slot, and no descriptor
    above [maxfd] has a mask other than [ECO_POLL_NONE]. *)
Theorem table_bounded_reachable (E : environment) (size now : Z)
    (raw : nat -> coFileEvent) (t : nat) (cs : list call)
    (p0 : co_poll_t) (w : world) :
  eco_poll_create size raw now true true = Some p0 ->
  run_calls E cs (mkWorld p0 t []) = Some w ->
  table_bounded (w_poll w).
Proof.
  intros Hc Hr.
  assert (H0 : table_bounded (w_poll (mkWorld p0 t []))).
  { unfold eco_poll_create in Hc. simpl in Hc. injection Hc as <-.
    split; [simpl; by rewrite length_map, length_seq|].
    split; [by left|].
    intros fd fe Hs Hne. exfalso. apply Hne. unfold slot in Hs. simpl in Hs.
    destruct (fd <? 0); [discriminate|].
    rewrite list_lookup_fmap in Hs.
    destruct (seq 0 (Z.to_nat size) !! Z.to_nat fd); [|discriminate].
    simpl in Hs. injection Hs as <-. reflexivity. }
  clear Hc. revert H0 Hr. generalize (mkWorld p0 t []) as w0.
  induction cs as [|x cs IH]; intros w0 H0 Hr; simpl in Hr.
  - by injection Hr as <-.
  - destruct (do_call E x w0) as [w1|] eqn:Hc; [simpl in Hr|discriminate].
    eapply IH; [|exact Hr]. eapply table_bounded_call; eassumption.
Qed.

(** A run of [two_sweeps] on a fresh loop of four slots. *)
Lemma table_bounded_reachable_witness :
  exists w,
    run_calls quiet_env two_sweeps
      (mkWorld (mkPoll (-1) 4 0 0 (map zeroed (seq 0 4)) []) 0 []) = Some w
    /\ maxfd (w_poll w) = 1
    /\ table_bounded (w_poll w).
Proof.
  eexists. split; [vm_compute; reflexivity|]. split; [reflexivity|].
  apply (table_bounded_reachable quiet_env 4 0 zeroed 0 two_sweeps
           (mkPoll (-1) 4 0 0 (map zeroed (seq 0 4)) [])).
  - reflexivity.
  - vm_compute. reflexivity.
Defined.

(** ** Registering, unregistering and querying *)

Lemma get_file_events_slot (p : co_poll_t) fd fe :
  fd < setsize p -> slot p fd = Some fe ->
  eco_poll_get_file_events p fd = Some (fe_mask fe).
Proof.
  intros Hlt Hs. unfold eco_poll_get_file_events.
  destruct (Z.geb_spec fd (setsize p)); [lia|]. by rewrite Hs.
Qed.

Lemma install_file_event_other (p : co_poll_t) fd mask proc cd fe fd' :
  0 <= fd -> fd' <> fd ->
  slot (install_file_event p fd mask proc cd fe) fd' = slot p fd'.
Proof.
  intros H0 Hd. unfold install_file_event.
  match goal with |- context [if ?b then _ else _] => destruct b end;
    rewrite ?slot_set_maxfd; apply slot_set_slot_ne; auto.
Qed.

Lemma install_file_event_fields (p : co_poll_t) fd mask proc cd fe :
  slot p fd = Some fe ->
  slot (install_file_event p fd mask proc cd fe) fd
  = Some (mkFileEvent
            (Z.lor (fe_mask fe) mask)
            (if Z.land mask ECO_POLL_READABLE =? 0 then fe_rfileProc fe
             else proc)
            (if Z.land mask ECO_POLL_WRITABLE =? 0 then fe_wfileProc fe
             else proc)
            cd).
Proof.
  intros Hs. unfold install_file_event.
  match goal with |- context [if ?b then set_maxfd _ _ else _] =>
    destruct b end; rewrite ?slot_set_maxfd;
    rewrite (slot_set_slot_eq _ _ _ _ Hs);
    destruct (Z.land mask ECO_POLL_READABLE =? 0),
      (Z.land mask ECO_POLL_WRITABLE =? 0); reflexivity.
Qed.

(** X2.  A successful registration on [fd], through either entry point, is
    seen by [eco_poll_get_file_events]: the mask of [fd] is the previous
    mask ORed with the new one and the masks of the other descriptors are
    as before.  The callback is installed for the directions named by the
    mask only, while the client data of the slot is replaced in any case,
    also for the direction that keeps its callback. *)
Theorem register_then_query (e : entry_point) (p : co_poll_t)
    (fd mask proc cd : Z) (fe : coFileEvent) :
  fd < setsize p -> slot p fd = Some fe ->
  exists p',
    register e p fd mask proc cd true = Some (p', ES_SUCCESS)
    /\ eco_poll_get_file_events p' fd = Some (Z.lor (fe_mask fe) mask)
    /\ (forall fd', fd' <> fd ->
                    eco_poll_get_file_events p' fd'
                    = eco_poll_get_file_events p fd')
    /\ slot p' fd
       = Some (mkFileEvent
                 (Z.lor (fe_mask fe) mask)
                 (if Z.land mask ECO_POLL_READABLE =? 0 then fe_rfileProc fe
                  else proc)
                 (if Z.land mask ECO_POLL_WRITABLE =? 0 then fe_wfileProc fe
                  else proc)
                 cd).
Proof.
  intros Hlt Hs. destruct (slot_Some_range _ _ _ Hs) as [H0 _].
  exists (install_file_event p fd mask proc cd fe).
  pose proof (install_file_event_fields p fd mask proc cd fe Hs) as Hf.
  split; [by apply register_success|]. split; [|split; [|exact Hf]].
  - rewrite (get_file_events_slot _ _ _
               ltac:(rewrite install_file_event_setsize; exact Hlt) Hf).
    reflexivity.
  - intros fd' Hd. unfold eco_poll_get_file_events.
    rewrite install_file_event_setsize.
    by rewrite (install_file_event_other p fd mask proc cd fe fd' H0 Hd).
Qed.

(** Descriptor 1 of [two_readers], watched for reading with the callback 10
    and the client data 0, registered for writing with the callback 30 and
    the client data 5. *)
Lemma register_then_query_witness :
  exists p',
    register Update two_readers 1 ECO_POLL_WRITABLE 30 5 true
    = Some (p', ES_SUCCESS)
    /\ eco_poll_get_file_events p' 1
       = Some (Z.lor ECO_POLL_READABLE ECO_POLL_WRITABLE)
    /\ (forall fd', fd' <> 1 ->
                    eco_poll_get_file_events p' fd'
                    = eco_poll_get_file_events two_readers fd')
    /\ slot p' 1 = Some (mkFileEvent 3 10 30 5).
Proof.
  apply (register_then_query Update two_readers 1 ECO_POLL_WRITABLE 30 5
           (mkFileEvent 1 10 0 0)); reflexivity.
Defined.

Lemma file_event_delete_defined (p : co_poll_t) fd mask fe :
  fd < setsize p -> slot p fd = Some fe ->
  exists p',
    eco_poll_file_event_delete p fd mask = Some p'
    /\ setsize p' = setsize p
    /\ events p'
       = <[Z.to_nat fd :=
             set_fe_mask (Z.land (fe_mask fe) (Z.lnot mask)) fe]> (events p).
Proof.
  intros Hlt Hs. destruct (slot_Some_range _ _ _ Hs) as [H0 Hin].
  unfold eco_poll_file_event_delete.
  destruct (Z.geb_spec fd (setsize p)); [lia|]. rewrite Hs. simpl.
  destruct (Z.eqb_spec (fe_mask fe) ECO_POLL_NONE) as [Hn|Hn].
  - exists p. split; [reflexivity|]. split; [reflexivity|].
    rewrite Hn. simpl. symmetry. apply list_insert_id.
    unfold slot in Hs. destruct (fd <? 0); [discriminate|].
    rewrite Hs. f_equal. destruct fe. simpl in *. by subst.
  - destruct ((fd =? maxfd p)
              && (Z.land (fe_mask fe) (Z.lnot mask) =? ECO_POLL_NONE)) eqn:Hc.
    + apply andb_true_iff in Hc as [Hc _]. apply Z.eqb_eq in Hc.
      destruct (scan_maxfd_spec
                  (<[Z.to_nat fd :=
                       set_fe_mask (Z.land (fe_mask fe) (Z.lnot mask)) fe]>
                     (events p)) (Z.to_nat (maxfd p))) as (j & Hj & _).
      { rewrite length_insert. lia. }
      rewrite Hj. simpl. eexists. split; [reflexivity|]. by split.
    + eexists. split; [reflexivity|]. by split.
Qed.

(** X3.  Unregistering [mask] on a descriptor of the table clears exactly
    the bits of [mask] in its interest mask, as
    [eco_poll_get_file_events] then reports, and leaves the masks of the
    other descriptors as they were. *)
Theorem unregister_then_query (p : co_poll_t) (fd mask : Z)
    (fe : coFileEvent) :
  fd < setsize p -> slot p fd = Some fe ->
  exists p',
    eco_poll_file_event_delete p fd mask = Some p'
    /\ eco_poll_get_file_events p' fd
       = Some (Z.land (fe_mask fe) (Z.lnot mask))
    /\ (forall fd', fd' <> fd ->
                    eco_poll_get_file_events p' fd'
                    = eco_poll_get_file_events p fd').
Proof.
  intros Hlt Hs. destruct (slot_Some_range _ _ _ Hs) as [H0 Hin].
  destruct (file_event_delete_defined p fd mask fe Hlt Hs)
    as (p' & Hd & Hsz & Hev).
  exists p'. split; [assumption|].
  unfold eco_poll_get_file_events, slot. rewrite Hsz, Hev. split.
  - destruct (Z.geb_spec fd (setsize p)); [lia|].
    destruct (Z.ltb_spec fd 0); [lia|].
    by rewrite list_lookup_insert_eq.
  - intros fd' Hd'. destruct (fd' >=? setsize p); [reflexivity|].
    destruct (Z.ltb_spec fd' 0); [reflexivity|].
    rewrite list_lookup_insert_ne by lia. reflexivity.
Qed.

(** Descriptor 2 of [two_readers] loses its readable bit. *)
Lemma unregister_then_query_witness :
  exists p',
    eco_poll_file_event_delete two_readers 2 ECO_POLL_READABLE = Some p'
    /\ eco_poll_get_file_events p' 2
       = Some (Z.land 1 (Z.lnot ECO_POLL_READABLE))
    /\ (forall fd', fd' <> 2 ->
                    eco_poll_get_file_events p' fd'
                    = eco_poll_get_file_events two_readers fd').
Proof.
  apply (unregister_then_query two_readers 2 ECO_POLL_READABLE
           (mkFileEvent 1 20 0 0)); reflexivity.
Defined.

Lemma max_watched_from_masks i (ev ev' : list coFileEvent) best :
  map fe_mask ev = map fe_mask ev' ->
  max_watched_from i ev best = max_watched_from i ev' best.
Proof.
  revert i ev' best. induction ev as [|fe ev IH]; intros i [|fe' ev'] best H;
    try discriminate; [reflexivity|].
  simpl in *. injection H as Hm H. rewrite Hm. by apply IH.
Qed.

(** X4.  On a loop whose [maxfd] is exact, registering a mask other than
    [ECO_POLL_NONE] on a descriptor without interest and unregistering the
    same mask brings every interest mask and [maxfd] back to what they
    were. *)
Theorem register_unregister_restores (e : entry_point) (p : co_poll_t)
    (fd mask proc cd : Z) (fe : coFileEvent) :
  table_ok p -> fd < setsize p -> slot p fd = Some fe ->
  fe_mask fe = ECO_POLL_NONE -> mask <> ECO_POLL_NONE ->
  exists p1 p2,
    register e p fd mask proc cd true = Some (p1, ES_SUCCESS)
    /\ eco_poll_file_event_delete p1 fd mask = Some p2
    /\ map fe_mask (events p2) = map fe_mask (events p)
    /\ maxfd p2 = maxfd p.
Proof.
  intros Hok Hlt Hs Hnone Hmask.
  destruct (slot_Some_range _ _ _ Hs) as [H0 Hin].
  set (p1 := install_file_event p fd mask proc cd fe).
  pose proof (install_file_event_fields p fd mask proc cd fe Hs) as Hf.
  fold p1 in Hf.
  assert (Hlt1 : fd < setsize p1)
    by (subst p1; by rewrite install_file_event_setsize).
  destruct (file_event_delete_defined p1 fd mask _ Hlt1 Hf)
    as (p2 & Hd & Hsz & Hev).
  exists p1, p2. split; [by apply register_success|]. split; [assumption|].
  assert (Hok1 : table_ok p1) by (by apply install_file_event_table_ok).
  assert (Hok2 : table_ok p2)
    by (eapply file_event_delete_table_ok; eassumption).
  assert (Hmasks : map fe_mask (events p2) = map fe_mask (events p)).
  { rewrite Hev. simpl. rewrite Hnone, Z.lor_0_l, Z.land_lnot_diag.
    assert (Hev1 : events p1
                   = <[Z.to_nat fd := mkFileEvent (Z.lor (fe_mask fe) mask)
                         (if Z.land mask ECO_POLL_READABLE =? 0
                          then fe_rfileProc fe else proc)
                         (if Z.land mask ECO_POLL_WRITABLE =? 0
                          then fe_wfileProc fe else proc) cd]> (events p)).
    { subst p1. unfold install_file_event.
      match goal with |- context [if ?b then set_maxfd _ _ else _] =>
        destruct b end; simpl;
        destruct (Z.land mask ECO_POLL_READABLE =? 0),
          (Z.land mask ECO_POLL_WRITABLE =? 0); reflexivity. }
    rewrite Hev1, list_insert_insert_eq.
    apply list_eq. intros i. rewrite !list_lookup_fmap.
    destruct (Nat.eq_dec i (Z.to_nat fd)) as [->|Hi].
    - rewrite list_lookup_insert_eq by assumption.
      unfold slot in Hs. destruct (fd <? 0); [discriminate|].
      rewrite Hs. simpl. by rewrite Hnone.
    - by rewrite list_lookup_insert_ne. }
  split; [assumption|].
  destruct Hok as (_ & Hge & Hex). destruct Hok2 as (_ & Hge2 & Hex2).
  rewrite (maxfd_exact_max_watched p Hge Hex).
  rewrite (maxfd_exact_max_watched p2 Hge2 Hex2).
  unfold max_watched. by apply max_watched_from_masks.
Qed.

Lemma two_readers_table_ok : table_ok two_readers.
Proof.
  split; [reflexivity|]. split; [discriminate|]. split.
  - intros fd fe Hs Hne. unfold slot in Hs.
    destruct (Z.ltb_spec fd 0); [discriminate|].
    change (maxfd two_readers) with 2.
    destruct (Z_le_gt_dec fd 2) as [|Hgt]; [assumption|]. exfalso.
    apply Hne. assert (Hn : exists n, Z.to_nat fd = S (S (S n)))
      by (exists (Z.to_nat fd - 3)%nat; lia).
    destruct Hn as [n Hn]. rewrite Hn in Hs. simpl in Hs.
    destruct n; [|discriminate]. by injection Hs as <-.
  - right. exists (mkFileEvent 1 20 0 0). split; [reflexivity|discriminate].
Qed.

(** Descriptor 3 of [two_readers], registered for writing and
    unregistered: [maxfd] is 2 again. *)
Lemma register_unregister_restores_witness :
  exists p1 p2,
    register Create two_readers 3 ECO_POLL_WRITABLE 30 5 true
    = Some (p1, ES_SUCCESS)
    /\ eco_poll_file_event_delete p1 3 ECO_POLL_WRITABLE = Some p2
    /\ map fe_mask (events p2) = map fe_mask (events two_readers)
    /\ maxfd p2 = maxfd two_readers.
Proof.
  apply (register_unregister_restores Create two_readers 3
           ECO_POLL_WRITABLE 30 5 (mkFileEvent 0 0 0 0));
    try reflexivity; [apply two_readers_table_ok|discriminate].
Defined.

(** X5.  Calls that name a descriptor at or above [setsize] never change
    the loop: a registration fails, whatever the backend would answer, an
    unregistration does nothing, the mask reported is [ECO_POLL_NONE], and
    so for any sequence of such calls. *)
Theorem out_of_range_calls_change_nothing (p : co_poll_t) :
  (forall e fd mask proc cd ok,
      setsize p <= fd ->
      register e p fd mask proc cd ok = Some (p, ES_FAILURE))
  /\ (forall fd mask,
        setsize p <= fd -> eco_poll_file_event_delete p fd mask = Some p)
  /\ (forall fd,
        setsize p <= fd ->
        eco_poll_get_file_events p fd = Some ECO_POLL_NONE)
  /\ (forall ops,
        Forall (out_of_range p) ops -> run_fd_ops ops p = Some p).
Proof.
  assert (Hreg : forall e fd mask proc cd ok,
             setsize p <= fd ->
             register e p fd mask proc cd ok = Some (p, ES_FAILURE)).
  { intros e fd mask proc cd ok Hge. destruct e; simpl;
      unfold eco_poll_file_event_create, eco_poll_file_event_update;
      destruct (Z.geb_spec fd (setsize p)); reflexivity || lia. }
  assert (Hdel : forall fd mask,
             setsize p <= fd -> eco_poll_file_event_delete p fd mask = Some p).
  { intros fd mask Hge. unfold eco_poll_file_event_delete.
    destruct (Z.geb_spec fd (setsize p)); reflexivity || lia. }
  split; [assumption|]. split; [assumption|]. split.
  - intros fd Hge. unfold eco_poll_get_file_events.
    destruct (Z.geb_spec fd (setsize p)); reflexivity || lia.
  - induction 1 as [|o ops Ho Hops IH]; [reflexivity|].
    simpl. destruct o as [e fd mask proc cd ok|fd mask]; simpl in *.
    + rewrite Hreg by assumption. simpl. exact IH.
    + rewrite Hdel by assumption. simpl. exact IH.
Qed.

(** ** Resizing the table *)

Lemma resized_lookup (ev : list coFileEvent) size raw from (i : nat) :
  (i < Z.to_nat size)%nat ->
  clear_masks_from from (realloc_events ev size raw) !! i
  = Some (let fe := match ev !! i with Some fe => fe | None => raw i end in
          if Z.of_nat i <? from then fe else set_fe_mask ECO_POLL_NONE fe).
Proof.
  intros Hi. unfold clear_masks_from, realloc_events.
  rewrite list_lookup_imap.
  change (map ?f ?l) with (f <$> l). rewrite list_lookup_fmap.
  rewrite lookup_seq_lt by assumption. reflexivity.
Qed.

Lemma resized_length (ev : list coFileEvent) size raw from :
  length (clear_masks_from from (realloc_events ev size raw))
  = Z.to_nat size.
Proof.
  unfold clear_masks_from, realloc_events.
  by rewrite length_imap, length_map, length_seq.
Qed.

(** X6.  [eco_poll_resize] returns 0 or -1.  When it returns -1 the loop is
    unchanged.  When it returns 0 the table has the requested size, [maxfd]
    and the timers are as before, every slot up to [maxfd] is as it was
    (mask, callbacks and client data), every slot above [maxfd] has the mask
    [ECO_POLL_NONE], and the bounds of the table hold again. *)
Theorem resize_keeps_watched (p p' : co_poll_t) (size r : Z)
    (raw : nat -> coFileEvent) (api_ok realloc_ok : bool) :
  table_bounded p ->
  eco_poll_resize p size raw api_ok realloc_ok = Some (p', r) ->
  (r = 0 \/ r = -1)
  /\ (r = -1 -> p' = p)
  /\ (r = 0 ->
      eco_poll_get_size p' = size
      /\ maxfd p' = maxfd p
      /\ timeEventHead p' = timeEventHead p
      /\ table_bounded p'
      /\ (forall fd fe, slot p fd = Some fe -> fd <= maxfd p ->
                        slot p' fd = Some fe)
      /\ (forall fd fe, slot p' fd = Some fe -> maxfd p < fd ->
                        fe_mask fe = ECO_POLL_NONE)).
Proof.
  intros Hb Hr. pose proof Hb as (Hlen & Hm & Hub).
  unfold eco_poll_resize in Hr.
  destruct (Z.eqb_spec size (setsize p)) as [Heq|Hne].
  { injection Hr as <- <-. split; [by left|]. split; [discriminate|].
    intros _. split; [by symmetry|]. split; [reflexivity|].
    split; [reflexivity|]. split; [assumption|]. split; [auto|].
    intros fd fe Hs Hgt.
    destruct (Z.eq_dec (fe_mask fe) ECO_POLL_NONE) as [|Hw]; [assumption|].
    pose proof (Hub _ _ Hs Hw). lia. }
  destruct (Z.geb_spec (maxfd p) size) as [Hbig|Hfit].
  { injection Hr as <- <-. split; [by right|]. split; [reflexivity|].
    discriminate. }
  destruct api_ok; simpl in Hr;
    [|injection Hr as <- <-; split; [by right|]; split; [reflexivity|];
      discriminate].
  destruct realloc_ok; simpl in Hr; [|discriminate].
  destruct (Z.ltb_spec (maxfd p) (-1)) as [|Hge]; [discriminate|].
  injection Hr as <- <-. split; [by left|]. split; [discriminate|].
  intros _. split; [reflexivity|]. split; [reflexivity|].
  split; [reflexivity|].
  assert (Habove : forall fd fe,
            slot (mkPoll (maxfd p) size (timeEventNextId p) (lastTime p)
                    (clear_masks_from (maxfd p + 1)
                       (realloc_events (events p) size raw))
                    (timeEventHead p)) fd = Some fe ->
            maxfd p < fd -> fe_mask fe = ECO_POLL_NONE).
  { intros fd fe Hs Hgt. unfold slot in Hs. simpl in Hs.
    destruct (Z.ltb_spec fd 0); [discriminate|].
    pose proof (lookup_lt_Some _ _ _ Hs) as Hi. rewrite resized_length in Hi.
    rewrite resized_lookup in Hs by assumption. simpl in Hs.
    destruct (Z.ltb_spec (Z.of_nat (Z.to_nat fd)) (maxfd p + 1)); [lia|].
    by injection Hs as <-. }
  split; [|split; [|exact Habove]].
  - split; [simpl; apply resized_length|]. split; [simpl; lia|].
    intros fd fe Hs Hw. simpl.
    destruct (Z_le_gt_dec fd (maxfd p)) as [|Hgt]; [assumption|].
    exfalso. apply Hw. apply (Habove fd fe Hs). lia.
  - intros fd fe Hs Hle. destruct (slot_Some_range _ _ _ Hs) as [H0 Hin].
    unfold slot in *. simpl. destruct (Z.ltb_spec fd 0); [lia|].
    rewrite resized_lookup by lia. rewrite Hs. simpl.
    destruct (Z.ltb_spec (Z.of_nat (Z.to_nat fd)) (maxfd p + 1)); [|lia].
    reflexivity.
Qed.

(** [two_readers] shrunk from four to three slots. *)
Lemma resize_keeps_watched_witness :
  exists p',
    eco_poll_resize two_readers 3 zeroed true true = Some (p', 0)
    /\ events p'
       = [mkFileEvent 0 0 0 0; mkFileEvent 1 10 0 0; mkFileEvent 1 20 0 0]
    /\ ((0 = 0 \/ 0 = -1)
        /\ (0 = -1 -> p' = two_readers)
        /\ (0 = 0 ->
            eco_poll_get_size p' = 3
            /\ maxfd p' = maxfd two_readers
            /\ timeEventHead p' = timeEventHead two_readers
            /\ table_bounded p'
            /\ (forall fd fe, slot two_readers fd = Some fe ->
                              fd <= maxfd two_readers ->
                              slot p' fd = Some fe)
            /\ (forall fd fe, slot p' fd = Some fe ->
                              maxfd two_readers < fd ->
                              fe_mask fe = ECO_POLL_NONE))).
Proof.
  eexists. split; [vm_compute; reflexivity|]. split; [reflexivity|].
  apply (resize_keeps_watched two_readers _ 3 0 zeroed true true).
  - destruct two_readers_table_ok as (Hl & _ & Hub & _).
    split; [exact Hl|]. split; [right; split; reflexivity || discriminate|].
    exact Hub.
  - vm_compute. reflexivity.
Defined.

(** X7.  With the backend and the allocator succeeding, a resize to a size
    other than the current one is refused exactly when the requested size
    is at most [maxfd]: the table may shrink down to [maxfd + 1] slots,
    which leaves the highest watched descriptor in the last slot. *)
Theorem resize_refused_iff (p : co_poll_t) (size : Z)
    (raw : nat -> coFileEvent) :
  -1 <= maxfd p -> size <> setsize p ->
  exists p' r,
    eco_poll_resize p size raw true true = Some (p', r)
    /\ (r = -1 <-> size <= maxfd p)
    /\ (r = 0 <-> maxfd p < size)
    /\ (r = 0 -> setsize p' = size).
Proof.
  intros Hge Hne. unfold eco_poll_resize.
  destruct (Z.eqb_spec size (setsize p)); [contradiction|].
  destruct (Z.geb_spec (maxfd p) size) as [Hbig|Hfit].
  - exists p, (-1). split; [reflexivity|]. split; [split; intros; lia|].
    split; [split; intros; lia|]. discriminate.
  - simpl. destruct (Z.ltb_spec (maxfd p) (-1)); [lia|].
    eexists. exists 0. split; [reflexivity|].
    split; [split; intros; lia|]. split; [split; intros; lia|]. reflexivity.
Qed.

(** [two_readers], whose [maxfd] is 2, is refused two slots and granted
    three. *)
Lemma resize_refused_iff_witness :
  (exists p' r,
      eco_poll_resize two_readers 2 zeroed true true = Some (p', r)
      /\ (r = -1 <-> 2 <= maxfd two_readers)
      /\ (r = 0 <-> maxfd two_readers < 2)
      /\ (r = 0 -> setsize p' = 2))
  /\ (exists p' r,
         eco_poll_resize two_readers 3 zeroed true true = Some (p', r)
         /\ (r = -1 <-> 3 <= maxfd two_readers)
         /\ (r = 0 <-> maxfd two_readers < 3)
         /\ (r = 0 -> setsize p' = 3)).
Proof.
  split.
  - apply (resize_refused_iff two_readers 2 zeroed); discriminate.
  - apply (resize_refused_iff two_readers 3 zeroed); discriminate.
Defined.

(** ** Deadlines, creation and cancellation *)

(** X8.  For a delay that is not negative [aeAddMillisecondsToNow] returns a
    normalised deadline: the milliseconds lie in [0, 1000) and the deadline
    is the reading of the clock, in milliseconds, plus the delay. *)
Theorem add_milliseconds_normalised (tv : Z * Z) (milliseconds : Z) :
  0 <= snd tv < 1000000 -> 0 <= milliseconds ->
  0 <= snd (aeAddMillisecondsToNow tv milliseconds) < 1000
  /\ fst (aeAddMillisecondsToNow tv milliseconds) * 1000
     + snd (aeAddMillisecondsToNow tv milliseconds)
     = fst tv * 1000 + Z.quot (snd tv) 1000 + milliseconds.
Proof.
  intros Hu Hm. unfold aeAddMillisecondsToNow, aeGetTime.
  destruct tv as [sec usec]. simpl in *.
  pose proof (Z.quot_rem' usec 1000) as Hq1.
  pose proof (Z.rem_bound_pos usec 1000 ltac:(lia) ltac:(lia)) as Hr1.
  pose proof (Z.quot_rem' milliseconds 1000) as Hq2.
  pose proof (Z.rem_bound_pos milliseconds 1000 ltac:(lia) ltac:(lia)) as Hr2.
  destruct (Z.geb_spec (Z.quot usec 1000 + Z.rem milliseconds 1000) 1000);
    simpl; lia.
Qed.

(** A delay of 2750 ms at the reading 10 s 600000 us: 13 s 350 ms. *)
Lemma add_milliseconds_normalised_witness :
  aeAddMillisecondsToNow (10, 600000) 2750 = (13, 350)
  /\ 0 <= snd (aeAddMillisecondsToNow (10, 600000) 2750) < 1000
  /\ fst (aeAddMillisecondsToNow (10, 600000) 2750) * 1000
     + snd (aeAddMillisecondsToNow (10, 600000) 2750)
     = fst (10, 600000) * 1000 + Z.quot (snd (10, 600000)) 1000 + 2750.
Proof.
  split; [reflexivity|].
  apply (add_milliseconds_normalised (10, 600000) 2750); simpl; lia.
Defined.

(** X9.  On a loop whose ids are as the creations issued them, a successful
    creation puts one node at the head of the list, leaves the other nodes
    as they are and returns an id that no node of the list carries, which
    is not the sentinel; the node holds the callback, the finalizer, the
    client data and the deadline computed from the clock; and a
    cancellation of the returned id marks this node and no other. *)
Theorem created_id_is_fresh (w : world) (tv : Z * Z)
    (ms proc cd fin : Z) :
  ids_issued w ->
  exists te,
    eco_poll_time_event_create (w_poll w) tv ms proc cd fin true
    = (set_timeEventHead (te :: timeEventHead (w_poll w))
         (set_timeEventNextId (timeEventNextId (w_poll w) + 1) (w_poll w)),
       inl (te_id te))
    /\ te = mkTimeEvent (timeEventNextId (w_poll w))
              (fst (aeAddMillisecondsToNow tv ms))
              (snd (aeAddMillisecondsToNow tv ms)) proc fin cd
    /\ te_id te <> ECO_POLL_DELETED_EVENT_ID
    /\ Forall (fun x => te_id x <> te_id te) (timeEventHead (w_poll w))
    /\ timeEventHead
         (fst (eco_poll_time_event_delete
                 (fst (eco_poll_time_event_create (w_poll w) tv ms proc cd
                         fin true))
                 (te_id te)))
       = set_te_id ECO_POLL_DELETED_EVENT_ID te :: timeEventHead (w_poll w)
    /\ ids_issued
         (set_w_poll
            (fst (eco_poll_time_event_create (w_poll w) tv ms proc cd fin
                    true)) w).
Proof.
  intros [H0 Hb]. unfold eco_poll_time_event_create. simpl.
  exists (mkTimeEvent (timeEventNextId (w_poll w))
            (fst (aeAddMillisecondsToNow tv ms))
            (snd (aeAddMillisecondsToNow tv ms)) proc fin cd).
  destruct (aeAddMillisecondsToNow tv ms) as [s m]. simpl.
  split; [reflexivity|]. split; [reflexivity|].
  split; [unfold ECO_POLL_DELETED_EVENT_ID; lia|]. split.
  { apply ids_below_bound in Hb. eapply Forall_impl; [exact Hb|].
    intros x [->|Hr]; simpl; [unfold ECO_POLL_DELETED_EVENT_ID|]; lia. }
  split.
  { unfold eco_poll_time_event_delete. simpl. by rewrite Z.eqb_refl. }
  split; simpl; [lia|].
  destruct (Z.eqb_spec (timeEventNextId (w_poll w)) ECO_POLL_DELETED_EVENT_ID)
    as [He|_]; [unfold ECO_POLL_DELETED_EVENT_ID in He; lia|].
  split; [lia|assumption].
Qed.

(** A fourth timer created on [three_timers] gets the id 3. *)
Lemma created_id_is_fresh_witness :
  exists te,
    eco_poll_time_event_create three_timers (10, 600000) 2750 100 7 200 true
    = (set_timeEventHead (te :: timeEventHead three_timers)
         (set_timeEventNextId (timeEventNextId three_timers + 1)
            three_timers),
       inl (te_id te))
    /\ te = mkTimeEvent 3 13 350 100 200 7.
Proof.
  destruct (created_id_is_fresh (mkWorld three_timers 0 []) (10, 600000)
              2750 100 7 200) as (te & H1 & H2 & _).
  - cbv. intuition discriminate.
  - exists te. split; [exact H1|exact H2].
Defined.

Lemma mark_deleted_spec (l : list coTimeEvent) (i : Z) :
  match mark_deleted l i with
  | Some l' =>
      exists l1 x l2,
        l = l1 ++ x :: l2 /\ te_id x = i
        /\ Forall (fun te => te_id te <> i) l1
        /\ l' = l1 ++ set_te_id ECO_POLL_DELETED_EVENT_ID x :: l2
  | None => Forall (fun te => te_id te <> i) l
  end.
Proof.
  induction l as [|te l IH]; simpl; [constructor|].
  destruct (Z.eqb_spec (te_id te) i) as [He|Hne].
  - exists [], te, l. repeat split; auto.
  - destruct (mark_deleted l i) as [l'|]; simpl.
    + destruct IH as (l1 & x & l2 & -> & Hx & H1 & ->).
      exists (te :: l1), x, l2. repeat split; auto.
    + by constructor.
Qed.

(** X10.  [eco_poll_time_event_delete] reports success exactly when some
    node carries the id.  It then gives the sentinel id to the first such
    node and changes nothing else: no node is removed, moved or
    rescheduled; and on failure the loop is returned as it was. *)
Theorem cancel_marks_first_match (p : co_poll_t) (i : Z) :
  (snd (eco_poll_time_event_delete p i) = ES_SUCCESS
   <-> Exists (fun te => te_id te = i) (timeEventHead p))
  /\ (snd (eco_poll_time_event_delete p i) = ES_FAILURE ->
      fst (eco_poll_time_event_delete p i) = p)
  /\ (snd (eco_poll_time_event_delete p i) = ES_SUCCESS ->
      exists l1 x l2,
        timeEventHead p = l1 ++ x :: l2 /\ te_id x = i
        /\ Forall (fun te => te_id te <> i) l1
        /\ fst (eco_poll_time_event_delete p i)
           = set_timeEventHead
               (l1 ++ set_te_id ECO_POLL_DELETED_EVENT_ID x :: l2) p).
Proof.
  unfold eco_poll_time_event_delete.
  pose proof (mark_deleted_spec (timeEventHead p) i) as H.
  destruct (mark_deleted (timeEventHead p) i) as [l'|]; simpl.
  - destruct H as (l1 & x & l2 & Hl & Hx & H1 & ->).
    split; [|split; [discriminate|]].
    + split; [|reflexivity]. intros _. rewrite Hl. apply Exists_app. right.
      by constructor.
    + intros _. exists l1, x, l2. auto.
  - split; [|split; [reflexivity|discriminate]].
    split; [discriminate|]. intros Hex. exfalso.
    apply Exists_exists in Hex as (te & Hin & Hid).
    rewrite Forall_forall in H. exact (H te Hin Hid).
Qed.

(** X11.  The sentinel id is accepted as an id: as soon as some node awaits
    its removal, cancelling [ECO_POLL_DELETED_EVENT_ID] reports success,
    and it leaves the loop as it is. *)
Theorem cancel_sentinel_succeeds (p : co_poll_t) :
  Exists (fun te => te_id te = ECO_POLL_DELETED_EVENT_ID) (timeEventHead p) ->
  eco_poll_time_event_delete p ECO_POLL_DELETED_EVENT_ID = (p, ES_SUCCESS).
Proof.
  intros Hex. unfold eco_poll_time_event_delete.
  pose proof (mark_deleted_spec (timeEventHead p) ECO_POLL_DELETED_EVENT_ID)
    as H.
  destruct (mark_deleted (timeEventHead p) ECO_POLL_DELETED_EVENT_ID)
    as [l'|].
  - destruct H as (l1 & x & l2 & Hl & Hx & H1 & ->). f_equal.
    assert (Hx' : set_te_id ECO_POLL_DELETED_EVENT_ID x = x)
      by (destruct x; simpl in *; by subst).
    rewrite Hx', <- Hl. by destruct p.
  - exfalso. apply Exists_exists in Hex as (te & Hin & Hid).
    rewrite Forall_forall in H. exact (H te Hin Hid).
Qed.

(** [late_timers] holds a node marked deleted. *)
Lemma cancel_sentinel_succeeds_witness :
  eco_poll_time_event_delete late_timers ECO_POLL_DELETED_EVENT_ID
  = (late_timers, ES_SUCCESS).
Proof.
  apply (cancel_sentinel_succeeds late_timers).
  simpl. apply Exists_cons_tl, Exists_cons_hd. reflexivity.
Defined.

(** ** Forcing the deadlines *)

Lemma fire_all_nodes (p : co_poll_t) (tv : Z * Z) :
  Forall2
    (fun a b =>
       if is_live a
       then b = set_te_when (fst (aeGetTime tv)) (snd (aeGetTime tv)) a
            /\ forall now, reading_le (aeGetTime tv) now ->
                           is_due now b = true
       else b = a)
    (timeEventHead p) (timeEventHead (eco_poll_time_fire_all p tv))
  /\ map te_id (timeEventHead (eco_poll_time_fire_all p tv))
     = map te_id (timeEventHead p).
Proof.
  unfold eco_poll_time_fire_all. destruct (aeGetTime tv) as [s ms] eqn:Hg.
  simpl. split.
  - induction (timeEventHead p) as [|te l IH]; simpl; constructor;
      [|assumption].
    unfold is_live.
    destruct (te_id te =? ECO_POLL_DELETED_EVENT_ID); simpl; [reflexivity|].
    split; [reflexivity|]. intros now Hle. unfold is_due, reading_le in *.
    simpl in *. apply orb_true_iff.
    destruct Hle as [Hlt|[He Hle]]; [left; lia|right].
    apply andb_true_iff. split; lia.
  - induction (timeEventHead p) as [|te l IH]; simpl; [reflexivity|].
    rewrite IH. f_equal.
    by destruct (te_id te =? ECO_POLL_DELETED_EVENT_ID).
Qed.

(** X12.  [eco_poll_time_fire_all] removes and adds no node and changes no
    id; it leaves the nodes marked deleted as they are and gives every other
    node the reading of the clock as its deadline, so that each of them is
    due at every reading that is not earlier. *)
Theorem fire_all_makes_due (p : co_poll_t) (tv : Z * Z) :
  Forall2
    (fun a b =>
       if is_live a
       then b = set_te_when (fst (aeGetTime tv)) (snd (aeGetTime tv)) a
            /\ forall now, reading_le (aeGetTime tv) now ->
                           is_due now b = true
       else b = a)
    (timeEventHead p) (timeEventHead (eco_poll_time_fire_all p tv))
  /\ map te_id (timeEventHead (eco_poll_time_fire_all p tv))
     = map te_id (timeEventHead p).
Proof. exact (fire_all_nodes p tv). Qed.

Lemma sweep_fires_due (E : environment) (L0 : list coTimeEvent)
    (T0 : list invocation) (maxId : Z) (k : nat) prev w w' n n' :
  timers_passive E ->
  Forall (fun te =>
            te_id te <= maxId
            /\ (te_id te <> ECO_POLL_DELETED_EVENT_ID ->
                forall t, is_due (aeGetTime (gettimeofday E t)) te = true))
         L0 ->
  sweep_progress L0 T0 k w n ->
  sweep_loop E maxId k prev w n = Some (w', n') ->
  sweep_progress L0 T0 0 w' n'.
Proof.
  intros [Hpt Hpf] HL0 HJ Hs.
  apply (sweep_loop_inv E keeps_timers maxId (sweep_progress L0 T0))
    with (k := k) (prev := prev) (w := w) (n := n); auto.
  - intros j m a x x' Hk (pre0 & done & todo & HL & Hlen & Ht & Hc & Hm) Ha.
    destruct (keeps_timers_prepends E a x x' Hk Ha) as [new Hnew].
    exists (new ++ pre0), done, todo. repeat split; try assumption.
    + rewrite Hnew, Ht. by rewrite app_assoc.
    + by rewrite (do_action_trace _ _ _ _ Ha).
  - intros j pv x m pre te suf HJ' Hsp Hid.
    destruct (sweep_progress_current _ _ _ _ _ _ _ _ HJ' Hsp)
      as (done & HL & Hlen & Ht & Hc & Hm).
    assert (Hdead : is_live te = false)
      by (unfold is_live; rewrite Hid; reflexivity).
    exists (match pv with
            | None => []
            | Some g => take (length pre - g)%nat pre
            end), (done ++ [te]), suf.
    rewrite List.filter_app. simpl. rewrite Hdead, !app_nil_r.
    split; [by rewrite <- app_assoc|]. split; [assumption|].
    split.
    { destruct (te_finalizerProc te =? NULL); simpl; destruct pv; reflexivity. }
    split; [|assumption].
    destruct (te_finalizerProc te =? NULL); simpl; [assumption|].
    rewrite time_calls_snoc. simpl. by rewrite app_nil_r.
  - intros j x m pre te suf HJ' Hsp Hlive Hgt. exfalso.
    destruct (sweep_progress_current _ _ _ _ _ _ _ _ HJ' Hsp)
      as (done & HL & _).
    rewrite HL in HL0. apply Forall_app in HL0 as [_ HL0].
    apply Forall_cons in HL0 as [[Hle _] _]. lia.
  - intros j x m pre te suf HJ' Hsp Hlive Hle Hdue. exfalso.
    destruct (sweep_progress_current _ _ _ _ _ _ _ _ HJ' Hsp)
      as (done & HL & _).
    rewrite HL in HL0. apply Forall_app in HL0 as [_ HL0].
    apply Forall_cons in HL0 as [[_ Hd] _].
    rewrite (Hd Hlive (w_tick x)) in Hdue. discriminate.
  - intros j x m pre te suf HJ' Hsp Hlive Hle Hdue.
    destruct (sweep_progress_current _ _ _ _ _ _ _ _ HJ' Hsp)
      as (done & HL & Hlen & Ht & Hc & Hm).
    assert (Halive : is_live te = true).
    { unfold is_live.
      by destruct (Z.eqb_spec (te_id te) ECO_POLL_DELETED_EVENT_ID). }
    exists (pre ++ [te]), (done ++ [te]), suf.
    rewrite List.filter_app. simpl. rewrite Halive.
    split; [by rewrite <- app_assoc|]. split; [assumption|].
    split; [simpl; rewrite Ht; by rewrite <- app_assoc|].
    split.
    + simpl. rewrite time_calls_snoc. simpl. rewrite Hc.
      by rewrite map_app, app_assoc.
    + rewrite length_app. simpl. lia.
  - intros j x m pre te suf HJ' Hsp.
    eapply (sweep_progress_visited _ _ _ _ _ _ _ _
              (set_te_id ECO_POLL_DELETED_EVENT_ID)); eauto.
  - intros j x m pre te suf s ms HJ' Hsp.
    eapply (sweep_progress_visited _ _ _ _ _ _ _ _ (set_te_when s ms)); eauto.
Qed.

Lemma filter_live_same_ids (l l' : list coTimeEvent) :
  Forall2 (fun a b => te_id b = te_id a /\ te_timeProc b = te_timeProc a
                      /\ te_clientData b = te_clientData a) l l' ->
  map fire_call (List.filter is_live l')
  = map fire_call (List.filter is_live l).
Proof.
  induction 1 as [|a b l l' (Hi & Hp & Hc) HF IH]; [reflexivity|]. simpl.
  assert (Hl : is_live b = is_live a) by (unfold is_live; by rewrite Hi).
  rewrite Hl. destruct (is_live a); simpl; rewrite IH; [|reflexivity].
  f_equal. unfold fire_call. by rewrite Hi, Hp, Hc.
Qed.

Lemma forced_deadlines_stay_due (E : environment) (tv : Z * Z)
    (l l' : list coTimeEvent) (zeroed_seconds : bool) :
  0 <= fst tv ->
  (forall t, reading_le (aeGetTime tv) (aeGetTime (gettimeofday E t))) ->
  Forall2
    (fun a b =>
       if is_live a
       then b = set_te_when (fst (aeGetTime tv)) (snd (aeGetTime tv)) a
            /\ forall now, reading_le (aeGetTime tv) now ->
                           is_due now b = true
       else b = a) l l' ->
  Forall2
    (fun a b =>
       te_id b = te_id a /\ te_timeProc b = te_timeProc a
       /\ te_clientData b = te_clientData a
       /\ (te_id a <> ECO_POLL_DELETED_EVENT_ID ->
           forall t, is_due (aeGetTime (gettimeofday E t)) b = true))
    l (if zeroed_seconds then map (set_te_when_sec 0) l' else l').
Proof.
  intros Hpos Hclock HF.
  induction HF as [|a b l l' Hab HF IH].
  { destruct zeroed_seconds; constructor. }
  assert (Hhead : forall z : bool,
            let b' := if z then set_te_when_sec 0 b else b in
            te_id b' = te_id a /\ te_timeProc b' = te_timeProc a
            /\ te_clientData b' = te_clientData a
            /\ (te_id a <> ECO_POLL_DELETED_EVENT_ID ->
                forall t, is_due (aeGetTime (gettimeofday E t)) b' = true)).
  { intros z. unfold is_live in Hab.
    destruct (Z.eqb_spec (te_id a) ECO_POLL_DELETED_EVENT_ID) as [Hd|Hl];
      simpl in Hab.
    - subst b. destruct z; simpl; repeat split; auto; contradiction.
    - destruct Hab as [-> Hdue].
      destruct z; simpl; repeat split; auto; intros _ t.
      specialize (Hclock t).
      unfold is_due, reading_le, aeGetTime in *. simpl in *.
      apply orb_true_iff.
      destruct (Z_lt_le_dec 0 (fst (gettimeofday E t))); [left; lia|].
      right. apply andb_true_iff. split; lia. }
  destruct zeroed_seconds; simpl; constructor;
    [exact (Hhead true)|exact IH|exact (Hhead false)|exact IH].
Qed.

(** X13.  After [eco_poll_time_fire_all], the next sweep fires every timer
    that is not marked deleted, once and in list order, and returns their
    number: provided the clock does not go back behind the reading
    [eco_poll_time_fire_all] took, which is not negative, and the callbacks
    of the sweep cancel no timer and do not force the deadlines
    themselves. *)
Theorem fire_all_then_sweep (E : environment) (w w' : world) (n : Z) :
  0 <= fst (gettimeofday E (w_tick w)) ->
  (forall t, reading_le (aeGetTime (gettimeofday E (w_tick w)))
                        (aeGetTime (gettimeofday E t))) ->
  timers_passive E ->
  ids_issued w ->
  (w1 ← do_action E time_fire_all w; processTimeEvents E w1) = Some (w', n) ->
  time_calls (w_trace w')
  = time_calls (w_trace w)
    ++ map fire_call (List.filter is_live (timeEventHead (w_poll w)))
  /\ n = Z.of_nat (length (List.filter is_live (timeEventHead (w_poll w)))).
Proof.
  intros Hpos Hclock Hpass [Hn0 Hbelow] Hp. simpl in Hp.
  set (tv := gettimeofday E (w_tick w)) in *.
  set (p1 := eco_poll_time_fire_all (w_poll w) tv) in *.
  unfold processTimeEvents in Hp. cbn [w_tick w_poll set_w_poll tick] in Hp.
  set (now := time_null E (S (w_tick w))) in *.
  set (L0 := timeEventHead (clock_skew_guard now p1)) in *.
  destruct (fire_all_nodes (w_poll w) tv) as [Hfa Hids]. fold p1 in Hfa, Hids.
  assert (Hnext : timeEventNextId (clock_skew_guard now p1)
                  = timeEventNextId (w_poll w)).
  { rewrite (proj2 (guard_update now p1)). subst p1.
    unfold eco_poll_time_fire_all. by destruct (aeGetTime tv). }
  rewrite Hnext in Hp.
  assert (Hrel : Forall2
            (fun a b =>
               te_id b = te_id a /\ te_timeProc b = te_timeProc a
               /\ te_clientData b = te_clientData a
               /\ (te_id a <> ECO_POLL_DELETED_EVENT_ID ->
                   forall t, is_due (aeGetTime (gettimeofday E t)) b = true))
            (timeEventHead (w_poll w)) L0).
  { subst L0. unfold clock_skew_guard.
    destruct (now <? lastTime p1); simpl;
      [apply (forced_deadlines_stay_due E tv _ _ true)
      |apply (forced_deadlines_stay_due E tv _ _ false)]; assumption. }
  apply (sweep_fires_due E L0 (time_calls (w_trace w))) in Hp;
    [|assumption| |].
  - destruct Hp as (pre & done & todo & HL & Hlen & _ & Hc & Hm).
    destruct todo; [|discriminate]. rewrite app_nil_r in HL. subst done.
    assert (Hsame : map fire_call (List.filter is_live L0)
                    = map fire_call
                        (List.filter is_live (timeEventHead (w_poll w)))).
    { apply filter_live_same_ids. eapply Forall2_impl; [exact Hrel|].
      simpl. tauto. }
    rewrite Hsame in Hc. split; [exact Hc|].
    rewrite Hm, <- (length_map fire_call), Hsame. by rewrite length_map.
  - apply ids_below_bound in Hbelow.
    clear -Hrel Hbelow Hn0. induction Hrel as [|a b l l' Hab HF IH];
      [constructor|].
    apply Forall_cons in Hbelow as [Ha Hl]. constructor; [|auto].
    destruct Hab as (Hi & _ & _ & Hdue). rewrite Hi.
    split; [destruct Ha as [->|]; [unfold ECO_POLL_DELETED_EVENT_ID|]; lia|].
    exact Hdue.
  - exists [], [], L0. simpl. rewrite app_nil_r. auto.
Qed.

(** The timers of [three_timers], due in 900, 0 and 800 seconds, forced
    and swept with the clock standing at one second: all three fire. *)
Lemma fire_all_then_sweep_witness :
  exists w' n,
    (w1 ← do_action quiet_env time_fire_all (mkWorld three_timers 0 []);
     processTimeEvents quiet_env w1) = Some (w', n)
    /\ w_trace w' = [CallTime 100 2 0; CallTime 100 1 7; CallTime 100 0 0]
    /\ time_calls (w_trace w')
       = time_calls []
         ++ map fire_call (List.filter is_live (timeEventHead three_timers))
    /\ n = Z.of_nat
             (length (List.filter is_live (timeEventHead three_timers))).
Proof.
  eexists. eexists. split; [vm_compute; reflexivity|].
  split; [reflexivity|].
  apply (fire_all_then_sweep quiet_env (mkWorld three_timers 0 [])).
  - simpl. lia.
  - intros t. right. simpl. split; [reflexivity|]. vm_compute. discriminate.
  - split; intros; constructor.
  - cbv. intuition discriminate.
  - vm_compute. reflexivity.
Defined.

(** ** What a sweep fires *)

Lemma fired_ids_snoc t c :
  fired_ids (t ++ [c])
  = fired_ids t ++ match c with CallTime _ id _ => [id] | _ => [] end.
Proof.
  unfold fired_ids. rewrite omap_app. f_equal. by destruct c.
Qed.

(** X14.  A sweep fires no more timers than the list held when it started,
    and only timers whose ids were issued before it started, never the
    sentinel id: a timer created by a callback during the sweep does not
    fire in that sweep, however early its deadline.  The value returned is
    the number of timers fired. *)
Theorem sweep_fires_only_old_timers (E : environment) (w w' : world) (n : Z) :
  processTimeEvents E w = Some (w', n) ->
  exists added,
    w_trace w' = w_trace w ++ added
    /\ Forall (fun id => id < timeEventNextId (w_poll w)
                         /\ id <> ECO_POLL_DELETED_EVENT_ID)
              (fired_ids added)
    /\ n = Z.of_nat (length (fired_ids added))
    /\ n <= Z.of_nat (length (timeEventHead (w_poll w))).
Proof.
  intros Hp. unfold processTimeEvents in Hp.
  set (now := time_null E (w_tick w)) in *.
  destruct (guard_update now (w_poll w)) as [Hup Hn]. rewrite Hn in Hp.
  rewrite <- (Forall2_length _ _ _ Hup) in Hp.
  apply (sweep_loop_inv E (fun _ => True) _
           (sweep_bounded (w_trace w) (length (timeEventHead (w_poll w)))
              (timeEventNextId (w_poll w)))) in Hp.
  - destruct Hp as (added & Ht & Hids & Hm & Hle).
    exists added. repeat split; try assumption. lia.
  - intros. apply Forall_forall. auto.
  - intros. apply Forall_forall. auto.
  - intros j m a x x' _ (added & Ht & Hids & Hm & Hle) Ha.
    exists added. rewrite (do_action_trace _ _ _ _ Ha). auto.
  - intros j pv x m pre te suf (added & Ht & Hids & Hm & Hle) _ _. simpl.
    destruct (te_finalizerProc te =? NULL); simpl.
    + exists added. repeat split; try assumption. lia.
    + exists (added ++ [CallFinalizer (te_finalizerProc te)
                          (te_clientData te)]).
      simpl. rewrite Ht, fired_ids_snoc, app_nil_r, app_assoc.
      repeat split; try assumption. lia.
  - intros j x m pre te suf (added & Ht & Hids & Hm & Hle) _ _ _.
    exists added. repeat split; try assumption. lia.
  - intros j x m pre te suf (added & Ht & Hids & Hm & Hle) _ _ _ _.
    exists added. repeat split; try assumption. lia.
  - intros j x m pre te suf (added & Ht & Hids & Hm & Hle) _ Hlive Hmax _.
    exists (added ++ [CallTime (te_timeProc te) (te_id te)
                        (te_clientData te)]).
    simpl. rewrite Ht, fired_ids_snoc, app_assoc.
    split; [reflexivity|]. split.
    { apply Forall_app. split; [assumption|]. constructor; [|constructor].
      split; [lia|assumption]. }
    rewrite length_app. simpl. split; lia.
  - intros j x m pre te suf (added & Ht & Hids & Hm & Hle) _.
    exists added. auto.
  - intros j x m pre te suf s ms (added & Ht & Hids & Hm & Hle) _.
    exists added. auto.
  - exists []. simpl. rewrite app_nil_r. repeat split; auto. lia.
Qed.

(** The sweep over [late_timers] fires the timers 2 and 0. *)
Lemma sweep_fires_only_old_timers_witness :
  exists w' n added,
    processTimeEvents quiet_env (mkWorld late_timers 0 []) = Some (w', n)
    /\ fired_ids added = [2; 0]
    /\ w_trace w' = [] ++ added
    /\ Forall (fun id => id < timeEventNextId late_timers
                         /\ id <> ECO_POLL_DELETED_EVENT_ID)
              (fired_ids added)
    /\ n = Z.of_nat (length (fired_ids added))
    /\ n <= Z.of_nat (length (timeEventHead late_timers)).
Proof.
  destruct (sweep_fires_only_old_timers quiet_env (mkWorld late_timers 0 [])
              (mkWorld
                 (mkPoll (-1) 4 3 1
                    [mkFileEvent 0 0 0 0; mkFileEvent 0 0 0 0;
                     mkFileEvent 0 0 0 0; mkFileEvent 0 0 0 0]
                    [mkTimeEvent (-1) 0 0 100 0 0;
                     mkTimeEvent (-1) 0 500 100 0 0])
                 3 [CallTime 100 2 0; CallTime 100 0 0]) 2)
    as (added & Ht & H).
  - vm_compute. reflexivity.
  - exists (mkWorld
              (mkPoll (-1) 4 3 1
                 [mkFileEvent 0 0 0 0; mkFileEvent 0 0 0 0;
                  mkFileEvent 0 0 0 0; mkFileEvent 0 0 0 0]
                 [mkTimeEvent (-1) 0 0 100 0 0;
                  mkTimeEvent (-1) 0 500 100 0 0])
              3 [CallTime 100 2 0; CallTime 100 0 0]), 2, added.
    split; [vm_compute; reflexivity|].
    simpl in Ht. split; [by rewrite <- Ht|]. split; [exact Ht|exact H].
Defined.

Lemma quiet_sweep_loop (E : environment) maxId (suf : list coTimeEvent) :
  forall pre prev w n,
    timeEventHead (w_poll w) = pre ++ suf ->
    Forall (fun te =>
              te_id te <> ECO_POLL_DELETED_EVENT_ID
              /\ forall t,
                   is_due (aeGetTime (gettimeofday E t)) te = false) suf ->
    exists t',
      sweep_loop E maxId (length suf) prev w n
      = Some (mkWorld (w_poll w) t' (w_trace w), n).
Proof.
  induction suf as [|te suf IH]; intros pre prev w n Hl Hq.
  - exists (w_tick w). simpl. by destruct w.
  - apply Forall_cons in Hq as [[Hlive Hnd] Hq].
    simpl length. rewrite sweep_loop_S, Hl, split_tail_app. simpl.
    destruct (Z.eqb_spec (te_id te) ECO_POLL_DELETED_EVENT_ID);
      [contradiction|].
    assert (Hl' : timeEventHead (w_poll w) = (pre ++ [te]) ++ suf)
      by (by rewrite <- app_assoc).
    destruct (te_id te >? maxId).
    + apply (IH (pre ++ [te])); assumption.
    + rewrite Hnd.
      destruct (IH (pre ++ [te]) (Some 0%nat) (tick w) n Hl' Hq) as [t' Ht].
      exists t'. exact Ht.
Qed.

(** X15.  A sweep that meets no clock regression, no node marked deleted
    and no timer that is due calls nothing and returns 0; it leaves the
    timers as they are and only records the time it read in [lastTime]. *)
Theorem quiet_sweep_changes_nothing (E : environment) (w : world) :
  lastTime (w_poll w) <= time_null E (w_tick w) ->
  Forall (fun te =>
            te_id te <> ECO_POLL_DELETED_EVENT_ID
            /\ forall t, is_due (aeGetTime (gettimeofday E t)) te = false)
         (timeEventHead (w_poll w)) ->
  exists t',
    processTimeEvents E w
    = Some (mkWorld (set_lastTime (time_null E (w_tick w)) (w_poll w)) t'
              (w_trace w), 0).
Proof.
  intros Hnow Hq. unfold processTimeEvents, clock_skew_guard.
  destruct (Z.ltb_spec (time_null E (w_tick w)) (lastTime (w_poll w)));
    [lia|].
  simpl.
  destruct (quiet_sweep_loop E (timeEventNextId (w_poll w) - 1)
              (timeEventHead (w_poll w)) [] None
              (set_w_poll (set_lastTime (time_null E (w_tick w)) (w_poll w))
                 (tick w)) 0 eq_refl Hq) as [t' Ht].
  exists t'. exact Ht.
Qed.

(** The timers 2 and 0 of [three_timers], due in 900 and 800 seconds, with
    the clock standing at one second. *)
Lemma quiet_sweep_changes_nothing_witness :
  exists t',
    processTimeEvents quiet_env
      (mkWorld (set_timeEventHead [timer_at 2 900 0; timer_at 0 800 500]
                  three_timers) 0 [])
    = Some (mkWorld
              (set_lastTime (time_null quiet_env 0)
                 (set_timeEventHead [timer_at 2 900 0; timer_at 0 800 500]
                    three_timers)) t' [], 0).
Proof.
  apply (quiet_sweep_changes_nothing quiet_env
           (mkWorld (set_timeEventHead [timer_at 2 900 0; timer_at 0 800 500]
                       three_timers) 0 [])).
  - simpl. lia.
  - repeat constructor; try discriminate; intros t; reflexivity.
Defined.

(** ** One iteration: flags and dispatch *)

(** X16.  [eco_poll_process_events] looks at the flags only through the two
    bits [ECO_POLL_TIME_EVENTS] and [ECO_POLL_FILE_EVENTS], and once the
    timer bit is set the file bit makes no difference: an iteration asked
    for timers only still dispatches the descriptors the backend reports. *)
Theorem time_flag_implies_dispatch (E : environment) (w : world)
    (flags1 flags2 timeout : Z) :
  Z.land flags1 ECO_POLL_TIME_EVENTS <> 0 ->
  Z.land flags2 ECO_POLL_TIME_EVENTS <> 0 ->
  eco_poll_process_events E w flags1 timeout
  = eco_poll_process_events E w flags2 timeout.
Proof.
  intros H1 H2. unfold eco_poll_process_events.
  apply Z.eqb_neq in H1, H2. rewrite H1, H2. reflexivity.
Qed.

(** On [both_directions], asked for timers only: the callbacks 10 and 11 of
    descriptor 1 are called as when asked for both. *)
Lemma time_flag_implies_dispatch_witness :
  eco_poll_process_events quiet_env (mkWorld (both_directions []) 0 [])
    ECO_POLL_TIME_EVENTS 0
  = Some (mkWorld (set_lastTime 1 (both_directions [])) 1
            [CallFile 10 1 0 3; CallFile 11 1 0 3], 1)
  /\ eco_poll_process_events quiet_env (mkWorld (both_directions []) 0 [])
       ECO_POLL_TIME_EVENTS 0
     = eco_poll_process_events quiet_env (mkWorld (both_directions []) 0 [])
         (Z.lor ECO_POLL_FILE_EVENTS ECO_POLL_TIME_EVENTS) 0.
Proof.
  split; [vm_compute; reflexivity|].
  apply (time_flag_implies_dispatch quiet_env
           (mkWorld (both_directions []) 0 [])); discriminate.
Defined.

(** X17.  An iteration that is not asked for timers returns 0 at once,
    without polling and without calling anything, when it is not asked for
    descriptors either or when no descriptor is watched ([maxfd] is -1):
    in the second case whatever the timeout, also a negative one. *)
Theorem nothing_to_wait_for (E : environment) (w : world)
    (flags timeout : Z) :
  Z.land flags ECO_POLL_TIME_EVENTS = 0 ->
  Z.land flags ECO_POLL_FILE_EVENTS = 0 \/ maxfd (w_poll w) = -1 ->
  eco_poll_process_events E w flags timeout = Some (w, 0)
  /\ reported_entries E w flags timeout = [].
Proof.
  intros Ht Hor. unfold eco_poll_process_events, reported_entries.
  rewrite Ht. simpl.
  destruct (Z.eqb_spec (Z.land flags ECO_POLL_FILE_EVENTS) 0) as [Hf|Hf];
    simpl; [by split|].
  destruct Hor as [|Hm]; [contradiction|]. rewrite Hm. by split.
Qed.

(** A loop that watches nothing, asked for descriptors with the timeout
    -1 (wait forever). *)
Lemma nothing_to_wait_for_witness :
  eco_poll_process_events quiet_env (mkWorld three_timers 0 [])
    ECO_POLL_FILE_EVENTS (-1)
  = Some (mkWorld three_timers 0 [], 0)
  /\ reported_entries quiet_env (mkWorld three_timers 0 [])
       ECO_POLL_FILE_EVENTS (-1) = [].
Proof.
  apply (nothing_to_wait_for quiet_env (mkWorld three_timers 0 [])
           ECO_POLL_FILE_EVENTS (-1)); [reflexivity|right; reflexivity].
Defined.

(** X18.  A descriptor ready in both directions whose readable callback
    has run is not called a second time when, after that call, its
    readable and writable callbacks are the same function: one callback
    registered for both directions is called once per entry. *)
Theorem same_callback_called_once (E : environment) (w w1 : world)
    (fd m : Z) (fe fe1 : coFileEvent) :
  slot (w_poll w) fd = Some fe ->
  Z.land (Z.land (fe_mask fe) m) ECO_POLL_READABLE <> 0 ->
  fe_rfileProc fe <> NULL ->
  call_file E w (fe_rfileProc fe) fd (fe_clientData fe) m = Some w1 ->
  slot (w_poll w1) fd = Some fe1 ->
  fe_wfileProc fe1 = fe_rfileProc fe1 ->
  dispatch_entry E w fd m = Some w1.
Proof.
  intros Hs Hr Hp Hc Hs1 Hsame. unfold dispatch_entry.
  rewrite Hs. simpl. apply Z.eqb_neq in Hr, Hp. rewrite Hr, Hp, Hc. simpl.
  rewrite Hs1. simpl. rewrite Hsame, Z.eqb_refl.
  destruct (Z.land (Z.land (fe_mask fe1) m) ECO_POLL_WRITABLE =? 0);
    [reflexivity|].
  by rewrite andb_false_r.
Qed.

(** Descriptor 1 watched in both directions by the callback 10. *)
Lemma same_callback_called_once_witness :
  dispatch_entry quiet_env
    (mkWorld (set_slot 1 (mkFileEvent 3 10 10 0) two_readers) 0 []) 1 3
  = Some (mkWorld (set_slot 1 (mkFileEvent 3 10 10 0) two_readers) 0
            [CallFile 10 1 0 3]).
Proof.
  apply (same_callback_called_once quiet_env
           (mkWorld (set_slot 1 (mkFileEvent 3 10 10 0) two_readers) 0 [])
           _ 1 3 (mkFileEvent 3 10 10 0) (mkFileEvent 3 10 10 0));
    try reflexivity; discriminate.
Defined.

(** ** The wait handed to the backend *)

(** X19.  When the nearest timer is not overdue, the wait handed to the
    backend is the time left until its deadline, as seconds and
    microseconds below one million, whatever timeout the caller passed. *)
Theorem wait_until_nearest_timer (te : coTimeEvent) (tv : Z * Z)
    (timeout : Z) :
  0 <= te_when_ms te < 1000 -> 0 <= snd tv < 1000000 ->
  fst tv * 1000 + Z.quot (snd tv) 1000
  <= te_when_sec te * 1000 + te_when_ms te ->
  exists s u,
    poll_timeout (Some te) tv timeout = Some (s, u)
    /\ 0 <= s /\ 0 <= u < 1000000
    /\ s * 1000000 + u
       = (te_when_sec te * 1000 + te_when_ms te
          - (fst tv * 1000 + Z.quot (snd tv) 1000)) * 1000.
Proof.
  intros Hms Hu Hle. unfold poll_timeout, aeGetTime.
  destruct tv as [sec usec]. simpl in *.
  pose proof (Z.quot_rem' usec 1000) as Hq.
  pose proof (Z.rem_bound_pos usec 1000 ltac:(lia) ltac:(lia)) as Hr.
  destruct (Z.ltb_spec (te_when_ms te) (Z.quot usec 1000)).
  - destruct (Z.ltb_spec (te_when_sec te - sec - 1) 0); [lia|].
    destruct (Z.ltb_spec ((te_when_ms te + 1000 - Z.quot usec 1000) * 1000) 0);
      [lia|].
    eexists. eexists. split; [reflexivity|]. lia.
  - destruct (Z.ltb_spec (te_when_sec te - sec) 0); [lia|].
    destruct (Z.ltb_spec ((te_when_ms te - Z.quot usec 1000) * 1000) 0);
      [lia|].
    eexists. eexists. split; [reflexivity|]. lia.
Qed.

(** A timer due at 13 s 350 ms, the clock showing 10 s 600 ms and the caller
    passing 5 ms: the wait is 2 s 750000 us. *)
Lemma wait_until_nearest_timer_witness :
  poll_timeout (Some (timer_at 0 13 350)) (10, 600000) 5
  = Some (2, 750000)
  /\ exists s u,
       poll_timeout (Some (timer_at 0 13 350)) (10, 600000) 5 = Some (s, u)
       /\ 0 <= s /\ 0 <= u < 1000000
       /\ s * 1000000 + u
          = (te_when_sec (timer_at 0 13 350) * 1000
             + te_when_ms (timer_at 0 13 350)
             - (fst (10, 600000) * 1000
                + Z.quot (snd (10, 600000)) 1000)) * 1000.
Proof.
  split; [reflexivity|].
  apply (wait_until_nearest_timer (timer_at 0 13 350) (10, 600000) 5);
    vm_compute; intuition discriminate.
Defined.

(** X20.  When the nearest timer is overdue, the seconds of the wait are 0
    but its microseconds are not: they are the difference of the two
    millisecond fields modulo one second, so that the backend is asked to
    wait, for less than a second, unless the two fields are equal. *)
Theorem wait_for_overdue_timer (te : coTimeEvent) (tv : Z * Z)
    (timeout : Z) :
  0 <= te_when_ms te < 1000 -> 0 <= snd tv < 1000000 ->
  te_when_sec te * 1000 + te_when_ms te
  < fst tv * 1000 + Z.quot (snd tv) 1000 ->
  poll_timeout (Some te) tv timeout
  = Some (0, (te_when_ms te - Z.quot (snd tv) 1000) mod 1000 * 1000).
Proof.
  intros Hms Hu Hlt. unfold poll_timeout, aeGetTime.
  destruct tv as [sec usec]. simpl in *.
  pose proof (Z.quot_rem' usec 1000) as Hq.
  pose proof (Z.rem_bound_pos usec 1000 ltac:(lia) ltac:(lia)) as Hr.
  destruct (Z.ltb_spec (te_when_ms te) (Z.quot usec 1000)).
  - destruct (Z.ltb_spec (te_when_sec te - sec - 1) 0); [|lia].
    destruct (Z.ltb_spec ((te_when_ms te + 1000 - Z.quot usec 1000) * 1000) 0);
      [lia|].
    do 3 f_equal.
    rewrite <- (Z.mod_unique_pos (te_when_ms te - Z.quot usec 1000) 1000 (-1)
                  (te_when_ms te + 1000 - Z.quot usec 1000)); lia.
  - destruct (Z.ltb_spec (te_when_sec te - sec) 0); [|lia].
    destruct (Z.ltb_spec ((te_when_ms te - Z.quot usec 1000) * 1000) 0);
      [lia|].
    do 3 f_equal. rewrite Z.mod_small; lia.
Qed.

(** A timer that was due at 4 s 900 ms, the clock showing 5 s 100 ms: the
    backend is asked to wait 800 ms. *)
Lemma wait_for_overdue_timer_witness :
  poll_timeout (Some (timer_at 0 4 900)) (5, 100000) 0 = Some (0, 800000)
  /\ poll_timeout (Some (timer_at 0 4 900)) (5, 100000) 0
     = Some (0, (te_when_ms (timer_at 0 4 900)
                 - Z.quot (snd (5, 100000)) 1000) mod 1000 * 1000).
Proof.
  split; [reflexivity|].
  apply (wait_for_overdue_timer (timer_at 0 4 900) (5, 100000) 0);
    vm_compute; intuition discriminate.
Defined.

(** X21.  Without a nearest timer the wait is the caller's timeout: a
    positive one is split into seconds and microseconds below one million,
    zero asks for an immediate return and a negative one for a wait without
    limit (a NULL timeout). *)
Theorem wait_for_caller_timeout (tv : Z * Z) (timeout : Z) :
  (0 < timeout ->
   exists s u,
     poll_timeout None tv timeout = Some (s, u)
     /\ 0 <= s /\ 0 <= u < 1000000 /\ s * 1000000 + u = timeout * 1000)
  /\ (timeout = 0 -> poll_timeout None tv timeout = Some (0, 0))
  /\ (timeout < 0 -> poll_timeout None tv timeout = None).
Proof.
  unfold poll_timeout. split; [|split].
  - intros Hpos. destruct (Z.gtb_spec timeout 0); [|lia].
    pose proof (Z.quot_rem' timeout 1000) as Hq.
    pose proof (Z.rem_bound_pos timeout 1000 ltac:(lia) ltac:(lia)) as Hr.
    pose proof (Z.quot_pos timeout 1000 ltac:(lia) ltac:(lia)).
    eexists. eexists. split; [reflexivity|]. lia.
  - intros ->. reflexivity.
  - intros Hneg. destruct (Z.gtb_spec timeout 0); [lia|].
    destruct (Z.eqb_spec timeout 0); [lia|reflexivity].
Qed.

(** ** The blocking wait on one descriptor *)

(** X22.  [eco_poll_wait] returns what [poll] returned unless that is 1 (0
    after a timeout, a negative value after an error).  When [poll]
    returned 1 the result is a mask of [ECO_POLL_READABLE] and
    [ECO_POLL_WRITABLE] only: readable exactly when [POLLIN] is reported,
    writable exactly when [POLLOUT], [POLLERR] or [POLLHUP] is, so that an
    error or a hang-up shows as writable also to a caller that asked for
    readable only. *)
Theorem wait_result_mask (B : poll_bits) (retval revents : Z) :
  (retval <> 1 -> eco_poll_wait B retval revents = retval)
  /\ (retval = 1 ->
      (eco_poll_wait B retval revents = 0
       \/ eco_poll_wait B retval revents = ECO_POLL_READABLE
       \/ eco_poll_wait B retval revents = ECO_POLL_WRITABLE
       \/ eco_poll_wait B retval revents
          = Z.lor ECO_POLL_READABLE ECO_POLL_WRITABLE)
      /\ (Z.land (eco_poll_wait B retval revents) ECO_POLL_READABLE <> 0
          <-> Z.land revents (POLLIN B) <> 0)
      /\ (Z.land (eco_poll_wait B retval revents) ECO_POLL_WRITABLE <> 0
          <-> Z.land revents (POLLOUT B) <> 0
              \/ Z.land revents (POLLERR B) <> 0
              \/ Z.land revents (POLLHUP B) <> 0)).
Proof.
  unfold eco_poll_wait. split.
  - intros Hne. destruct (Z.eqb_spec retval 1); [contradiction|reflexivity].
  - intros ->. simpl.
    destruct (Z.eqb_spec (Z.land revents (POLLIN B)) 0) as [H1|H1];
      destruct (Z.eqb_spec (Z.land revents (POLLOUT B)) 0) as [H2|H2];
      destruct (Z.eqb_spec (Z.land revents (POLLERR B)) 0) as [H3|H3];
      destruct (Z.eqb_spec (Z.land revents (POLLHUP B)) 0) as [H4|H4];
      simpl; (split; [tauto|]); split; split; intros H;
      try (exfalso; apply H; reflexivity); try discriminate;
      try tauto; try (destruct H as [H|[H|H]]; contradiction).
Qed.

(** ** Ids are not reused *)

Lemma cancelled_sweep (E : environment) i t0 maxId k prev w w' n n' :
  cancelled i t0 w ->
  sweep_loop E maxId k prev w n = Some (w', n') ->
  cancelled i t0 w'.
Proof.
  intros HJ Hs.
  apply (sweep_loop_inv E (fun _ => True) maxId (fun _ x _ => cancelled i t0 x))
    with (k := k) (prev := prev) (w := w) (n := n) (n' := n'); auto.
  - intros. apply Forall_forall. auto.
  - intros. apply Forall_forall. auto.
  - intros j m a x x' _ Hx Ha. eapply cancelled_action; eassumption.
  - intros j pv x m pre te suf Hx Hsp _.
    apply split_tail_Some in Hsp as [Hl _]. simpl.
    destruct (te_finalizerProc te =? NULL).
    + eapply cancelled_unlink; eassumption.
    + apply cancelled_record; [|reflexivity].
      eapply cancelled_unlink; eassumption.
  - intros j x m pre te suf Hx Hsp _ _ _.
    apply split_tail_Some in Hsp as [Hl _].
    apply cancelled_record; [assumption|].
    destruct Hx as (_ & Hids & _). rewrite Hl in Hids.
    apply split_ids in Hids as (_ & Hte & _). simpl. by apply Z.eqb_neq.
  - intros j x m pre te suf Hx Hsp.
    apply split_tail_Some in Hsp as [Hl _].
    eapply cancelled_node_update; [eassumption|eassumption|].
    unfold node_update. simpl. auto.
  - intros j x m pre te suf s ms Hx Hsp.
    apply split_tail_Some in Hsp as [Hl _].
    apply (cancelled_node_update i t0 x pre te suf (set_te_when s ms));
      [assumption|assumption|].
    unfold node_update. simpl. auto.
Qed.

Lemma cancelled_call (E : environment) i t0 x w w' :
  cancelled i t0 w -> do_call E x w = Some w' -> cancelled i t0 w'.
Proof.
  intros HJ Hc. destruct x as [a|flags timeout]; simpl in Hc.
  - eapply cancelled_action; eassumption.
  - destruct (eco_poll_process_events E w flags timeout) as [[w2 n]|] eqn:Hp;
      [simpl in Hc|discriminate].
    injection Hc as <-.
    apply process_events_split in Hp
      as (fired & w0 & w1 & n1 & Hp0 & Ht0 & Hd & Hrest).
    assert (H1 : cancelled i t0 w1).
    { apply (dispatch_inv E (fun _ => True) (cancelled i t0))
        with (fired := fired) (w := w0) (n := 0) (n' := n1); auto.
      - intros. apply Forall_forall. auto.
      - intros a y y' _ Hy Ha. eapply cancelled_action; eassumption.
      - intros. by apply cancelled_record.
      - unfold cancelled. by rewrite Hp0, Ht0. }
    destruct (negb (Z.land flags ECO_POLL_TIME_EVENTS =? 0)).
    + destruct Hrest as [n2 Hs]. unfold processTimeEvents in Hs.
      eapply cancelled_sweep; [|exact Hs]. by apply cancelled_guard.
    + by subst w2.
Qed.

Lemma cancelled_run (E : environment) i t0 cs w w' :
  cancelled i t0 w -> run_calls E cs w = Some w' -> cancelled i t0 w'.
Proof.
  revert w. induction cs as [|x cs IH]; intros w HJ Hr; simpl in Hr.
  - by injection Hr as <-.
  - destruct (do_call E x w) as [w1|] eqn:Hc; [simpl in Hr|discriminate].
    eapply IH; [|exact Hr]. eapply cancelled_call; eassumption.
Qed.

Lemma sentinel_call (E : environment) (t0 : Z) (c : call) (w w' : world) :
  fired_count ECO_POLL_DELETED_EVENT_ID (w_trace w) = t0 ->
  do_call E c w = Some w' ->
  fired_count ECO_POLL_DELETED_EVENT_ID (w_trace w') = t0.
Proof.
  set (J := fun x : world =>
              fired_count ECO_POLL_DELETED_EVENT_ID (w_trace x) = t0).
  assert (Hact : forall a x x', J x -> do_action E a x = Some x' -> J x').
  { intros a x x' Hx Ha. unfold J. by rewrite (do_action_trace E a x x' Ha). }
  change (J w -> do_call E c w = Some w' -> J w').
  intros Hx Hc. destruct c as [a|flags timeout]; simpl in Hc.
  - eapply Hact; eassumption.
  - destruct (eco_poll_process_events E w flags timeout) as [[w2 n]|] eqn:Hp;
      [simpl in Hc|discriminate].
    injection Hc as <-.
    apply process_events_split in Hp
      as (fired & w0 & w1 & n1 & Hp0 & Ht0 & Hd & Hrest).
    assert (H1 : J w1).
    { apply (dispatch_inv E (fun _ => True) J)
        with (fired := fired) (w := w0) (n := 0) (n' := n1); auto.
      - intros. apply Forall_forall. auto.
      - intros a y y' _ Hy Ha. eapply Hact; eassumption.
      - intros proc fd cd m y Hy. unfold J. simpl.
        rewrite fired_count_snoc. simpl. unfold J in Hy. lia.
      - unfold J. by rewrite Ht0. }
    destruct (negb (Z.land flags ECO_POLL_TIME_EVENTS =? 0)).
    + destruct Hrest as [n2 Hs]. unfold processTimeEvents in Hs.
      apply (sweep_loop_inv E (fun _ => True) _ (fun _ y _ => J y))
        in Hs; auto.
      * intros. apply Forall_forall. auto.
      * intros. apply Forall_forall. auto.
      * intros j m a y y' _ Hy Ha. eapply Hact; eassumption.
      * intros j pv y m pre te suf Hy _ _. simpl.
        destruct (te_finalizerProc te =? NULL); [exact Hy|].
        unfold J. simpl. rewrite fired_count_snoc. simpl.
        unfold J in Hy. lia.
      * intros j y m pre te suf Hy _ Hlive _ _. unfold J. simpl.
        rewrite fired_count_snoc. simpl.
        destruct (Z.eqb_spec (te_id te) ECO_POLL_DELETED_EVENT_ID);
          [contradiction|].
        unfold J in Hy. lia.
    + by subst w2.
Qed.

(** No run calls a timer callback with the sentinel id: the sweep tests
    the id of a node before it looks at its deadline, so that a node marked
    deleted is removed and finalized, never fired. *)
Lemma sentinel_id_never_fires (E : environment) (cs : list call)
    (w w' : world) :
  run_calls E cs w = Some w' ->
  fired_count ECO_POLL_DELETED_EVENT_ID (w_trace w')
  = fired_count ECO_POLL_DELETED_EVENT_ID (w_trace w).
Proof.
  remember (fired_count ECO_POLL_DELETED_EVENT_ID (w_trace w)) as t0 eqn:HJ.
  symmetry in HJ. revert w HJ.
  induction cs as [|c cs IH]; intros w HJ Hr; simpl in Hr.
  - by injection Hr as <-.
  - destruct (do_call E c w) as [w1|] eqn:Hc; [simpl in Hr|discriminate].
    exact (IH w1 (sentinel_call E t0 c w w1 HJ Hc) Hr).
Qed.

(** C4.  A timer id returned by a creation whose cancellation fails.  On a
    fresh loop three timers are created and the timers 2 and 1, the first
    two nodes of the list, are cancelled; the finalizer 60 of timer 2
    creates a timer.  In the next iteration the sweep unlinks the node of
    timer 2 and calls its finalizer, which is given the id 3 for a node put
    at the head of the list; the sweep then unlinks the node of timer 1 by
    resetting the head ([prev] is still NULL), which drops the node of
    timer 3.  The counter shows that the id 3 was issued, but the first
    cancellation of 3 reports a failure, and in every run that follows no
    node carries the id 3 and the callback of timer 3, due at once, is never
    called; its finalizer 61 was not called either. *)
Theorem created_timer_lost_before_cancel :
  exists p0 w1 w',
    eco_poll_create 4 zeroed 1 true true = Some p0
    /\ run_calls creating_env cancel_two_of_three (mkWorld p0 0 [])
       = Some w1
    /\ map te_id (timeEventHead (w_poll w1))
       = [ECO_POLL_DELETED_EVENT_ID; ECO_POLL_DELETED_EVENT_ID; 0]
    /\ timeEventNextId (w_poll w1) = 3
    /\ run_calls creating_env [ProcessEvents ECO_POLL_TIME_EVENTS 0] w1
       = Some w'
    /\ w_trace w' = [CallFinalizer 60 1; CallFinalizer 62 1]
    /\ timeEventNextId (w_poll w') = 4
    /\ map te_id (timeEventHead (w_poll w')) = [0]
    /\ eco_poll_time_event_delete (w_poll w') 3 = (w_poll w', ES_FAILURE)
    /\ forall cs w'',
         run_calls creating_env cs w' = Some w'' ->
         Forall (fun te => te_id te <> 3) (timeEventHead (w_poll w''))
         /\ fired_count 3 (w_trace w'') = 0
         /\ eco_poll_time_event_delete (w_poll w'') 3
            = (w_poll w'', ES_FAILURE).
Proof.
  eexists. eexists. eexists.
  split; [reflexivity|]. split; [vm_compute; reflexivity|].
  split; [reflexivity|]. split; [reflexivity|].
  split; [vm_compute; reflexivity|].
  split; [reflexivity|]. split; [reflexivity|]. split; [reflexivity|].
  split; [reflexivity|].
  intros cs w'' Hrun.
  match type of Hrun with run_calls _ _ ?w = _ =>
    assert (HJ : cancelled 3 0 w)
  end.
  { split; [simpl; lia|]. split; [|reflexivity].
    repeat constructor. discriminate. }
  destruct (cancelled_run creating_env 3 0 cs _ w'' HJ Hrun)
    as (_ & Hids & Hf).
  split; [exact Hids|]. split; [exact Hf|].
  unfold eco_poll_time_event_delete.
  by rewrite (mark_deleted_absent _ _ Hids).
Qed.

(** X23.  An id that was issued and that no node of the list carries any
    more is never seen again: in every run that follows, whatever the
    callbacks do, no node gets this id, the timer callback is never called
    with it and a cancellation of it reports a failure. *)
Theorem gone_id_never_returns (E : environment) (w w' : world) (i : Z)
    (cs : list call) :
  0 <= i < timeEventNextId (w_poll w) ->
  Forall (fun te => te_id te <> i) (timeEventHead (w_poll w)) ->
  run_calls E cs w = Some w' ->
  Forall (fun te => te_id te <> i) (timeEventHead (w_poll w'))
  /\ fired_count i (w_trace w') = fired_count i (w_trace w)
  /\ eco_poll_time_event_delete (w_poll w') i = (w_poll w', ES_FAILURE).
Proof.
  intros Hi Hids Hr.
  assert (HJ : cancelled i (fired_count i (w_trace w)) w) by (by split).
  destruct (cancelled_run E _ _ cs w w' HJ Hr) as (_ & Hids' & Hf).
  split; [assumption|]. split; [assumption|].
  unfold eco_poll_time_event_delete.
  by rewrite (mark_deleted_absent _ _ Hids').
Qed.

(** The id 1 after the node of timer 1 has gone from [three_timers]. *)
Lemma gone_id_never_returns_witness :
  exists w',
    run_calls quiet_env two_sweeps
      (mkWorld (set_timeEventHead [timer_at 2 900 0; timer_at 0 800 500]
                  three_timers) 0 []) = Some w'
    /\ Forall (fun te => te_id te <> 1) (timeEventHead (w_poll w'))
    /\ fired_count 1 (w_trace w') = fired_count 1 []
    /\ eco_poll_time_event_delete (w_poll w') 1 = (w_poll w', ES_FAILURE).
Proof.
  eexists. split; [vm_compute; reflexivity|].
  apply (gone_id_never_returns quiet_env
           (mkWorld (set_timeEventHead [timer_at 2 900 0; timer_at 0 800 500]
                       three_timers) 0 []) _ 1 two_sweeps).
  - simpl. lia.
  - repeat constructor; discriminate.
  - vm_compute. reflexivity.
Defined.

(** ** A timer created by a finalizer *)

Lemma finalize_cancelled (E : environment) i t0 te w w' :
  cancelled i t0 w -> finalize E te w = Some w' -> cancelled i t0 w'.
Proof.
  intros HJ Hf. unfold finalize in Hf.
  destruct (te_finalizerProc te =? NULL); [by injection Hf as <-|].
  unfold call_finalizer in Hf.
  eapply (run_actions_inv E (fun _ => True) (cancelled i t0));
    [intros; eapply cancelled_action; eassumption
    |apply Forall_forall; auto| |exact Hf].
  by apply cancelled_record.
Qed.

Lemma sweep_loop_deleted (E : environment) maxId pre te suf prev w n :
  timeEventHead (w_poll w) = pre ++ te :: suf ->
  te_id te = ECO_POLL_DELETED_EVENT_ID ->
  sweep_loop E maxId (S (length suf)) prev w n
  = w2 ← finalize E te (set_w_timers (unlink prev pre suf) w);
    sweep_loop E maxId (length suf)
      (match prev with None => None | Some _ => Some 0%nat end) w2 n.
Proof.
  intros Hl Hid. rewrite sweep_loop_S, Hl, split_tail_app.
  cbn [mbind option_bind]. by rewrite Hid.
Qed.

(** X24.  When the first two nodes of the list are marked deleted and the
    finalizer of the first creates a timer, the sweep unlinks the second
    node by resetting the head of the list ([prev] is still NULL), which
    drops the timer just created: its id was issued, but in every run that
    follows no node carries it, its callback is never called and a
    cancellation of it reports a failure. *)
Theorem timer_created_by_finalizer_is_lost (E : environment)
    (w w' w'' : world) (d1 d2 : coTimeEvent) (rest : list coTimeEvent)
    (ms proc cd fin n : Z) (cs : list call) :
  ids_issued w ->
  timeEventHead (w_poll w) = d1 :: d2 :: rest ->
  te_id d1 = ECO_POLL_DELETED_EVENT_ID ->
  te_id d2 = ECO_POLL_DELETED_EVENT_ID ->
  te_finalizerProc d1 <> NULL ->
  (forall p, finalizerProc_body E (te_finalizerProc d1) p (te_clientData d1)
             = [time_event_create ms proc cd fin true]) ->
  processTimeEvents E w = Some (w', n) ->
  run_calls E cs w' = Some w'' ->
  timeEventNextId (w_poll w) < timeEventNextId (w_poll w')
  /\ Forall (fun te => te_id te <> timeEventNextId (w_poll w))
            (timeEventHead (w_poll w'))
  /\ Forall (fun te => te_id te <> timeEventNextId (w_poll w))
            (timeEventHead (w_poll w''))
  /\ fired_count (timeEventNextId (w_poll w)) (w_trace w'')
     = fired_count (timeEventNextId (w_poll w)) (w_trace w)
  /\ eco_poll_time_event_delete (w_poll w'') (timeEventNextId (w_poll w))
     = (w_poll w'', ES_FAILURE).
Proof.
  intros [Hn0 Hbelow] Hl Hd1 Hd2 Hfin Hscript Hp Hrun.
  set (i := timeEventNextId (w_poll w)) in *.
  set (t0 := fired_count i (w_trace w)).
  assert (Hsw : cancelled i t0 w').
  { unfold processTimeEvents in Hp.
    set (now := time_null E (w_tick w)) in *.
    destruct (guard_update now (w_poll w)) as [Hup Hnext].
    rewrite Hnext in Hp. rewrite Hl in Hup.
    apply Forall2_cons_inv_l in Hup as (e1 & L1 & Hu1 & Hup & HL).
    apply Forall2_cons_inv_l in Hup as (e2 & rest' & Hu2 & Hup & ->).
    assert (He1 : te_id e1 = ECO_POLL_DELETED_EVENT_ID)
      by (destruct Hu1 as (_ & _ & _ & [->|]); assumption).
    assert (He2 : te_id e2 = ECO_POLL_DELETED_EVENT_ID)
      by (destruct Hu2 as (_ & _ & _ & [->|]); assumption).
    destruct Hu1 as (_ & Hf1 & Hc1 & _).
    assert (Hrest : Forall (fun te => te_id te <> i) rest').
    { rewrite Hl in Hbelow. apply ids_below_bound in Hbelow.
      apply Forall_cons in Hbelow as [_ Hbelow].
      apply Forall_cons in Hbelow as [_ Hbelow].
      clear -Hup Hbelow Hn0. induction Hup as [|a b l l' Hab HF IH];
        [constructor|].
      apply Forall_cons in Hbelow as [Ha Hb]. constructor; [|auto].
      destruct Hab as (_ & _ & _ & [->| ->]);
        [destruct Ha as [->|]|]; unfold ECO_POLL_DELETED_EVENT_ID; lia. }
    rewrite HL in Hp.
    change (length (e1 :: e2 :: rest')) with (S (length (e2 :: rest'))) in Hp.
    rewrite (sweep_loop_deleted E _ [] e1 (e2 :: rest')) in Hp;
      [|exact HL|exact He1].
    apply bind_Some in Hp as (w1 & Hfin1 & Hp).
    assert (Hw1 : exists new,
               timeEventHead (w_poll w1) = [new] ++ e2 :: rest'
               /\ i < timeEventNextId (w_poll w1)
               /\ fired_count i (w_trace w1) = t0).
    { unfold finalize in Hfin1. rewrite Hf1 in Hfin1.
      destruct (Z.eqb_spec (te_finalizerProc d1) NULL); [contradiction|].
      unfold call_finalizer in Hfin1. rewrite Hc1, Hscript in Hfin1.
      simpl in Hfin1. injection Hfin1 as <-.
      unfold eco_poll_time_event_create. simpl.
      destruct (aeAddMillisecondsToNow _ ms) as [s m]. simpl.
      eexists. split; [reflexivity|].
      split; [destruct (now <? lastTime (w_poll w)); simpl; fold i; lia|].
      unfold t0. rewrite fired_count_snoc. simpl. lia. }
    destruct Hw1 as (new & Ht1 & Hi1 & Hc1').
    change (length (e2 :: rest')) with (S (length rest')) in Hp.
    rewrite (sweep_loop_deleted E _ [new] e2 rest') in Hp;
      [|exact Ht1|exact He2].
    apply bind_Some in Hp as (w2 & Hfin2 & Hp).
    eapply cancelled_sweep; [|exact Hp].
    eapply finalize_cancelled; [|exact Hfin2].
    split; [simpl; lia|]. split; [exact Hrest|exact Hc1']. }
  destruct (cancelled_run E i t0 cs w' w'' Hsw Hrun) as (_ & Hids'' & Hf'').
  destruct Hsw as (Hi' & Hids' & Hf').
  split; [lia|]. split; [assumption|]. split; [assumption|].
  split; [exact Hf''|].
  unfold eco_poll_time_event_delete.
  by rewrite (mark_deleted_absent _ _ Hids'').
Qed.

(** The sweep over [two_deleted]: the timer 3 created by the finalizer 60,
    due at once, is gone after the sweep and never fires. *)
Lemma timer_created_by_finalizer_is_lost_witness :
  exists w' n w'',
    processTimeEvents creating_env (mkWorld two_deleted 0 []) = Some (w', n)
    /\ w_trace w' = [CallFinalizer 60 1; CallFinalizer 62 1]
    /\ map te_id (timeEventHead (w_poll w')) = [0]
    /\ run_calls creating_env two_sweeps w' = Some w''
    /\ timeEventNextId two_deleted < timeEventNextId (w_poll w')
    /\ Forall (fun te => te_id te <> timeEventNextId two_deleted)
              (timeEventHead (w_poll w'))
    /\ Forall (fun te => te_id te <> timeEventNextId two_deleted)
              (timeEventHead (w_poll w''))
    /\ fired_count (timeEventNextId two_deleted) (w_trace w'')
       = fired_count (timeEventNextId two_deleted) []
    /\ eco_poll_time_event_delete (w_poll w'') (timeEventNextId two_deleted)
       = (w_poll w'', ES_FAILURE).
Proof.
  eexists. eexists. eexists. split; [vm_compute; reflexivity|].
  split; [reflexivity|]. split; [reflexivity|].
  split; [vm_compute; reflexivity|].
  apply (timer_created_by_finalizer_is_lost creating_env
           (mkWorld two_deleted 0 []) _ _
           (mkTimeEvent ECO_POLL_DELETED_EVENT_ID 50 0 51 60 1)
           (mkTimeEvent ECO_POLL_DELETED_EVENT_ID 50 0 51 62 1)
           [timer_at 0 800 500] 0 51 7 61 0 two_sweeps).
  - cbv. intuition discriminate.
  - reflexivity.
  - reflexivity.
  - reflexivity.
  - discriminate.
  - intros p. reflexivity.
  - vm_compute. reflexivity.
  - vm_compute. reflexivity.
Defined.

(** ** One due timer among timers that are not due *)

Lemma world_eta (w : world) : mkWorld (w_poll w) (w_tick w) (w_trace w) = w.
Proof. by destruct w. Qed.

Lemma quiet_prefix (E : environment) maxId (q : list coTimeEvent) :
  forall pre rest prev w n,
    timeEventHead (w_poll w) = pre ++ q ++ rest ->
    Forall (fun te =>
              te_id te <> ECO_POLL_DELETED_EVENT_ID
              /\ forall t,
                   is_due (aeGetTime (gettimeofday E t)) te = false) q ->
    exists prev' t',
      sweep_loop E maxId (length (q ++ rest)) prev w n
      = sweep_loop E maxId (length rest) prev'
          (mkWorld (w_poll w) t' (w_trace w)) n.
Proof.
  induction q as [|te q IH]; intros pre rest prev w n Hl Hq.
  - exists prev, (w_tick w). by rewrite world_eta.
  - apply Forall_cons in Hq as [[Hlive Hnd] Hq].
    change (length ((te :: q) ++ rest)) with (S (length (q ++ rest))).
    rewrite sweep_loop_S, Hl.
    change (pre ++ (te :: q) ++ rest) with (pre ++ te :: (q ++ rest)).
    rewrite split_tail_app. cbn [mbind option_bind].
    destruct (Z.eqb_spec (te_id te) ECO_POLL_DELETED_EVENT_ID);
      [contradiction|].
    assert (Hl' : timeEventHead (w_poll w) = (pre ++ [te]) ++ q ++ rest)
      by (rewrite Hl; by rewrite <- app_assoc).
    destruct (te_id te >? maxId).
    + apply (IH (pre ++ [te])); assumption.
    + rewrite Hnd.
      destruct (IH (pre ++ [te]) rest (Some 0%nat) (tick w) n Hl' Hq)
        as (prev' & t' & Ht).
      exists prev', t'. exact Ht.
Qed.

(** X25.  In a sweep without clock regression over a list in which one live
    timer, issued before the sweep, is due and the others are live and not
    due, the callback of that timer making no call on the loop: the
    callback is called once, the sweep returns 1 and the other timers stay
    as they are.  The timer stays at its place in the list: marked deleted
    when the callback returned [ECO_POLL_NOMORE], and otherwise with the
    deadline a reading of the clock plus the value returned. *)
Theorem due_timer_fires_once (E : environment) (w : world)
    (pre suf : list coTimeEvent) (te : coTimeEvent) (r : Z) :
  lastTime (w_poll w) <= time_null E (w_tick w) ->
  timeEventHead (w_poll w) = pre ++ te :: suf ->
  Forall (fun x =>
            te_id x <> ECO_POLL_DELETED_EVENT_ID
            /\ forall t, is_due (aeGetTime (gettimeofday E t)) x = false)
         (pre ++ suf) ->
  te_id te <> ECO_POLL_DELETED_EVENT_ID ->
  te_id te < timeEventNextId (w_poll w) ->
  (forall t, is_due (aeGetTime (gettimeofday E t)) te = true) ->
  te_timeProc te <> NULL ->
  (forall p, timeProc_body E (te_timeProc te) p (te_id te) (te_clientData te)
             = ([], r)) ->
  exists t1 t',
    processTimeEvents E w
    = Some (mkWorld
              (set_timeEventHead
                 (pre
                  ++ (if r =? ECO_POLL_NOMORE
                      then set_te_id ECO_POLL_DELETED_EVENT_ID te
                      else set_te_when
                             (fst (aeAddMillisecondsToNow
                                     (gettimeofday E t1) r))
                             (snd (aeAddMillisecondsToNow
                                     (gettimeofday E t1) r)) te)
                  :: suf)
                 (set_lastTime (time_null E (w_tick w)) (w_poll w)))
              t' (w_trace w ++ [fire_call te]), 1).
Proof.
  intros Hnow Hl Hq Hlive Hid Hdue Hproc Hscript.
  apply Forall_app in Hq as [Hqpre Hqsuf].
  unfold processTimeEvents, clock_skew_guard.
  destruct (Z.ltb_spec (time_null E (w_tick w)) (lastTime (w_poll w)));
    [lia|].
  set (p0 := set_lastTime (time_null E (w_tick w)) (w_poll w)).
  change (timeEventHead p0) with (timeEventHead (w_poll w)).
  change (timeEventNextId p0) with (timeEventNextId (w_poll w)).
  set (maxId := timeEventNextId (w_poll w) - 1).
  rewrite Hl.
  destruct (quiet_prefix E maxId pre [] (te :: suf) None
              (set_w_poll p0 (tick w)) 0) as (prev1 & t1 & ->);
    [exact Hl|exact Hqpre|].
  cbn [w_poll w_trace set_w_poll tick].
  set (W1 := mkWorld p0 t1 (w_trace w)).
  change (length (te :: suf)) with (S (length suf)).
  rewrite sweep_loop_S.
  change (timeEventHead (w_poll W1)) with (timeEventHead (w_poll w)).
  rewrite Hl, split_tail_app. cbn [mbind option_bind].
  destruct (Z.eqb_spec (te_id te) ECO_POLL_DELETED_EVENT_ID); [contradiction|].
  destruct (Z.gtb_spec (te_id te) maxId); [subst maxId; lia|].
  rewrite Hdue. destruct (Z.eqb_spec (te_timeProc te) NULL); [contradiction|].
  unfold call_time. rewrite Hscript.
  cbn [run_actions mbind option_bind fst snd].
  set (W2 := record_call (CallTime (te_timeProc te) (te_id te)
                            (te_clientData te)) (tick W1)).
  assert (Hsp : split_tail (S (length suf)) (timeEventHead (w_poll W2))
                = Some (pre, te, suf)).
  { change (timeEventHead (w_poll W2)) with (timeEventHead (w_poll w)).
    rewrite Hl. apply split_tail_app. }
  unfold after_fire, update_current.
  destruct (r =? ECO_POLL_NOMORE).
  - rewrite Hsp. cbn [mbind option_bind].
    match goal with |- context [sweep_loop E maxId _ _ ?x _] =>
      destruct (quiet_sweep_loop E maxId suf
                  (pre ++ [set_te_id ECO_POLL_DELETED_EVENT_ID te])
                  (Some 0%nat) x (0 + 1)) as (t' & ->)
    end; [simpl; by rewrite <- app_assoc|exact Hqsuf|].
    exists 0%nat, t'. reflexivity.
  - destruct (aeAddMillisecondsToNow (gettimeofday E (w_tick W2)) r)
      as [s ms] eqn:Hadd.
    change (timeEventHead (w_poll (tick W2)))
      with (timeEventHead (w_poll W2)).
    rewrite Hsp. cbn [mbind option_bind].
    match goal with |- context [sweep_loop E maxId _ _ ?x _] =>
      destruct (quiet_sweep_loop E maxId suf
                  (pre ++ [set_te_when s ms te])
                  (Some 0%nat) x (0 + 1)) as (t' & ->)
    end; [simpl; by rewrite <- app_assoc|exact Hqsuf|].
    exists (w_tick W2), t'. rewrite Hadd. reflexivity.
Qed.

(** The timer 1 of [three_timers], due at once, between two timers that are
    not due; its callback asks for 250 milliseconds more. *)
Lemma due_timer_fires_once_witness :
  exists t1 t',
    processTimeEvents rearming_env (mkWorld three_timers 0 [])
    = Some (mkWorld
              (set_timeEventHead
                 [timer_at 2 900 0;
                  set_te_when
                    (fst (aeAddMillisecondsToNow
                            (gettimeofday rearming_env t1) 250))
                    (snd (aeAddMillisecondsToNow
                            (gettimeofday rearming_env t1) 250))
                    (mkTimeEvent 1 0 0 100 200 7);
                  timer_at 0 800 500]
                 (set_lastTime (time_null rearming_env 0) three_timers))
              t' [fire_call (mkTimeEvent 1 0 0 100 200 7)], 1).
Proof.
  apply (due_timer_fires_once rearming_env (mkWorld three_timers 0 [])
           [timer_at 2 900 0] [timer_at 0 800 500]
           (mkTimeEvent 1 0 0 100 200 7) 250).
  - simpl. lia.
  - reflexivity.
  - repeat constructor; try discriminate; intros t; reflexivity.
  - discriminate.
  - simpl. lia.
  - intros t. reflexivity.
  - discriminate.
  - intros p. reflexivity.
Defined.

(** ** Instances of the properties stated by cases *)

(** Descriptors 4, 5, 7 and 9 on [two_readers], which has four slots. *)
Lemma out_of_range_calls_change_nothing_witness :
  register Create two_readers 7 ECO_POLL_READABLE 10 0 true
  = Some (two_readers, ES_FAILURE)
  /\ eco_poll_file_event_delete two_readers 4 ECO_POLL_READABLE
     = Some two_readers
  /\ eco_poll_get_file_events two_readers 9 = Some ECO_POLL_NONE
  /\ run_fd_ops [Register Update 4 ECO_POLL_WRITABLE 10 0 false;
                 Unregister 5 ECO_POLL_READABLE] two_readers
     = Some two_readers.
Proof.
  destruct (out_of_range_calls_change_nothing two_readers)
    as (H1 & H2 & H3 & H4).
  split; [apply H1; simpl; lia|]. split; [apply H2; simpl; lia|].
  split; [apply H3; simpl; lia|].
  apply H4. repeat constructor; simpl; lia.
Defined.

(** The cancellation of timer 1 of [three_timers], the second node. *)
Lemma cancel_marks_first_match_witness :
  snd (eco_poll_time_event_delete three_timers 1) = ES_SUCCESS
  /\ exists l1 x l2,
       timeEventHead three_timers = l1 ++ x :: l2 /\ te_id x = 1
       /\ Forall (fun te => te_id te <> 1) l1
       /\ fst (eco_poll_time_event_delete three_timers 1)
          = set_timeEventHead
              (l1 ++ set_te_id ECO_POLL_DELETED_EVENT_ID x :: l2)
              three_timers.
Proof.
  destruct (cancel_marks_first_match three_timers 1) as (H1 & _ & H3).
  assert (Hs : snd (eco_poll_time_event_delete three_timers 1) = ES_SUCCESS)
    by (apply H1; apply Exists_cons_tl, Exists_cons_hd; reflexivity).
  split; [exact Hs|exact (H3 Hs)].
Defined.

(** Timeouts of 2500 milliseconds, of zero and of -1. *)
Lemma wait_for_caller_timeout_witness :
  (exists s u,
      poll_timeout None (1, 0) 2500 = Some (s, u)
      /\ 0 <= s /\ 0 <= u < 1000000 /\ s * 1000000 + u = 2500 * 1000)
  /\ poll_timeout None (1, 0) 0 = Some (0, 0)
  /\ poll_timeout None (1, 0) (-1) = None.
Proof.
  destruct (wait_for_caller_timeout (1, 0) 2500) as (H1 & _ & _).
  destruct (wait_for_caller_timeout (1, 0) 0) as (_ & H2 & _).
  destruct (wait_for_caller_timeout (1, 0) (-1)) as (_ & _ & H3).
  split; [apply H1; lia|]. split; [apply H2; reflexivity|apply H3; lia].
Defined.

(** A failed [poll], and a [poll] that reports an error on a descriptor
    watched for reading, with the bits [POLLIN] 1, [POLLOUT] 4, [POLLERR] 8
    and [POLLHUP] 16. *)
Lemma wait_result_mask_witness :
  eco_poll_wait (mkPollBits 1 4 8 16) (-1) 8 = -1
  /\ (Z.land (eco_poll_wait (mkPollBits 1 4 8 16) 1 8) ECO_POLL_READABLE <> 0
      <-> Z.land 8 1 <> 0)
  /\ (Z.land (eco_poll_wait (mkPollBits 1 4 8 16) 1 8) ECO_POLL_WRITABLE <> 0
      <-> Z.land 8 4 <> 0 \/ Z.land 8 8 <> 0 \/ Z.land 8 16 <> 0).
Proof.
  destruct (wait_result_mask (mkPollBits 1 4 8 16) (-1) 8) as [H1 _].
  destruct (wait_result_mask (mkPollBits 1 4 8 16) 1 8) as [_ H2].
  split; [apply H1; lia|].
  destruct (H2 eq_refl) as (_ & Hr & Hw).
  split; [exact Hr|exact Hw].
Defined.
